(** * MDP Playground: the toy-environment engine [RLToyEnv]

    A shallow embedding of [mdp_playground/envs/rl_toy_env.py] and the
    properties its specification states about it.

    Conventions of the embedding.
    - Python integers are [Z]; list positions follow Python's rules
      (negative positions count from the end, a position out of range
      raises [IndexError], a slice is clamped).
    - Python floats ([reward_scale], [reward_density], noise values, the
      continuous state) are rationals [Q] with exact arithmetic.
    - A raised exception ends the computation: functions that can raise
      return a [result], and the object under construction is dropped.
    - Every random draw goes through the interface [Random]: a generator
      state is threaded explicitly, as numpy's [RandomState] is mutated.
    - [np.nan] in the augmented state is [None]; a state is [Some s]. *)

From Stdlib Require Import String.
From Stdlib Require Import ZArith QArith Qround Qabs List Bool Lia Permutation.
Import ListNotations.
Local Open Scope Z_scope.
Local Open Scope list_scope.

Set Implicit Arguments.

(** ** Exceptions and results *)

Inductive exn : Type :=
| AssertionError
| IndexError
| KeyError
| TypeError
| ValueError
| ZeroDivisionError
| SystemExit.

Inductive result (A : Type) : Type :=
| Ok (a : A)
| Raise (e : exn).

Arguments Ok {A} a.
Arguments Raise {A} e.

Definition bind {A B : Type} (r : result A) (k : A -> result B) : result B :=
  match r with
  | Ok a => k a
  | Raise e => Raise e
  end.

Notation "x <- c1 ;; c2" := (bind c1 (fun x => c2))
  (at level 61, c1 at next level, right associativity).
Notation "' pat <- c1 ;; c2" := (bind c1 (fun x => match x with pat => c2 end))
  (at level 61, pat pattern, c1 at next level, right associativity).

Definition assert (b : bool) : result unit :=
  if b then Ok tt else Raise AssertionError.

(** A monadic left fold: a [for] loop whose body can raise. *)
Fixpoint for_each {A S : Type} (xs : list A) (body : S -> A -> result S) (s : S)
  : result S :=
  match xs with
  | [] => Ok s
  | x :: xs' => s' <- body s x ;; for_each xs' body s'
  end.

(** ** Python built-ins *)

Module Py.

(** [range(a, b)] *)
Definition range (a b : Z) : list Z :=
  map (fun i => a + Z.of_nat i) (seq 0 (Z.to_nat (b - a))).

Definition len {A : Type} (l : list A) : Z := Z.of_nat (length l).

(** [int(x)] on a float: truncation toward zero. *)
Definition int (x : Q) : Z := Z.quot (Qnum x) (Z.pos (Qden x)).


(** The position a list subscript [l[i]] denotes. *)
Definition index {A : Type} (l : list A) (i : Z) : result nat :=
  let n := len l in
  if (0 <=? i) && (i <? n) then Ok (Z.to_nat i)
  else if (- n <=? i) && (i <? 0) then Ok (Z.to_nat (i + n))
  else Raise IndexError.

(** [l[i]] *)
Definition get {A : Type} (l : list A) (i : Z) : result A :=
  k <- index l i ;;
  match nth_error l k with
  | Some x => Ok x
  | None => Raise IndexError
  end.

(** The bound of a slice, clamped as Python does. *)
Definition clamp (n i : Z) : nat :=
  if i <? 0 then Z.to_nat (Z.max (i + n) 0) else Z.to_nat (Z.min i n).

(** [l[lo:hi]] *)
Definition slice {A : Type} (l : list A) (lo hi : Z) : list A :=
  let a := clamp (len l) lo in
  let b := clamp (len l) hi in
  firstn (b - a) (skipn a l).

(** [l[:hi]] *)
Definition slice_to {A : Type} (l : list A) (hi : Z) : list A :=
  slice l 0 hi.

(** [del l[k]] at a position already resolved. *)
Definition remove_at {A : Type} (l : list A) (k : nat) : list A :=
  firstn k l ++ skipn (S k) l.

(** [l[k] = v] at a position already resolved. *)
Definition replace_at {A : Type} (l : list A) (k : nat) (v : A) : list A :=
  firstn k l ++ v :: skipn (S k) l.

Fixpoint list_eqb {A : Type} (eqb : A -> A -> bool) (l1 l2 : list A) : bool :=
  match l1, l2 with
  | [], [] => true
  | x :: l1', y :: l2' => eqb x y && list_eqb eqb l1' l2'
  | _, _ => false
  end.

(** [x in l] *)
Definition contains {A B : Type} (eqb : A -> B -> bool) (x : A) (l : list B) : bool :=
  existsb (eqb x) l.

(** [l.count(x)] *)
Definition count {A B : Type} (eqb : A -> B -> bool) (x : A) (l : list B) : Z :=
  len (filter (eqb x) l).

(** [d[k]] on a dictionary with string keys, kept in insertion order. *)
Fixpoint dict_get {V : Type} (d : list (string * V)) (k : string) : result V :=
  match d with
  | [] => Raise KeyError
  | (k', v) :: d' => if String.eqb k k' then Ok v else dict_get d' k
  end.

(** [sys.maxsize] *)
Definition maxsize : Z := 2 ^ 63 - 1.

End Py.

(** ** The numpy operations of the dimension codec *)

Module Np.

(** [np.prod] *)
Definition prod (l : list Z) : Z := fold_right Z.mul 1 l.

(** [np.arange(n)] *)
Definition arange (n : Z) : list Z := Py.range 0 n.

(** An array in C order: its shape and its elements in storage order. *)
Record ndarray : Type := { shape : list Z; data : list Z }.

(** [a.reshape(shp)] of a flat array.  The [-1] wildcard of numpy is not
    part of the model: a negative dimension raises. *)
Definition reshape (a : list Z) (shp : list Z) : result ndarray :=
  if forallb (fun n => 0 <=? n) shp && (Py.len a =? prod shp)
  then Ok {| shape := shp; data := a |}
  else Raise ValueError.

(** The storage offset of a full index tuple: one subscript per axis, each
    resolved as a Python subscript on an axis of that size. *)
Fixpoint offset (shp idx : list Z) : result Z :=
  match shp, idx with
  | [], [] => Ok 0
  | n :: shp', i :: idx' =>
      i' <- (if (0 <=? i) && (i <? n) then Ok i
             else if (- n <=? i) && (i <? 0) then Ok (i + n)
             else Raise IndexError) ;;
      r <- offset shp' idx' ;;
      Ok (i' * prod shp' + r)
  | [], _ :: _ => Raise IndexError
  | _ :: _, [] => Raise TypeError
  end.

(** [a[tuple(idx)]], the result used as an integer: an index with fewer
    subscripts than axes yields a sub-array, which is no integer. *)
Definition getitem (a : ndarray) (idx : list Z) : result Z :=
  k <- offset (shape a) idx ;;
  match nth_error (data a) (Z.to_nat k) with
  | Some x => Ok x
  | None => Raise IndexError
  end.

(** The index tuples of an array of shape [shp] in storage order: the
    order of [np.ndindex], nested loops with the last axis innermost. *)
Fixpoint ndindex (shp : list Z) : list (list Z) :=
  match shp with
  | [] => [[]]
  | n :: shp' =>
      flat_map (fun i => map (cons i) (ndindex shp')) (Py.range 0 n)
  end.

(** [np.argwhere(a == v)]: the index tuples of the elements equal to [v],
    in storage order. *)
Definition argwhere_eq (a : ndarray) (v : Z) : list (list Z) :=
  map fst (filter (fun p => snd p =? v) (combine (ndindex (shape a)) (data a))).

(** [.flatten()] of a two-dimensional result. *)
Definition flatten (rows : list (list Z)) : list Z := concat rows.

End Np.

(** ** The dimension codec *)

(** [transform_multi_discrete_to_discrete(vector, vector_maxes)] *)
Definition transform_multi_discrete_to_discrete (vector vector_maxes : list Z)
  : result Z :=
  a <- Np.reshape (Np.arange (Np.prod vector_maxes)) vector_maxes ;;
  Np.getitem a vector.

(** [transform_discrete_to_multi_discrete(scalar, vector_maxes)] *)
Definition transform_discrete_to_multi_discrete (scalar : Z) (vector_maxes : list Z)
  : result (list Z) :=
  a <- Np.reshape (Np.arange (Np.prod vector_maxes)) vector_maxes ;;
  Ok (Np.flatten (Np.argwhere_eq a scalar)).


(** ** Random generators

    numpy's [RandomState] as an interface: a draw returns the value and the
    generator's next state. *)

Class Random : Type := {
  rstate : Type;
  (** the generator [gym.utils.seeding.np_random] builds from a seed *)
  rs_seed : Z -> rstate;
  (** [randint(high)] *)
  rs_randint : Z -> rstate -> Z * rstate;
  (** [choice(a, size=size, replace=False)] *)
  rs_choice : Z -> Z -> rstate -> list Z * rstate;
  (** [choice(len(p), p=p)] *)
  rs_choice_p : list Q -> rstate -> Z * rstate
}.

(** What the claims use of a generator: a draw without replacement of
    [size] out of [a] returns [size] distinct members of [range(a)]. *)
Class RandomLaws (RNG : Random) : Prop := {
  rs_choice_length : forall a size g,
    0 <= size <= a -> Py.len (fst (rs_choice a size g)) = size;
  rs_choice_NoDup : forall a size g,
    0 <= size <= a -> NoDup (fst (rs_choice a size g));
  rs_choice_range : forall a size g x,
    0 <= size <= a -> In x (fst (rs_choice a size g)) -> 0 <= x < a
}.

Definition sum_Q (l : list Q) : Q := fold_right Qplus (0 # 1)%Q l.

Section Engine.

Context {RNG : Random}.

(** [g.choice(a, size=size, replace=False)]: raises when more is asked than
    the population holds. *)
Definition np_choice (g : rstate) (a size : Z) : result (list Z * rstate) :=
  if (size <? 0) || (a <? size) then Raise ValueError
  else Ok (rs_choice a size g).

(** [g.choice(a, p=p)]: raises unless [p] is a distribution over [range(a)]. *)
Definition np_choice_p (g : rstate) (a : Z) (p : list Q) : result (Z * rstate) :=
  if (Py.len p =? a) && forallb (Qle_bool (0 # 1)) p && Qeq_bool (sum_Q p) (1 # 1)
  then Ok (rs_choice_p p g)
  else Raise ValueError.

(** [gym.utils.seeding.np_random(seed)]: the generator and the seed used.
    An omitted seed is taken from the system's entropy. *)
Definition seeding_np_random (entropy : Z) (seed : option Z) : rstate * Z :=
  let s := match seed with Some s => s | None => entropy end in
  (rs_seed s, s).

(** *** The space [DiscreteExtended] *)

(** Modelled from the spec: the class [DiscreteExtended] of the extended
    [gym.spaces], which is not among the sources (section 4.2): a size and
    a generator of its own, seeded at creation. *)
Record DiscreteExtended : Type := {
  space_n : Z;
  space_np_random : rstate
}.

(** Modelled from the spec: the constructor [DiscreteExtended(n, seed=seed)]
    (section 4.1: each space is seeded with its own sub-seed). *)
Definition DiscreteExtended_init (entropy n : Z) (seed : option Z)
  : DiscreteExtended :=
  {| space_n := n; space_np_random := fst (seeding_np_random entropy seed) |}.

(** Modelled from the spec: [DiscreteExtended.sample()], uniform (section
    4.2). *)
Definition sample (sp : DiscreteExtended) : Z * DiscreteExtended :=
  let '(x, g) := rs_randint (space_n sp) (space_np_random sp) in
  (x, {| space_n := space_n sp; space_np_random := g |}).

(** Modelled from the spec: [DiscreteExtended.sample(size=size,
    replace=False)], distinct draws; fails when [size > n] (section 4.2). *)
Definition sample_size (sp : DiscreteExtended) (size : Z)
  : result (list Z * DiscreteExtended) :=
  '(l, g) <- np_choice (space_np_random sp) (space_n sp) size ;;
  Ok (l, {| space_n := space_n sp; space_np_random := g |}).

(** Modelled from the spec: [DiscreteExtended.sample(prob=prob)],
    categorical; fails when [prob] has the wrong length or a negative entry
    (section 4.2). *)
Definition sample_prob (sp : DiscreteExtended) (prob : list Q)
  : result (Z * DiscreteExtended) :=
  '(x, g) <- np_choice_p (space_np_random sp) (space_n sp) prob ;;
  Ok (x, {| space_n := space_n sp; space_np_random := g |}).

(** *** Configuration *)

(** [config["seed"]]: absent, an int, or a dict of seeds. *)
Inductive seed_config : Type :=
| SeedAbsent
| SeedInt (s : Z)
| SeedDict (d : list (string * Z)).

(** The config dict of a discrete environment whose [state_space_size] and
    [action_space_size] are ints and which has no image representations.
    A key read with a default, or tested with [in], is an [option]. *)
Record Config : Type := {
  cfg_seed : seed_config;
  cfg_state_space_size : Z;
  cfg_action_space_size : Z;
  cfg_generate_random_mdp : bool;
  cfg_delay : option Z;
  cfg_sequence_length : option Z;
  cfg_reward_scale : option Q;
  cfg_reward_shift : option Q;
  cfg_term_state_reward : option Q;
  cfg_reward_density : Q;
  cfg_terminal_state_density : Q;
  cfg_make_denser : bool;
  cfg_repeats_in_sequences : bool;
  cfg_completely_connected : option bool;
  cfg_transition_noise : option Q;
  cfg_reward_noise : option (rstate -> Q * rstate)
}.

Inductive warning : Type :=
| WarnNoTerminalState      (* int(terminal_state_density * size) was 0 *)
| WarnTooManySequences     (* more than 1000 rewardable sequences *)
| WarnActionOutOfRange.    (* action out of range of the action space *)

(** *** The environment object *)

(** Attributes [__init__] sets from the config, fixed afterwards. *)
Record Settings : Type := {
  seed_dict : list (string * option Z);
  term_state_reward : Q;
  delay : Z;
  sequence_length : Z;
  reward_scale : Q;
  reward_shift : Q;
  augmented_state_length : Z;
  relevant_state_space_size : Z;      (* config["relevant_state_space_size"] *)
  relevant_action_space_size : Z;     (* config["relevant_action_space_size"] *)
  irrelevant_state_space_size : Z;
  irrelevant_action_space_size : Z
}.

(** What the [init_*] methods build. *)
Record Tables : Type := {
  num_terminal_states : Z;
  is_terminal_state_list : list Z;               (* config["is_terminal_state"] *)
  relevant_init_state_dist : list Q;             (* config["relevant_init_state_dist"] *)
  transition_function_table : list (list Z);     (* config["transition_function"] *)
  specific_sequences : list (list (list Z))
}.

(** The generators the object owns.  With no irrelevant dimensions
    [relevant_action_space] is [action_space] itself. *)
Record Generators : Type := {
  np_random : rstate;
  relevant_observation_space : DiscreteExtended;
  action_space : DiscreteExtended
}.

(** What [reset] initialises and a step updates. *)
Record Episode : Type := {
  curr_state : Z;
  curr_state_relevant : Z;
  augmented_state : list (option Z);
  possible_remaining_sequences : list (list (list Z));
  reached_terminal : bool;
  total_abs_noise_in_reward_episode : Q;
  total_abs_noise_in_transition_episode : Q;
  total_noisy_transitions_episode : Z;
  total_reward_episode : Q;
  total_transitions_episode : Z
}.

Record RLToyEnv : Type := {
  config : Config;
  settings : Settings;
  tables : Tables;
  gens : Generators;
  episode : Episode;
  total_episodes : Z;
  warnings : list warning
}.

Definition with_tables (e : RLToyEnv) (t : Tables) : RLToyEnv :=
  {| config := config e; settings := settings e; tables := t; gens := gens e;
     episode := episode e; total_episodes := total_episodes e;
     warnings := warnings e |}.

Definition with_gens (e : RLToyEnv) (g : Generators) : RLToyEnv :=
  {| config := config e; settings := settings e; tables := tables e; gens := g;
     episode := episode e; total_episodes := total_episodes e;
     warnings := warnings e |}.

Definition with_episode (e : RLToyEnv) (ep : Episode) : RLToyEnv :=
  {| config := config e; settings := settings e; tables := tables e;
     gens := gens e; episode := ep; total_episodes := total_episodes e;
     warnings := warnings e |}.

Definition warn (e : RLToyEnv) (w : warning) : RLToyEnv :=
  {| config := config e; settings := settings e; tables := tables e;
     gens := gens e; episode := episode e; total_episodes := total_episodes e;
     warnings := warnings e ++ [w] |}.

Definition with_np_random (e : RLToyEnv) (g : rstate) : RLToyEnv :=
  with_gens e {| np_random := g;
                 relevant_observation_space := relevant_observation_space (gens e);
                 action_space := action_space (gens e) |}.

Definition with_relevant_observation_space (e : RLToyEnv) (sp : DiscreteExtended)
  : RLToyEnv :=
  with_gens e {| np_random := np_random (gens e);
                 relevant_observation_space := sp;
                 action_space := action_space (gens e) |}.

(** [self.is_terminal_state(s)]: [s in self.config["is_terminal_state"]]. *)
Definition is_terminal_state (e : RLToyEnv) (s : Z) : bool :=
  Py.contains Z.eqb s (is_terminal_state_list (tables e)).

(** *** Construction: seeds *)

(** Lines 206-217: the env generator is seeded, then the sub-seeds are drawn
    from it one after the other. *)
Definition gen_seeds (entropy : Z) (seed_int : option Z)
  : list (string * option Z) * rstate :=
  let g0 := fst (seeding_np_random entropy seed_int) in
  let '(s1, g1) := rs_randint Py.maxsize g0 in
  let '(s2, g2) := rs_randint Py.maxsize g1 in
  let '(s3, g3) := rs_randint Py.maxsize g2 in
  let '(s4, g4) := rs_randint Py.maxsize g3 in
  let '(s5, g5) := rs_randint Py.maxsize g4 in
  let '(s6, g6) := rs_randint Py.maxsize g5 in
  let '(s7, g7) := rs_randint Py.maxsize g6 in
  ([("env", seed_int);
    ("relevant_state_space", Some s1);
    ("relevant_action_space", Some s2);
    ("irrelevant_state_space", Some s3);
    ("irrelevant_action_space", Some s4);
    ("state_space", Some s5);
    ("action_space", Some s6);
    ("image_representations", Some s7)]%string, g7).

(** Lines 192-221. *)
Definition init_seeds (entropy : Z) (c : Config)
  : result (list (string * option Z) * rstate) :=
  match cfg_seed c with
  | SeedAbsent => Ok (gen_seeds entropy None)
  | SeedInt s => Ok (gen_seeds entropy (Some s))
  | SeedDict d =>
      let sd := map (fun kv => (fst kv, Some (snd kv))) d in
      env_seed <- Py.dict_get sd "env" ;;
      Ok (sd, fst (seeding_np_random entropy env_seed))
  end.

(** *** [init_terminal_states] (discrete branch) *)

Definition init_terminal_states (e : RLToyEnv) : RLToyEnv :=
  let n := relevant_state_space_size (settings e) in
  let num := Py.int (cfg_terminal_state_density (config e) * inject_Z n)%Q in
  let e1 := if num =? 0 then warn e WarnNoTerminalState else e in
  let num1 := if num =? 0 then 1 else num in
  with_tables e1
    {| num_terminal_states := num1;
       is_terminal_state_list := map (fun i => n - 1 - i) (Py.range 0 num1);
       relevant_init_state_dist := relevant_init_state_dist (tables e1);
       transition_function_table := transition_function_table (tables e1);
       specific_sequences := specific_sequences (tables e1) |}.

(** *** [init_init_state_dist] (discrete branch, no irrelevant part) *)

Definition init_init_state_dist (e : RLToyEnv) : RLToyEnv :=
  let non_term := relevant_state_space_size (settings e)
                  - num_terminal_states (tables e) in
  with_tables e
    {| num_terminal_states := num_terminal_states (tables e);
       is_terminal_state_list := is_terminal_state_list (tables e);
       relevant_init_state_dist :=
         map (fun _ => (1 / inject_Z non_term)%Q) (Py.range 0 non_term)
         ++ map (fun _ => (0 # 1)%Q) (Py.range 0 (num_terminal_states (tables e)));
       transition_function_table := transition_function_table (tables e);
       specific_sequences := specific_sequences (tables e) |}.

(** *** [init_transition_function] (discrete branch, no irrelevant part) *)

(** [np.zeros(shape=(n, m), dtype=object)] followed by [t[:] = v]. *)
Definition np_full (n m v : Z) : result (list (list Z)) :=
  if (n <? 0) || (m <? 0) then Raise ValueError
  else Ok (repeat (repeat v (Z.to_nat m)) (Z.to_nat n)).

(** [t[s, a]] *)
Definition np_get2 (t : list (list Z)) (s a : Z) : result Z :=
  row <- Py.get t s ;; Py.get row a.

(** [t[s, a] = v] *)
Definition np_set2 (t : list (list Z)) (s a v : Z) : result (list (list Z)) :=
  i <- Py.index t s ;;
  row <- Py.get t s ;;
  j <- Py.index row a ;;
  Ok (Py.replace_at t i (Py.replace_at row j v)).

(** [t[s] = row] on a table with [m] columns: the row is copied, a row of
    one element is broadcast. *)
Definition np_set_row (t : list (list Z)) (m s : Z) (row : list Z)
  : result (list (list Z)) :=
  i <- Py.index t s ;;
  match row with
  | [x] => Ok (Py.replace_at t i (repeat x (Z.to_nat m)))
  | _ => if Py.len row =? m then Ok (Py.replace_at t i row)
         else Raise ValueError
  end.

Definition init_transition_function (e : RLToyEnv) : result RLToyEnv :=
  let n := relevant_state_space_size (settings e) in
  let m := relevant_action_space_size (settings e) in
  t0 <- np_full n m (-1) ;;
  cc <- match cfg_completely_connected (config e) with
        | Some b => Ok b
        | None => Raise KeyError
        end ;;
  '(t1, sp) <-
    (if cc : bool then
       for_each (Py.range 0 n)
         (fun '(t, sp) s =>
            '(row, sp') <- sample_size sp m ;;
            t' <- np_set_row t m s row ;;
            Ok (t', sp'))
         (t0, relevant_observation_space (gens e))
     else
       for_each (Py.range 0 n)
         (fun st s =>
            for_each (Py.range 0 m)
              (fun '(t, sp) a =>
                 let '(x, sp') := sample sp in
                 t' <- np_set2 t s a x ;;
                 Ok (t', sp'))
              st)
         (t0, relevant_observation_space (gens e))) ;;
  (* the next state of a terminal state is the state itself, for any action *)
  t2 <- for_each (Py.range (n - num_terminal_states (tables e)) n)
          (fun t s =>
             for_each (Py.range 0 m)
               (fun t a =>
                  _ <- assert (is_terminal_state e s) ;;
                  np_set2 t s a s)
               t)
          t1 ;;
  (* line 501 prints the type of [t[0, 0]] *)
  _ <- np_get2 t2 0 0 ;;
  Ok (with_relevant_observation_space
        (with_tables e
           {| num_terminal_states := num_terminal_states (tables e);
              is_terminal_state_list := is_terminal_state_list (tables e);
              relevant_init_state_dist := relevant_init_state_dist (tables e);
              transition_function_table := t2;
              specific_sequences := specific_sequences (tables e) |})
        sp).

(** *** [init_reward_function] (discrete branch) *)

(** [%] and [//] on a numpy integer: a zero divisor yields 0. *)
Definition np_mod (a b : Z) : Z := if b =? 0 then 0 else a mod b.
Definition np_floordiv (a b : Z) : Z := if b =? 0 then 0 else a / b.

(** Lines 541-543: the [while] loop appends one digit per round until the
    sequence has [sequence_length] entries; [rounds] is that number. *)
Fixpoint decode_with_repeats (rounds : nat) (curr_sequence_num base : Z)
  : list Z :=
  match rounds with
  | O => []
  | S r => np_mod curr_sequence_num base
           :: decode_with_repeats r (np_floordiv curr_sequence_num base) base
  end.

(** Lines 568-573: one digit per factor of nPk, the largest factor first,
    each digit taken out of the remaining ones. *)
Fixpoint decode_permutation (factors : list Z) (curr_permutation : Z)
  (curr_rem_digits seq_ : list Z) : result (list Z) :=
  match factors with
  | [] => Ok seq_
  | j :: factors' =>
      let rem_ := np_mod curr_permutation j in
      d <- Py.get curr_rem_digits rem_ ;;
      k <- Py.index curr_rem_digits rem_ ;;
      decode_permutation factors' (np_floordiv curr_permutation j)
        (Py.remove_at curr_rem_digits k) (seq_ ++ [d])
  end.

(** [l[i].append(x)] *)
Definition append_at {A : Type} (l : list (list A)) (i : Z) (x : A)
  : result (list (list A)) :=
  k <- Py.index l i ;;
  li <- Py.get l i ;;
  Ok (Py.replace_at l k (li ++ [x])).

Definition seq_eqb : list Z -> list Z -> bool := Py.list_eqb Z.eqb.

Definition with_specific_sequences (e : RLToyEnv) (ss : list (list (list Z)))
  : RLToyEnv :=
  with_tables e
    {| num_terminal_states := num_terminal_states (tables e);
       is_terminal_state_list := is_terminal_state_list (tables e);
       relevant_init_state_dist := relevant_init_state_dist (tables e);
       transition_function_table := transition_function_table (tables e);
       specific_sequences := ss |}.

(** The number of possible sequences, lines 534 and 551-553. *)
Definition num_possible_sequences (e : RLToyEnv) : Z :=
  if cfg_repeats_in_sequences (config e) then
    (space_n (relevant_observation_space (gens e))
     - num_terminal_states (tables e)) ^ sequence_length (settings e)
  else
    let non_term := relevant_state_space_size (settings e)
                    - num_terminal_states (tables e) in
    Np.prod (Py.range (non_term + 1 - sequence_length (settings e))
                      (non_term + 1)).

(** The sequences the [repeats_in_sequences] branch builds, lines 534-547. *)
Definition specific_sequences_with_repeats (e : RLToyEnv)
  : result (list (list (list Z)) * rstate) :=
  let non_term := relevant_state_space_size (settings e)
                  - num_terminal_states (tables e) in
  let len_ := sequence_length (settings e) in
  let num_possible := num_possible_sequences e in
  let num_specific :=
    Py.int (cfg_reward_density (config e) * inject_Z num_possible)%Q in
  let ss0 := map (fun _ => []) (Py.range 0 len_) in
  '(sel_sequence_nums, g) <- np_choice (np_random (gens e)) num_possible num_specific ;;
  ss <- for_each (Py.range 0 num_specific)
          (fun ss i =>
             curr_sequence_num <- Py.get sel_sequence_nums i ;;
             append_at ss (len_ - 1)
               (decode_with_repeats (Z.to_nat len_) curr_sequence_num non_term))
          ss0 ;;
  Ok (ss, g).

Definition init_reward_function (e : RLToyEnv) : result RLToyEnv :=
  let non_term := relevant_state_space_size (settings e)
                  - num_terminal_states (tables e) in
  let len_ := sequence_length (settings e) in
  if cfg_repeats_in_sequences (config e) then
    '(ss, g) <- specific_sequences_with_repeats e ;;
    (* line 548 evaluates [str("Out of", num_possible_sequences)] for its log
       line: [str] with a second argument that is no encoding name raises,
       whatever the log level *)
    Raise TypeError
  else
    let permutations := Py.range (non_term + 1 - len_) (non_term + 1) in
    let num_possible_permutations := num_possible_sequences e in
    let num_specific :=
      Py.int (cfg_reward_density (config e) * inject_Z num_possible_permutations)%Q in
    let e1 := if 1000 <? num_specific then warn e WarnTooManySequences else e in
    let ss0 := map (fun _ => []) (Py.range 0 len_) in
    '(sel_sequence_nums, g) <-
      np_choice (np_random (gens e)) num_possible_permutations num_specific ;;
    '(ss, total_clashes) <-
      for_each (Py.range 0 num_specific)
        (fun '(ss, total_clashes) i =>
           curr_permutation <- Py.get sel_sequence_nums i ;;
           seq_ <- decode_permutation (rev permutations) curr_permutation
                     (Py.range 0 non_term) [] ;;
           last <- Py.get ss (len_ - 1) ;;
           let total_clashes' :=
             if Py.contains seq_eqb seq_ last then total_clashes + 1
             else total_clashes in
           ss' <- append_at ss (len_ - 1) seq_ ;;
           Ok (ss', total_clashes'))
        (ss0, 0) ;;
    _ <- assert (total_clashes =? 0) ;;
    Ok (with_np_random (with_specific_sequences e1 ss) g).

(** [self.specific_sequences[self.sequence_length - 1]]: the rewardable
    sequences. *)
Definition rewardable_sequences (e : RLToyEnv) : list (list Z) :=
  match Py.get (specific_sequences (tables e)) (sequence_length (settings e) - 1) with
  | Ok l => l
  | Raise _ => []
  end.

(** *** [reset] (discrete branch) *)

(** Lines 989-995: every rewardable sequence contributes its first state to
    [possible_remaining_sequences[0]]. *)
Definition initial_possible_remaining_sequences (e : RLToyEnv)
  : result (list (list (list Z))) :=
  let sequence_length := sequence_length (settings e) in
  for_each (Py.range 0 1)
    (fun prs j =>
       for_each (Py.range 0 sequence_length)
         (fun prs k =>
            ss_k <- Py.get (specific_sequences (tables e)) k ;;
            for_each (Py.range 0 (Py.len ss_k))
              (fun prs l =>
                 ss_kl <- Py.get ss_k l ;;
                 append_at prs j (Py.slice_to ss_kl (j + 1)))
              prs)
         prs)
    (map (fun _ => []) (Py.range 0 sequence_length)).

Definition reset (e : RLToyEnv) : result (Z * RLToyEnv) :=
  '(s, g) <- np_choice_p (np_random (gens e))
               (relevant_state_space_size (settings e))
               (relevant_init_state_dist (tables e)) ;;
  prs <- (if cfg_make_denser (config e)
          then initial_possible_remaining_sequences e
          else Ok (possible_remaining_sequences (episode e))) ;;
  let ep :=
    {| curr_state := s;
       curr_state_relevant := s;
       augmented_state :=
         map (fun _ => None)
             (Py.range 0 (augmented_state_length (settings e) - 1))
         ++ [Some s];
       possible_remaining_sequences := prs;
       reached_terminal := false;
       total_abs_noise_in_reward_episode := 0 # 1;
       total_abs_noise_in_transition_episode := 0 # 1;
       total_noisy_transitions_episode := 0;
       total_reward_episode := 0 # 1;
       total_transitions_episode := 0 |} in
  Ok (s,
      {| config := config e; settings := settings e; tables := tables e;
         gens := {| np_random := g;
                    relevant_observation_space :=
                      relevant_observation_space (gens e);
                    action_space := action_space (gens e) |};
         episode := ep;
         total_episodes := total_episodes e + 1;
         warnings := warnings e |}).

(** *** [transition_function] (discrete branch, no irrelevant part) *)

Definition transition_function (e : RLToyEnv) (state action : Z)
  (only_query : bool) : result (Z * RLToyEnv) :=
  next_state <- np_get2 (transition_function_table (tables e)) state action ;;
  '(next_state, e1) <-
    match cfg_transition_noise (config e) with
    | None => Ok (next_state, e)
    | Some noise =>
        let n := relevant_state_space_size (settings e) in
        let probs := map (fun _ => (noise / inject_Z (n - 1))%Q) (Py.range 0 n) in
        k <- Py.index probs next_state ;;
        let probs := Py.replace_at probs k (1 - noise)%Q in
        '(new_next_state, sp) <-
          sample_prob (relevant_observation_space (gens e)) probs ;;
        let ep := episode e in
        let noisy :=
          if negb (next_state =? new_next_state)
          then total_noisy_transitions_episode ep + 1
          else total_noisy_transitions_episode ep in
        Ok (new_next_state,
            with_episode (with_relevant_observation_space e sp)
              {| curr_state := curr_state ep;
                 curr_state_relevant := curr_state_relevant ep;
                 augmented_state := augmented_state ep;
                 possible_remaining_sequences := possible_remaining_sequences ep;
                 reached_terminal := reached_terminal ep;
                 total_abs_noise_in_reward_episode :=
                   total_abs_noise_in_reward_episode ep;
                 total_abs_noise_in_transition_episode :=
                   total_abs_noise_in_transition_episode ep;
                 total_noisy_transitions_episode := noisy;
                 total_reward_episode := total_reward_episode ep;
                 total_transitions_episode := total_transitions_episode ep |})
    end ;;
  if only_query then Ok (next_state, e1)
  else
    let ep := episode e1 in
    (* del self.augmented_state[0]; self.augmented_state.append(next_state) *)
    _ <- Py.index (augmented_state ep) 0 ;;
    Ok (next_state,
        with_episode e1
          {| curr_state := curr_state ep;
             curr_state_relevant := curr_state_relevant ep;
             augmented_state :=
               Py.remove_at (augmented_state ep) 0 ++ [Some next_state];
             possible_remaining_sequences := possible_remaining_sequences ep;
             reached_terminal := reached_terminal ep;
             total_abs_noise_in_reward_episode :=
               total_abs_noise_in_reward_episode ep;
             total_abs_noise_in_transition_episode :=
               total_abs_noise_in_transition_episode ep;
             total_noisy_transitions_episode :=
               total_noisy_transitions_episode ep;
             total_reward_episode := total_reward_episode ep;
             total_transitions_episode := total_transitions_episode ep + 1 |}).

(** *** [reward_function] (discrete branch) *)

(** The [state] argument of [R]: [step] passes the current state, an
    imagined rollout passes a list of states. *)
Inductive state_arg : Type :=
| StateInt (s : Z)
| StateList (l : list (option Z)).

Definition cell_eqb (x y : option Z) : bool :=
  match x, y with
  | Some a, Some b => a =? b
  | None, None => true
  | _, _ => false
  end.

(** [window == prefix], a list of augmented-state entries against a list of
    states. *)
Definition window_eqb (window : list (option Z)) (prefix : list Z) : bool :=
  Py.list_eqb cell_eqb window (map Some prefix).

(** Lines 766-770: the sparse reward. *)
Definition sparse_reward (e : RLToyEnv) (state_considered : list (option Z))
  : result Q :=
  let delay := delay (settings e) in
  ss <- Py.get (specific_sequences (tables e)) (sequence_length (settings e) - 1) ;;
  if Py.contains window_eqb
       (Py.slice state_considered 1 (augmented_state_length (settings e) - delay))
       ss
  then Ok (0 + reward_scale (settings e))%Q
  else Ok (0 # 1)%Q.

(** Lines 775-782: the dense reward, one term per prefix length. *)
Definition dense_reward (e : RLToyEnv) (state_considered : list (option Z))
  : result Q :=
  let delay := delay (settings e) in
  let sequence_length := sequence_length (settings e) in
  let L := augmented_state_length (settings e) in
  for_each (Py.range 1 (sequence_length + 1))
    (fun reward j =>
       let curr_seq_being_checked := Py.slice state_considered (L - j - delay) (L - delay) in
       prs_j <- Py.get (possible_remaining_sequences (episode e)) (j - 1) ;;
       if Py.contains window_eqb curr_seq_being_checked prs_j then
         let count_ := Py.count window_eqb curr_seq_being_checked prs_j in
         Ok (reward + inject_Z count_ * reward_scale (settings e) * inject_Z j
                      / inject_Z sequence_length)%Q
       else Ok reward)
    (0 # 1)%Q.

(** Lines 784-790: the prefixes that can still be completed. *)
Definition remaining_sequences (e : RLToyEnv) (state_considered : list (option Z))
  : result (list (list (list Z))) :=
  let delay := delay (settings e) in
  let sequence_length := sequence_length (settings e) in
  let L := augmented_state_length (settings e) in
  for_each (Py.range 0 sequence_length)
    (fun prs j =>
       for_each (Py.range 0 sequence_length)
         (fun prs k =>
            ss_k <- Py.get (specific_sequences (tables e)) k ;;
            for_each (Py.range 0 (Py.len ss_k))
              (fun prs l =>
                 ss_kl <- Py.get ss_k l ;;
                 if window_eqb (Py.slice state_considered (L - j - delay) (L - delay))
                               (Py.slice_to ss_kl j)
                 then append_at prs j (Py.slice_to ss_kl (j + 1))
                 else Ok prs)
              prs)
         prs)
    (map (fun _ => []) (Py.range 0 sequence_length)).

Definition reward_function (e : RLToyEnv) (state : state_arg) (action : Z)
  (only_query : bool) : result (Q * RLToyEnv) :=
  state_considered <-
    (if only_query then
       match state with
       | StateList l =>
           _ <- assert (Py.len l =? augmented_state_length (settings e)) ;;
           Ok l
       | StateInt _ => Raise AssertionError
       end
     else Ok (augmented_state (episode e))) ;;
  '(reward, prs) <-
    (if negb (cfg_make_denser (config e)) then
       r <- sparse_reward e state_considered ;;
       Ok (r, possible_remaining_sequences (episode e))
     else
       r <- dense_reward e state_considered ;;
       prs <- remaining_sequences e state_considered ;;
       Ok (r, prs)) ;;
  let '(noise_in_reward, g) :=
    match cfg_reward_noise (config e) with
    | Some f => f (np_random (gens e))
    | None => ((0 # 1)%Q, np_random (gens e))
    end in
  let ep := episode e in
  Ok ((reward + noise_in_reward + reward_shift (settings e))%Q,
      with_np_random
        (with_episode e
           {| curr_state := curr_state ep;
              curr_state_relevant := curr_state_relevant ep;
              augmented_state := augmented_state ep;
              possible_remaining_sequences := prs;
              reached_terminal := reached_terminal ep;
              total_abs_noise_in_reward_episode :=
                (total_abs_noise_in_reward_episode ep + Qabs noise_in_reward)%Q;
              total_abs_noise_in_transition_episode :=
                total_abs_noise_in_transition_episode ep;
              total_noisy_transitions_episode :=
                total_noisy_transitions_episode ep;
              total_reward_episode := (total_reward_episode ep + reward)%Q;
              total_transitions_episode := total_transitions_episode ep |})
        g).

(** *** [step] *)

Definition with_curr_state (e : RLToyEnv) (s : Z) : RLToyEnv :=
  let ep := episode e in
  with_episode e
    {| curr_state := s;
       curr_state_relevant := curr_state_relevant ep;
       augmented_state := augmented_state ep;
       possible_remaining_sequences := possible_remaining_sequences ep;
       reached_terminal := reached_terminal ep;
       total_abs_noise_in_reward_episode := total_abs_noise_in_reward_episode ep;
       total_abs_noise_in_transition_episode :=
         total_abs_noise_in_transition_episode ep;
       total_noisy_transitions_episode := total_noisy_transitions_episode ep;
       total_reward_episode := total_reward_episode ep;
       total_transitions_episode := total_transitions_episode ep |}.

(** What [step] returns next to the info dict: the next state, the reward
    and the done flag. *)
Definition step (e : RLToyEnv) (action : Z) (only_query : bool)
  : result ((Z * Q * bool) * RLToyEnv) :=
  '(s, e1) <- transition_function e (curr_state (episode e)) action only_query ;;
  let e2 := with_curr_state e1 s in
  '(reward, e3) <- reward_function e2 (StateInt s) action only_query ;;
  last <- Py.get (augmented_state (episode e3)) (-1) ;;
  let done :=
    match last with
    | Some s' => is_terminal_state e3 s'
    | None => false
    end || reached_terminal (episode e3) in
  let reward :=
    if done
    then (reward + term_state_reward (settings e3) * reward_scale (settings e3))%Q
    else reward in
  Ok ((s, reward, done), e3).

(** *** [__init__] *)

Definition default {A : Type} (o : option A) (d : A) : A :=
  match o with Some x => x | None => d end.

(** The object before the [init_*] methods run: the attributes read from
    the config and the spaces (lines 227-404). *)
Definition initial_env (entropy : Z) (c : Config) (sd : list (string * option Z))
  (g : rstate) (obs_seed act_seed : option Z) : RLToyEnv :=
  let sequence_length := default (cfg_sequence_length c) 1 in
  let delay := default (cfg_delay c) 0 in
  {| config := c;
     settings :=
       {| seed_dict := sd;
          term_state_reward := default (cfg_term_state_reward c) (0 # 1)%Q;
          delay := delay;
          sequence_length := sequence_length;
          reward_scale := default (cfg_reward_scale c) (1 # 1)%Q;
          reward_shift := default (cfg_reward_shift c) (0 # 1)%Q;
          augmented_state_length := sequence_length + delay + 1;
          relevant_state_space_size := cfg_state_space_size c;
          relevant_action_space_size := cfg_action_space_size c;
          irrelevant_state_space_size := 0;
          irrelevant_action_space_size := 0 |};
     tables :=
       {| num_terminal_states := 0;
          is_terminal_state_list := [];
          relevant_init_state_dist := [];
          transition_function_table := [];
          specific_sequences := [] |};
     gens :=
       {| np_random := g;
          relevant_observation_space :=
            DiscreteExtended_init entropy (cfg_state_space_size c) obs_seed;
          action_space :=
            DiscreteExtended_init entropy (cfg_action_space_size c) act_seed |};
     episode :=
       {| curr_state := 0;
          curr_state_relevant := 0;
          augmented_state := [];
          possible_remaining_sequences := [];
          reached_terminal := false;
          total_abs_noise_in_reward_episode := 0 # 1;
          total_abs_noise_in_transition_episode := 0 # 1;
          total_noisy_transitions_episode := 0;
          total_reward_episode := 0 # 1;
          total_transitions_episode := 0 |};
     total_episodes := 0;
     warnings := [] |}.

Definition RLToyEnv_init (entropy : Z) (c : Config) : result RLToyEnv :=
  '(sd, g) <- init_seeds entropy c ;;
  _ <- assert (0 <? default (cfg_sequence_length c) 1) ;;
  _ <- (match cfg_completely_connected c with
        | Some true =>
            _ <- assert (cfg_state_space_size c =? cfg_action_space_size c) ;;
            assert (0 =? 0)
        | _ => Ok tt
        end) ;;
  obs_seed <- Py.dict_get sd "relevant_state_space" ;;
  act_seed <- Py.dict_get sd "relevant_action_space" ;;
  _ <- (if cfg_generate_random_mdp c then Ok tt else Raise SystemExit) ;;
  let e0 := initial_env entropy c sd g obs_seed act_seed in
  (* the order of the following calls matters (line 416) *)
  let e1 := init_terminal_states e0 in
  let e2 := init_init_state_dist e1 in
  e3 <- init_transition_function e2 ;;
  e4 <- init_reward_function e3 ;;
  '(_, e5) <- reset e4 ;;
  Ok e5.

(** *** Episodes *)

(** A sequence of calls [step(a)], with what each returned. *)
Fixpoint run (e : RLToyEnv) (actions : list Z)
  : result (list (Z * Q * bool) * RLToyEnv) :=
  match actions with
  | [] => Ok ([], e)
  | a :: actions' =>
      '(out, e1) <- step e a false ;;
      '(outs, e2) <- run e1 actions' ;;
      Ok (out :: outs, e2)
  end.

(** The trajectory of a freshly built environment: the initial observation,
    then what each step returned. *)
Definition trajectory (entropy : Z) (c : Config) (actions : list Z)
  : result (Z * list (Z * Q * bool)) :=
  e <- RLToyEnv_init entropy c ;;
  '(outs, _) <- run e actions ;;
  Ok (curr_state (episode e), outs).

(** *** The dense reward as the specification words it *)

(** Section 4.5: the term of the prefix length [j], [count_of(c_j in
    possible_remaining_sequences[j-1]) * reward_scale * j / L], where [c_j]
    is the suffix of length [j] of the augmented state that ends [delay]
    steps before the present and [L] is the sequence length. *)
Definition dense_term (e : RLToyEnv) (state_considered : list (option Z)) (j : Z) : Q :=
  let L := augmented_state_length (settings e) in
  let c_j := Py.slice state_considered (L - j - delay (settings e))
               (L - delay (settings e)) in
  (inject_Z (Py.count window_eqb c_j
               (nth (Z.to_nat (j - 1)) (possible_remaining_sequences (episode e)) []))
   * reward_scale (settings e) * inject_Z j
   / inject_Z (sequence_length (settings e)))%Q.

Definition dense_reward_spec (e : RLToyEnv) (state_considered : list (option Z)) : Q :=
  sum_Q (map (dense_term e state_considered)
           (Py.range 1 (sequence_length (settings e) + 1))).

(** The noise [reward_function] draws. *)
Definition noise_in_reward (e : RLToyEnv) : Q :=
  match cfg_reward_noise (config e) with
  | Some f => fst (f (np_random (gens e)))
  | None => (0 # 1)%Q
  end.

(** The states a run went through. *)
Definition states_of (outs : list (Z * Q * bool)) : list Z :=
  map (fun out => fst (fst out)) outs.

(** What a step adds to the reward of the matcher: the noise, the shift and,
    on a terminal transition, the terminal bonus. *)
Definition reward_extras (e : RLToyEnv) (done : bool) : Q :=
  (noise_in_reward e + reward_shift (settings e)
   + (if done then term_state_reward (settings e) * reward_scale (settings e)
      else 0 # 1))%Q.

End Engine.

(** ** The continuous transition function *)

Module Continuous.

Section Model.

Context {RNG : Random}.

(** Modelled from the spec: the space [BoxExtended] of the extended
    [gym.spaces], which is not among the sources (section 4.2): the box
    [[-box_max, box_max]^box_dim]; no [box_max] stands for the unbounded
    box. *)
Record BoxExtended : Type := {
  box_max : option Q;
  box_dim : Z
}.

(** Modelled from the spec: [BoxExtended.contains(x)], membership (section
    4.2). *)
Definition contains (b : BoxExtended) (x : list Q) : bool :=
  (Py.len x =? box_dim b)
  && match box_max b with
     | None => true
     | Some mx => forallb (fun xi => Qle_bool (- mx) xi && Qle_bool xi mx) x
     end.

(** The attributes of a continuous environment the transition function
    reads or writes. *)
Record Env : Type := {
  action_space_dim : Z;                        (* config['action_space_dim'] *)
  state_space_dim : Z;                         (* config['state_space_dim'] *)
  transition_noise : option (rstate -> Q * rstate);
  dynamics_order : Z;
  inertia : Q;
  time_unit : Q;
  state_space_max : option Q;
  observation_space : BoxExtended;
  action_space : BoxExtended;
  np_random : rstate;
  state_derivatives : list (list Q);
  augmented_state : list (list (option Q));
  total_abs_noise_in_transition_episode : Q;
  total_transitions_episode : Z;
  warnings : list warning
}.

(** The array passed as [state].  [step] passes [self.curr_state], which is
    the very array held at [state_derivatives[0]]: an update in place of one
    is an update of the other.  Any other array is the caller's own. *)
Inductive state_ref : Type :=
| CurrState
| Other (v : list Q).

Definition state_value (e : Env) (state : state_ref) : list Q :=
  match state with
  | CurrState => hd [] (state_derivatives e)
  | Other v => v
  end.

Definition vadd (x y : list Q) : list Q :=
  map (fun p => (fst p + snd p)%Q) (combine x y).

Definition vscale (x : list Q) (c : Q) : list Q := map (fun xi => (xi * c)%Q) x.

(** [scipy.special.factorial(np.arange(1, n + 1))] *)
Definition factorial_array (n : Z) : list Q :=
  map (fun k => inject_Z (Z.of_nat (fact (Z.to_nat k)))) (Py.range 1 (n + 1)).

(** Lines 669-676: the action sets the highest derivative, the lower ones
    are updated in place, the lowest first. *)
Definition integrate (e : Env) (action : list Q) : result (list (list Q)) :=
  let n := dynamics_order e in
  k <- Py.index (state_derivatives e) (-1) ;;
  let sd0 := Py.replace_at (state_derivatives e) k
               (map (fun a => (a / inertia e)%Q) action) in
  for_each (Py.range 0 n)
    (fun sd i =>
       for_each (Py.range 0 (n - i))
         (fun sd j =>
            d_i <- Py.get sd i ;;
            d_hi <- Py.get sd (i + j + 1) ;;
            f_j <- Py.get (factorial_array n) j ;;
            k_i <- Py.index sd i ;;
            Ok (Py.replace_at sd k_i
                  (vadd d_i (vscale d_hi (Qpower (time_unit e) (j + 1) / f_j)%Q))))
         sd)
    sd0.

(** [np.clip(x, -mx, mx)] *)
Definition clip (x : list Q) (mx : option Q) : list Q :=
  match mx with
  | None => x
  | Some m =>
      map (fun xi => if Qle_bool xi (- m) then (- m)%Q
                     else if Qle_bool m xi then m else xi) x
  end.

Definition with_state (e : Env) (sd : list (list Q)) (g : rstate) (abs_noise : Q)
  (aug : list (list (option Q))) (transitions : Z) (ws : list warning) : Env :=
  {| action_space_dim := action_space_dim e;
     state_space_dim := state_space_dim e;
     transition_noise := transition_noise e;
     dynamics_order := dynamics_order e;
     inertia := inertia e;
     time_unit := time_unit e;
     state_space_max := state_space_max e;
     observation_space := observation_space e;
     action_space := action_space e;
     np_random := g;
     state_derivatives := sd;
     augmented_state := aug;
     total_abs_noise_in_transition_episode := abs_noise;
     total_transitions_episode := transitions;
     warnings := ws |}.

(** [transition_function], the continuous branch (lines 658-700). *)
Definition transition_function (e : Env) (state : state_ref) (action : list Q)
  (only_query : bool) : result (list Q * Env) :=
  _ <- assert (Py.len action =? action_space_dim e) ;;
  (* the derivatives, the array [next_state] names and whether that array is
     the one at [state_derivatives[0]] *)
  '(sd, next_state, aliased, ws) <-
    (if contains (action_space e) action then
       sd <- integrate e action ;;
       d0 <- Py.get sd 0 ;;
       Ok (sd, d0, true, warnings e)
     else
       Ok (state_derivatives e, state_value e state,
           match state with CurrState => true | Other _ => false end,
           warnings e ++ [WarnActionOutOfRange])) ;;
  let '(noise_in_transition, g) :=
    match transition_noise e with
    | Some f => f (np_random e)
    | None => ((0 # 1)%Q, np_random e)
    end in
  (* next_state += noise_in_transition, in place *)
  let next_state := map (fun x => (x + noise_in_transition)%Q) next_state in
  let sd := if aliased : bool
            then match sd with
                 | _ :: sd' => next_state :: sd'
                 | [] => []
                 end
            else sd in
  '(sd, next_state) <-
    (if negb (contains (observation_space e) next_state) then
       let next_state := clip next_state (state_space_max e) in
       let zero_state := map (fun _ => (0 # 1)%Q) (Py.range 0 (state_space_dim e)) in
       let sd := map (fun _ => zero_state) (Py.range 0 (dynamics_order e + 1)) in
       k <- Py.index sd 0 ;;
       Ok (Py.replace_at sd k next_state, next_state)
     else Ok (sd, next_state)) ;;
  let abs_noise :=
    (total_abs_noise_in_transition_episode e + Qabs noise_in_transition)%Q in
  if only_query then
    Ok (next_state,
        with_state e sd g abs_noise (augmented_state e)
          (total_transitions_episode e) ws)
  else
    _ <- Py.index (augmented_state e) 0 ;;
    Ok (next_state,
        with_state e sd g abs_noise
          (Py.remove_at (augmented_state e) 0 ++ [map Some next_state])
          (total_transitions_episode e + 1) ws).

End Model.

End Continuous.

(** ** The codec as the specification words it *)

(** Section 4.8: decode [k] as [(k / prod_{i>0} n_i,
    (k mod prod_{i>0} n_i) / prod_{i>1} n_i, ...)]. *)
Fixpoint decode_spec (maxes : list Z) (k : Z) : list Z :=
  match maxes with
  | [] => []
  | _ :: maxes' =>
      k / Np.prod maxes' :: decode_spec maxes' (k mod Np.prod maxes')
  end.

(** A tuple within the bounds of each dimension. *)
Definition within (x maxes : list Z) : Prop :=
  Forall2 (fun xi ni => 0 <= xi < ni) x maxes.

(** ** The number of possible sequences as the specification words it *)



(** ** Histories *)

(** The [k] states ending [d] steps before the last state of a history
    [h = [s_0; ...; s_t]]: the states of the steps [t - d - k + 1 .. t - d],
    when the episode is that old. *)
Definition states_ending_at (h : list Z) (k d : Z) : option (list Z) :=
  if d + k <=? Py.len h
  then Some (Py.slice h (Py.len h - d - k) (Py.len h - d))
  else None.

(** The augmented state after a history: its last [L] entries, padded at
    the head with [L - 1] undefined entries. *)
Definition aug_of_history (L : Z) (h : list Z) : list (option Z) :=
  let padded := map (fun _ => None) (Py.range 0 (L - 1)) ++ map Some h in
  skipn (length padded - Z.to_nat L) padded.

(** ** The sub-seeds as the specification words them *)



(** ** What the properties are stated with *)

(** The entry of a table at a row and a column, both counted from 0. *)
Definition entry (t : list (list Z)) (s a : nat) : option Z :=
  match nth_error t s with
  | Some row => nth_error row a
  | None => None
  end.

(** The number [init_terminal_states] settles on. *)
Definition forced_num_terminal_states (density : Q) (n : Z) : Z :=
  let k := Py.int (density * inject_Z n)%Q in
  if k =? 0 then 1 else k.

(** A row drawn without replacement. *)
Definition drawn_row (n m : Z) (row : list Z) : Prop :=
  Py.len row = m /\ NoDup row /\ (forall x, In x row -> 0 <= x < n).

(** [prs'] is [prs] with [ext] appended to its list number [j]. *)
Definition extended_at {A : Type} (prs prs' : list (list A)) (j : nat) (ext : list A)
  : Prop :=
  length prs' = length prs
  /\ (forall i, i <> j -> nth_error prs' i = nth_error prs i)
  /\ nth_error prs' j = option_map (fun lj => lj ++ ext) (nth_error prs j).

(** The prefixes of length [j + 1] kept after a step: those of the
    sequences whose first [j] states are the last [j] states of the window. *)
Definition kept_prefixes {RNG : Random} (e : RLToyEnv) (state_considered : list (option Z)) (j : Z)
  : list (list Z) :=
  let L := augmented_state_length (settings e) in
  let d := delay (settings e) in
  map (fun seq_ => Py.slice_to seq_ (j + 1))
    (filter (fun seq_ => window_eqb (Py.slice state_considered (L - j - d) (L - d))
                           (Py.slice_to seq_ j))
       (concat (specific_sequences (tables e)))).

(** What the further properties use of a generator: [randint(high)] is
    below [high], and a draw from a distribution returns a member of its
    support. *)
Class DrawLaws (RNG : Random) : Prop := {
  rs_randint_range : forall high g,
    0 < high -> 0 <= fst (rs_randint high g) < high;
  rs_choice_p_support : forall p g,
    forallb (Qle_bool (0 # 1)) p = true ->
    Qeq_bool (sum_Q p) (1 # 1) = true ->
    0 <= fst (rs_choice_p p g)
    /\ exists q, nth_error p (Z.to_nat (fst (rs_choice_p p g))) = Some q
                 /\ (0 < q)%Q
}.

(** A transition table of [n] states and [m] actions: one row per state,
    one column per action, every entry a state. *)
Definition well_formed_table (n m : Z) (t : list (list Z)) : Prop :=
  Py.len t = n
  /\ (forall row, In row t -> Py.len row = m)
  /\ (forall s a, 0 <= s < n -> 0 <= a < m ->
        exists s', np_get2 t s a = Ok s' /\ 0 <= s' < n).




(** *** Sessions *)

(** What a user calls on an environment once it is built. *)
Inductive call : Type :=
| CallStep (action : Z)
| CallReset.

(** What a call returned: [step] the next state, the reward and the done
    flag, [reset] the start state. *)
Inductive returned : Type :=
| Stepped (next_state : Z) (reward : Q) (done : bool)
| Started (start_state : Z).

(** A sequence of calls of [step(a)] and [reset()], in order. *)
Fixpoint session {RNG : Random} (e : RLToyEnv) (calls : list call)
  : result (list returned * RLToyEnv) :=
  match calls with
  | [] => Ok ([], e)
  | CallStep a :: calls' =>
      '(out, e1) <- step e a false ;;
      '(outs, e2) <- session e1 calls' ;;
      Ok (Stepped (fst (fst out)) (snd (fst out)) (snd out) :: outs, e2)
  | CallReset :: calls' =>
      '(s, e1) <- reset e ;;
      '(outs, e2) <- session e1 calls' ;;
      Ok (Started s :: outs, e2)
  end.


(** The state a call returned. *)
Definition state_of (o : returned) : Z :=
  match o with
  | Stepped s _ _ => s
  | Started s => s
  end.

(** What holds of an environment [e] that was built as [e0] and has seen
    calls since: the configuration and the tables are those of [e0]; the
    augmented state has its full length (one entry at least) and ends with
    the current state, which is a state of the state space. *)
Definition in_episode {RNG : Random} (e0 e : RLToyEnv) : Prop :=
  config e = config e0 /\ settings e = settings e0 /\ tables e = tables e0
  /\ space_n (relevant_observation_space (gens e))
     = space_n (relevant_observation_space (gens e0))
  /\ Py.len (augmented_state (episode e))
     = Z.max 1 (augmented_state_length (settings e0))
  /\ last (augmented_state (episode e)) None = Some (curr_state (episode e))
  /\ 0 <= curr_state (episode e) < relevant_state_space_size (settings e0)
  /\ reached_terminal (episode e) = false
  /\ (cfg_make_denser (config e0) = true ->
      Py.len (possible_remaining_sequences (episode e))
      = Z.max 0 (sequence_length (settings e0))).

(** The number of calls of [step] since the last call of [reset], on top
    of [k] steps before the calls. *)
Fixpoint steps_since_reset (calls : list call) (k : Z) : Z :=
  match calls with
  | [] => k
  | CallStep _ :: calls' => steps_since_reset calls' (k + 1)
  | CallReset :: calls' => steps_since_reset calls' 0
  end.

(** The number of calls of [reset]. *)
Fixpoint resets (calls : list call) : Z :=
  match calls with
  | [] => 0
  | CallStep _ :: calls' => resets calls'
  | CallReset :: calls' => 1 + resets calls'
  end.

(** *** Continuous dynamics *)

(** The Taylor polynomial of a motion whose highest derivative is constant:
    [ds] lists a coordinate and its derivatives, the lowest order first, and
    the term of order [k] is [ds[k] * t^k / k!].  [taylor_from k] has the
    terms from the order [k] on. *)
Fixpoint taylor_from (k : nat) (t : Q) (ds : list Q) : Q :=
  match ds with
  | [] => (0 # 1)%Q
  | d :: ds' =>
      (d * Qpower t (Z.of_nat k) / inject_Z (Z.of_nat (fact k))
       + taylor_from (S k) t ds')%Q
  end.

Definition taylor (t : Q) (ds : list Q) : Q := taylor_from 0 t ds.

(** The coordinate [c] of every derivative. *)
Definition coordinate (c : nat) (sd : list (list Q)) : list Q :=
  map (fun row => nth c row (0 # 1)%Q) sd.

(** The derivatives a transition integrates: those the environment holds,
    the highest replaced by [action / inertia] (line 669). *)
Definition driven {RNG : Random} (e : Continuous.Env) (action : list Q)
  : list (list Q) :=
  removelast (Continuous.state_derivatives e)
  ++ [map (fun a => (a / Continuous.inertia e)%Q) action].

(** The transition noise drawn at the state of the generator (line 682). *)
Definition noise_drawn {RNG : Random} (e : Continuous.Env) : Q :=
  match Continuous.transition_noise e with
  | Some f => fst (f (Continuous.np_random e))
  | None => (0 # 1)%Q
  end.

(** The row of order [i] once the inner loop of the integration has run
    over [js]: the terms of the rows above it, taken from [sd], added to
    [acc] one after the other (line 674). *)
Definition integrated_row (t : Q) (sd : list (list Q)) (i : Z) (js : list Z)
  (acc : list Q) : list Q :=
  fold_left
    (fun acc j =>
       Continuous.vadd acc
         (Continuous.vscale (nth (Z.to_nat (i + j + 1)) sd [])
            (Qpower t (j + 1) / inject_Z (Z.of_nat (fact (Z.to_nat (1 + j)))))%Q))
    js acc.

(** Inversion of a successful [bind]. *)
Ltac bind_ok H :=
  match type of H with
  | bind ?c _ = Ok _ =>
      let E := fresh "E" in
      destruct c eqn:E; cbn [bind] in H; [|discriminate H]
  end.

Tactic Notation "bind_inv" hyp(H) "as" simple_intropattern(p) "eqn" ident(E) :=
  match type of H with
  | bind ?c _ = Ok _ =>
      destruct c as [p|] eqn:E; cbn [bind] in H; [|discriminate H]
  end.

(** ** A concrete generator

    A linear congruential generator, to run the model on concrete
    configurations. *)

Module Lcg.

Definition next (g : Z) : Z := (g * 1103515245 + 12345) mod 2 ^ 31.

Definition randint (high g : Z) : Z * Z :=
  (if 0 <? high then next g mod high else 0, next g).

Definition rotate {A : Type} (k : nat) (l : list A) : list A :=
  skipn k l ++ firstn k l.

Definition choice (a size g : Z) : list Z * Z :=
  (firstn (Z.to_nat size) (rotate (Z.to_nat (next g mod a)) (Py.range 0 a)),
   next g).

Definition choice_p (p : list Q) (g : Z) : Z * Z :=
  let support :=
    filter (fun i => negb (Qle_bool (nth (Z.to_nat i) p (0 # 1)%Q) (0 # 1)))
           (Py.range 0 (Py.len p)) in
  (nth (Z.to_nat (next g mod Py.len support)) support 0, next g).

End Lcg.

#[export] Instance lcg_random : Random := {|
  rstate := Z;
  rs_seed := fun s => s;
  rs_randint := Lcg.randint;
  rs_choice := Lcg.choice;
  rs_choice_p := Lcg.choice_p
|}.

(** The default configuration of the class (lines 116-152), with an integer
    seed. *)
Definition example_config (seed_ : Z) : Config (RNG := lcg_random) :=
  {| cfg_seed := SeedInt seed_;
     cfg_state_space_size := 6;
     cfg_action_space_size := 6;
     cfg_generate_random_mdp := true;
     cfg_delay := Some 0;
     cfg_sequence_length := Some 3;
     cfg_reward_scale := Some (1 # 1)%Q;
     cfg_reward_shift := None;
     cfg_term_state_reward := None;
     cfg_reward_density := (1 # 4)%Q;
     cfg_terminal_state_density := (1 # 10)%Q;
     cfg_make_denser := false;
     cfg_repeats_in_sequences := false;
     cfg_completely_connected := Some true;
     cfg_transition_noise := None;
     cfg_reward_noise := None |}.


(** The environment built from [example_config 0]. *)
Definition example_env : RLToyEnv (RNG := lcg_random) :=
  Eval vm_compute in
    match RLToyEnv_init 0 (example_config 0) with
    | Ok e => e
    | Raise _ => initial_env 0 (example_config 0) [] 0 None None
    end.

(** A completely connected environment with two states and two actions. *)
Definition connected_config : Config (RNG := lcg_random) :=
  {| cfg_seed := SeedInt 0;
     cfg_state_space_size := 2;
     cfg_action_space_size := 2;
     cfg_generate_random_mdp := true;
     cfg_delay := None;
     cfg_sequence_length := None;
     cfg_reward_scale := None;
     cfg_reward_shift := None;
     cfg_term_state_reward := None;
     cfg_reward_density := (1 # 4)%Q;
     cfg_terminal_state_density := (1 # 2)%Q;
     cfg_make_denser := false;
     cfg_repeats_in_sequences := false;
     cfg_completely_connected := Some true;
     cfg_transition_noise := None;
     cfg_reward_noise := None |}.

Definition connected_env : RLToyEnv (RNG := lcg_random) :=
  Eval vm_compute in
    match RLToyEnv_init 0 connected_config with
    | Ok e => e
    | Raise _ => initial_env 0 connected_config [] 0 None None
    end.



(** An episode of [example_env]: a reset, the action 3 and the action 3
    again, which leads through the states 0, 1 and 2. *)
Definition example_reset : Z * RLToyEnv (RNG := lcg_random) :=
  Eval vm_compute in
    match reset example_env with
    | Ok x => x
    | Raise _ => (0, example_env)
    end.

Definition example_run : list (Z * Q * bool) * RLToyEnv (RNG := lcg_random) :=
  Eval vm_compute in
    match run (snd example_reset) [3] with
    | Ok x => x
    | Raise _ => ([], example_env)
    end.

Definition example_step : (Z * Q * bool) * RLToyEnv (RNG := lcg_random) :=
  Eval vm_compute in
    match step (snd example_run) 3 false with
    | Ok x => x
    | Raise _ => ((0, (0 # 1)%Q, false), example_env)
    end.

(** The default configuration with the dense reward, and a reward density
    that selects [density * 60] of the 60 possible triples. *)
Definition dense_config (density : Q) : Config (RNG := lcg_random) :=
  {| cfg_seed := SeedInt 0;
     cfg_state_space_size := 6;
     cfg_action_space_size := 6;
     cfg_generate_random_mdp := true;
     cfg_delay := Some 0;
     cfg_sequence_length := Some 3;
     cfg_reward_scale := Some (1 # 1)%Q;
     cfg_reward_shift := None;
     cfg_term_state_reward := None;
     cfg_reward_density := density;
     cfg_terminal_state_density := (1 # 10)%Q;
     cfg_make_denser := true;
     cfg_repeats_in_sequences := false;
     cfg_completely_connected := Some true;
     cfg_transition_noise := None;
     cfg_reward_noise := None |}.

(** One rewardable triple, [[2; 3; 4]]. *)
Definition single_triple_env : RLToyEnv (RNG := lcg_random) :=
  Eval vm_compute in
    match RLToyEnv_init 0 (dense_config (1 # 60)) with
    | Ok e => e
    | Raise _ => initial_env 0 (dense_config (1 # 60)) [] 0 None None
    end.

(** Fifteen rewardable triples, [[0; 1; 2]] among them. *)
Definition many_triples_env : RLToyEnv (RNG := lcg_random) :=
  Eval vm_compute in
    match RLToyEnv_init 0 (dense_config (1 # 4)) with
    | Ok e => e
    | Raise _ => initial_env 0 (dense_config (1 # 4)) [] 0 None None
    end.

(** An episode of [single_triple_env]: a reset, to state 0, then the
    actions 4, 5 and 5, which lead through the states 2, 3 and 4. *)
Definition single_triple_reset : Z * RLToyEnv (RNG := lcg_random) :=
  Eval vm_compute in
    match reset single_triple_env with
    | Ok x => x
    | Raise _ => (0, single_triple_env)
    end.

Definition single_triple_step1 : (Z * Q * bool) * RLToyEnv (RNG := lcg_random) :=
  Eval vm_compute in
    match step (snd single_triple_reset) 4 false with
    | Ok x => x
    | Raise _ => ((0, (0 # 1)%Q, false), single_triple_env)
    end.

Definition single_triple_step2 : (Z * Q * bool) * RLToyEnv (RNG := lcg_random) :=
  Eval vm_compute in
    match step (snd single_triple_step1) 5 false with
    | Ok x => x
    | Raise _ => ((0, (0 # 1)%Q, false), single_triple_env)
    end.

Definition single_triple_step3 : (Z * Q * bool) * RLToyEnv (RNG := lcg_random) :=
  Eval vm_compute in
    match step (snd single_triple_step2) 5 false with
    | Ok x => x
    | Raise _ => ((0, (0 # 1)%Q, false), single_triple_env)
    end.

(** The run of [many_triples_env] under the actions 1, 3 and 3, which lead
    from the initial state 3 through the states 0, 1 and 2. *)
Definition many_triples_run : list (Z * Q * bool) * RLToyEnv (RNG := lcg_random) :=
  Eval vm_compute in
    match run many_triples_env [1; 3; 3] with
    | Ok x => x
    | Raise _ => ([], many_triples_env)
    end.

(** Two steps of [example_env] under the action 0: the first one leads from
    the initial state 3 to the terminal state 5. *)
Definition terminal_step1 : (Z * Q * bool) * RLToyEnv (RNG := lcg_random) :=
  Eval vm_compute in
    match step example_env 0 false with
    | Ok x => x
    | Raise _ => ((0, (0 # 1)%Q, false), example_env)
    end.

Definition terminal_step2 : (Z * Q * bool) * RLToyEnv (RNG := lcg_random) :=
  Eval vm_compute in
    match step (snd terminal_step1) 0 false with
    | Ok x => x
    | Raise _ => ((0, (0 # 1)%Q, false), example_env)
    end.

(** A continuous environment of dimension one and order one, at the state 1,
    without transition noise, and the same with a transition noise that
    always draws 1. The action box is [[-1, 1]], the observation box
    [[-10, 10]]. *)
Definition quiet_env : Continuous.Env (RNG := lcg_random) :=
  {| Continuous.action_space_dim := 1;
     Continuous.state_space_dim := 1;
     Continuous.transition_noise := None;
     Continuous.dynamics_order := 1;
     Continuous.inertia := 1 # 1;
     Continuous.time_unit := 1 # 1;
     Continuous.state_space_max := Some (10 # 1)%Q;
     Continuous.observation_space :=
       {| Continuous.box_max := Some (10 # 1)%Q; Continuous.box_dim := 1 |};
     Continuous.action_space :=
       {| Continuous.box_max := Some (1 # 1)%Q; Continuous.box_dim := 1 |};
     Continuous.np_random := 0;
     Continuous.state_derivatives := [[(1 # 1)%Q]; [(0 # 1)%Q]];
     Continuous.augmented_state := [[None]; [Some (1 # 1)%Q]];
     Continuous.total_abs_noise_in_transition_episode := 0 # 1;
     Continuous.total_transitions_episode := 0;
     Continuous.warnings := [] |}.

Definition noisy_env : Continuous.Env (RNG := lcg_random) :=
  {| Continuous.action_space_dim := 1;
     Continuous.state_space_dim := 1;
     Continuous.transition_noise := Some (fun g : Z => ((1 # 1)%Q, g));
     Continuous.dynamics_order := 1;
     Continuous.inertia := 1 # 1;
     Continuous.time_unit := 1 # 1;
     Continuous.state_space_max := Some (10 # 1)%Q;
     Continuous.observation_space :=
       {| Continuous.box_max := Some (10 # 1)%Q; Continuous.box_dim := 1 |};
     Continuous.action_space :=
       {| Continuous.box_max := Some (1 # 1)%Q; Continuous.box_dim := 1 |};
     Continuous.np_random := 0;
     Continuous.state_derivatives := [[(1 # 1)%Q]; [(0 # 1)%Q]];
     Continuous.augmented_state := [[None]; [Some (1 # 1)%Q]];
     Continuous.total_abs_noise_in_transition_episode := 0 # 1;
     Continuous.total_transitions_episode := 0;
     Continuous.warnings := [] |}.

(** What [noisy_env] returns for the action 5, which is outside its action
    box. *)
Definition noisy_step : list Q * Continuous.Env (RNG := lcg_random) :=
  Eval vm_compute in
    match Continuous.transition_function noisy_env Continuous.CurrState
            [(5 # 1)%Q] false with
    | Ok x => x
    | Raise _ => ([], noisy_env)
    end.

(** The trajectory of the example environment under the actions 3, 3, 0. *)
Definition example_trajectory : Z * list (Z * Q * bool) :=
  Eval vm_compute in
    match trajectory 0 (example_config 0) [3; 3; 0] with
    | Ok x => x
    | Raise _ => (0, [])
    end.

(** The example configuration with a sequence length of 0, and with a
    dictionary of seeds that has no entry for the environment. *)
Definition rejected_config : Config (RNG := lcg_random) :=
  {| cfg_seed := SeedInt 0;
     cfg_state_space_size := 6;
     cfg_action_space_size := 6;
     cfg_generate_random_mdp := true;
     cfg_delay := Some 0;
     cfg_sequence_length := Some 0;
     cfg_reward_scale := Some (1 # 1)%Q;
     cfg_reward_shift := None;
     cfg_term_state_reward := None;
     cfg_reward_density := (1 # 4)%Q;
     cfg_terminal_state_density := (1 # 10)%Q;
     cfg_make_denser := false;
     cfg_repeats_in_sequences := false;
     cfg_completely_connected := Some true;
     cfg_transition_noise := None;
     cfg_reward_noise := None |}.

Definition seed_dict_config : Config (RNG := lcg_random) :=
  {| cfg_seed := SeedDict [("relevant_state_space"%string, 6)];
     cfg_state_space_size := 6;
     cfg_action_space_size := 6;
     cfg_generate_random_mdp := true;
     cfg_delay := Some 0;
     cfg_sequence_length := Some 3;
     cfg_reward_scale := Some (1 # 1)%Q;
     cfg_reward_shift := None;
     cfg_term_state_reward := None;
     cfg_reward_density := (1 # 4)%Q;
     cfg_terminal_state_density := (1 # 10)%Q;
     cfg_make_denser := false;
     cfg_repeats_in_sequences := false;
     cfg_completely_connected := Some true;
     cfg_transition_noise := None;
     cfg_reward_noise := None |}.

(** A session on the example environment. *)
Definition example_calls : list call :=
  [CallStep 3; CallStep 0; CallReset; CallStep 1].

Definition example_session : list returned * RLToyEnv (RNG := lcg_random) :=
  Eval vm_compute in
    match session example_env example_calls with
    | Ok x => x
    | Raise _ => ([], example_env)
    end.

(** What a further step with the action 2 and a further reset return after
    that session. *)
Definition example_session_step : (Z * Q * bool) * RLToyEnv (RNG := lcg_random) :=
  Eval vm_compute in
    match step (snd example_session) 2 false with
    | Ok x => x
    | Raise _ => ((0, (0 # 1)%Q, false), example_env)
    end.

Definition example_session_reset : Z * RLToyEnv (RNG := lcg_random) :=
  Eval vm_compute in
    match reset (snd example_session) with
    | Ok x => x
    | Raise _ => (0, example_env)
    end.

(** The example configuration with a transition noise of 0, and the
    environment built from it. *)
Definition zero_noise_config : Config (RNG := lcg_random) :=
  {| cfg_seed := SeedInt 0;
     cfg_state_space_size := 6;
     cfg_action_space_size := 6;
     cfg_generate_random_mdp := true;
     cfg_delay := Some 0;
     cfg_sequence_length := Some 3;
     cfg_reward_scale := Some (1 # 1)%Q;
     cfg_reward_shift := None;
     cfg_term_state_reward := None;
     cfg_reward_density := (1 # 4)%Q;
     cfg_terminal_state_density := (1 # 10)%Q;
     cfg_make_denser := false;
     cfg_repeats_in_sequences := false;
     cfg_completely_connected := Some true;
     cfg_transition_noise := Some (0 # 1)%Q;
     cfg_reward_noise := None |}.

Definition zero_noise_env : RLToyEnv (RNG := lcg_random) :=
  Eval vm_compute in
    match RLToyEnv_init 0 zero_noise_config with
    | Ok e => e
    | Raise _ => example_env
    end.

(** Three steps of [zero_noise_env], and a transition of it. *)
Definition zero_noise_session : list returned * RLToyEnv (RNG := lcg_random) :=
  Eval vm_compute in
    match session zero_noise_env [CallStep 1; CallStep 2; CallStep 4] with
    | Ok x => x
    | Raise _ => ([], example_env)
    end.

Definition zero_noise_step : Z * RLToyEnv (RNG := lcg_random) :=
  Eval vm_compute in
    match transition_function zero_noise_env
            (curr_state (episode zero_noise_env)) 3 false with
    | Ok x => x
    | Raise _ => (0, example_env)
    end.

(** A continuous environment of order 2 in the plane, close to the bound of
    its first coordinate, and a transition of it. *)
Definition second_order_env : Continuous.Env (RNG := lcg_random) :=
  {| Continuous.action_space_dim := 2;
     Continuous.state_space_dim := 2;
     Continuous.transition_noise := None;
     Continuous.dynamics_order := 2;
     Continuous.inertia := 2 # 1;
     Continuous.time_unit := 1 # 2;
     Continuous.state_space_max := Some (10 # 1)%Q;
     Continuous.observation_space :=
       {| Continuous.box_max := Some (10 # 1)%Q; Continuous.box_dim := 2 |};
     Continuous.action_space :=
       {| Continuous.box_max := Some (1 # 1)%Q; Continuous.box_dim := 2 |};
     Continuous.np_random := 0;
     Continuous.state_derivatives :=
       [[(9 # 1)%Q; (-1 # 1)%Q]; [(4 # 1)%Q; (0 # 1)%Q]; [(0 # 1)%Q; (0 # 1)%Q]];
     Continuous.augmented_state :=
       [[None; None]; [Some (9 # 1)%Q; Some (-1 # 1)%Q]];
     Continuous.total_abs_noise_in_transition_episode := 0 # 1;
     Continuous.total_transitions_episode := 0;
     Continuous.warnings := [] |}.

Definition second_order_step : list Q * Continuous.Env (RNG := lcg_random) :=
  Eval vm_compute in
    match Continuous.transition_function second_order_env Continuous.CurrState
            [(1 # 1)%Q; (-1 # 2)%Q] false with
    | Ok x => x
    | Raise _ => ([], second_order_env)
    end.

(** * Properties *)

(** ** Python lists *)

Lemma range_length (a b : Z) : length (Py.range a b) = Z.to_nat (b - a).
Proof. unfold Py.range. now rewrite length_map, length_seq. Qed.

Lemma range_nil (a b : Z) : b <= a -> Py.range a b = [].
Proof.
  intros H. unfold Py.range.
  replace (Z.to_nat (b - a)) with 0%nat by lia. reflexivity.
Qed.

Lemma range_cons (a b : Z) : a < b -> Py.range a b = a :: Py.range (a + 1) b.
Proof.
  intros H. unfold Py.range.
  replace (Z.to_nat (b - a)) with (S (Z.to_nat (b - (a + 1)))) by lia.
  cbn [seq map]. f_equal; [lia|].
  rewrite <- seq_shift, map_map. apply map_ext. intros i. lia.
Qed.

Lemma range_snoc (a b : Z) : a <= b -> Py.range a (b + 1) = Py.range a b ++ [b].
Proof.
  intros H. unfold Py.range.
  replace (Z.to_nat (b + 1 - a)) with (Z.to_nat (b - a) + 1)%nat by lia.
  rewrite seq_app, map_app. cbn. do 2 f_equal. lia.
Qed.

Lemma In_range (a b x : Z) : In x (Py.range a b) <-> a <= x < b.
Proof.
  unfold Py.range. rewrite in_map_iff. split.
  - intros (i & <- & Hi). apply in_seq in Hi. lia.
  - intros H. exists (Z.to_nat (x - a)). split; [lia|]. apply in_seq. lia.
Qed.

Lemma nth_error_range (a b : Z) (i : nat) :
  (i < Z.to_nat (b - a))%nat -> nth_error (Py.range a b) i = Some (a + Z.of_nat i).
Proof.
  intros H. unfold Py.range.
  rewrite nth_error_map, nth_error_seq.
  destruct (Nat.ltb_spec i (Z.to_nat (b - a))); [reflexivity | lia].
Qed.

Lemma NoDup_range (a b : Z) : NoDup (Py.range a b).
Proof.
  unfold Py.range. apply Finite.Injective_map_NoDup.
  - intros i j. lia.
  - apply seq_NoDup.
Qed.

Lemma index_nonneg {A : Type} (l : list A) (i : Z) :
  0 <= i < Py.len l -> Py.index l i = Ok (Z.to_nat i).
Proof.
  intros H. unfold Py.index.
  destruct (Z.leb_spec 0 i); [|lia].
  destruct (Z.ltb_spec i (Py.len l)); [reflexivity | lia].
Qed.

Lemma index_Ok {A : Type} (l : list A) (i : Z) (k : nat) :
  Py.index l i = Ok k ->
  (k < length l)%nat /\
  ((0 <= i /\ k = Z.to_nat i) \/ (i < 0 /\ k = Z.to_nat (i + Py.len l))).
Proof.
  unfold Py.index, Py.len. intros H.
  destruct (Z.leb_spec 0 i); destruct (Z.ltb_spec i (Z.of_nat (length l)));
    cbn in H.
  - injection H as <-. lia.
  - destruct (Z.leb_spec (- Z.of_nat (length l)) i);
      destruct (Z.ltb_spec i 0); cbn in H; try discriminate; lia.
  - destruct (Z.leb_spec (- Z.of_nat (length l)) i);
      destruct (Z.ltb_spec i 0); cbn in H; try discriminate.
    injection H as <-. lia.
  - destruct (Z.leb_spec (- Z.of_nat (length l)) i);
      destruct (Z.ltb_spec i 0); cbn in H; try discriminate; lia.
Qed.

Lemma get_nonneg {A : Type} (l : list A) (i : Z) (x : A) :
  0 <= i -> nth_error l (Z.to_nat i) = Some x -> Py.get l i = Ok x.
Proof.
  intros Hi Hx. unfold Py.get.
  rewrite index_nonneg.
  - cbn. now rewrite Hx.
  - split; [assumption|]. unfold Py.len.
    assert (Z.to_nat i < length l)%nat by (apply nth_error_Some; congruence).
    lia.
Qed.

Lemma get_Ok {A : Type} (l : list A) (i : Z) (x : A) :
  Py.get l i = Ok x ->
  exists k, Py.index l i = Ok k /\ nth_error l k = Some x.
Proof.
  unfold Py.get. destruct (Py.index l i) as [k|]; cbn; [|discriminate].
  destruct (nth_error l k) eqn:E; [|discriminate].
  intros [= <-]. eauto.
Qed.

(** ** The dimension codec *)

Lemma prod_nonneg (shp : list Z) : Forall (fun n => 0 <= n) shp -> 0 <= Np.prod shp.
Proof. induction 1; unfold Np.prod in *; cbn; [lia | nia]. Qed.

Lemma forallb_nonneg (shp : list Z) :
  forallb (fun n => 0 <=? n) shp = true <-> Forall (fun n => 0 <= n) shp.
Proof.
  rewrite forallb_forall, Forall_forall.
  split; intros H x Hx; specialize (H x Hx); lia.
Qed.

Lemma within_nonneg (x maxes : list Z) :
  within x maxes -> Forall (fun n => 0 <= n) maxes.
Proof. induction 1; constructor; [lia | assumption]. Qed.

Lemma reshape_arange (maxes : list Z) :
  Forall (fun n => 0 <= n) maxes ->
  Np.reshape (Np.arange (Np.prod maxes)) maxes
  = Ok {| Np.shape := maxes; Np.data := Py.range 0 (Np.prod maxes) |}.
Proof.
  intros H. unfold Np.reshape, Np.arange.
  assert (Hf : forallb (fun n => 0 <=? n) maxes = true)
    by now apply forallb_nonneg.
  rewrite Hf. cbn [andb]. unfold Py.len. rewrite range_length.
  pose proof (prod_nonneg H).
  destruct (Z.eqb_spec (Z.of_nat (Z.to_nat (Np.prod maxes - 0))) (Np.prod maxes));
    [reflexivity | lia].
Qed.

(** Positions in a concatenation of blocks of one size. *)
Lemma nth_error_flat_map_uniform {A B : Type} (f : A -> list B) (P : nat)
  (l : list A) (k : nat) :
  (forall x, length (f x) = P) -> (0 < P)%nat ->
  nth_error (flat_map f l) k
  = match nth_error l (k / P) with
    | Some x => nth_error (f x) (k mod P)
    | None => None
    end.
Proof.
  intros Hlen HP. revert k. induction l as [|x l IH]; intros k.
  - cbn [flat_map]. now rewrite !nth_error_nil.
  - cbn [flat_map]. destruct (Nat.ltb_spec k P) as [Hk|Hk].
    + rewrite nth_error_app1 by (rewrite Hlen; exact Hk).
      rewrite Nat.div_small, Nat.mod_small by exact Hk. reflexivity.
    + rewrite nth_error_app2 by (rewrite Hlen; exact Hk).
      rewrite Hlen, IH.
      assert (E : k = ((k - P) + 1 * P)%nat) by lia.
      assert (Hd : (k / P = S ((k - P) / P))%nat).
      { rewrite E at 1. rewrite Nat.div_add by lia. lia. }
      assert (Hm : (k mod P = (k - P) mod P)%nat).
      { rewrite E at 1. now rewrite Nat.Div0.mod_add. }
      rewrite Hd, Hm. reflexivity.
Qed.

Lemma ndindex_length (shp : list Z) :
  Forall (fun n => 0 <= n) shp -> length (Np.ndindex shp) = Z.to_nat (Np.prod shp).
Proof.
  induction 1 as [|n shp Hn Hshp IH]; [reflexivity|].
  cbn [Np.ndindex Np.prod fold_right].
  change (fold_right Z.mul 1 shp) with (Np.prod shp).
  pose proof (prod_nonneg Hshp) as HP.
  rewrite Z2Nat.inj_mul by assumption.
  unfold Py.range. rewrite Z.sub_0_r. generalize (Z.to_nat n) as c.
  intros c. generalize 0%nat as st.
  induction c as [|c IHc]; intros st; [reflexivity|].
  cbn [seq map flat_map]. rewrite length_app, length_map, IH, IHc. lia.
Qed.

(** The tuples are enumerated in the order of the formula of section 4.8. *)
Lemma nth_error_ndindex (shp : list Z) (k : Z) :
  Forall (fun n => 0 <= n) shp -> 0 <= k < Np.prod shp ->
  nth_error (Np.ndindex shp) (Z.to_nat k) = Some (decode_spec shp k).
Proof.
  intros H. revert k. induction H as [|n shp Hn Hshp IH]; intros k Hk.
  - cbn in Hk. replace k with 0 by lia. reflexivity.
  - cbn [Np.prod fold_right] in Hk.
    change (fold_right Z.mul 1 shp) with (Np.prod shp) in Hk.
    pose proof (prod_nonneg Hshp) as HP.
    assert (HP' : 0 < Np.prod shp) by nia.
    cbn [Np.ndindex decode_spec].
    rewrite nth_error_flat_map_uniform with (P := Z.to_nat (Np.prod shp)).
    + assert (Hq : 0 <= k / Np.prod shp < n).
      { split; [apply Z.div_pos; lia|]. apply Z.div_lt_upper_bound; lia. }
      assert (Hr : 0 <= k mod Np.prod shp < Np.prod shp)
        by (apply Z.mod_pos_bound; lia).
      rewrite <- Z2Nat.inj_div, <- Z2Nat.inj_mod by lia.
      rewrite nth_error_range by lia.
      rewrite nth_error_map, IH by exact Hr.
      cbn. do 2 f_equal. lia.
    + intros x. rewrite length_map. now apply ndindex_length.
    + lia.
Qed.

Lemma offset_decode_spec (shp : list Z) (k : Z) :
  Forall (fun n => 0 <= n) shp -> 0 <= k < Np.prod shp ->
  Np.offset shp (decode_spec shp k) = Ok k /\ within (decode_spec shp k) shp.
Proof.
  intros H. revert k. induction H as [|n shp Hn Hshp IH]; intros k Hk.
  - cbn in *. split; [f_equal; lia | constructor].
  - cbn [Np.prod fold_right] in Hk.
    change (fold_right Z.mul 1 shp) with (Np.prod shp) in Hk.
    pose proof (prod_nonneg Hshp) as HP.
    assert (HP' : 0 < Np.prod shp) by nia.
    assert (Hq : 0 <= k / Np.prod shp < n).
    { split; [apply Z.div_pos; lia|]. apply Z.div_lt_upper_bound; lia. }
    assert (Hr : 0 <= k mod Np.prod shp < Np.prod shp)
      by (apply Z.mod_pos_bound; lia).
    destruct (IH _ Hr) as [IHo IHw].
    cbn [Np.offset decode_spec]. split.
    + destruct (Z.leb_spec 0 (k / Np.prod shp)); [|lia].
      destruct (Z.ltb_spec (k / Np.prod shp) n); [|lia].
      cbn. rewrite IHo. cbn. f_equal.
      rewrite (Z.div_mod k (Np.prod shp)) at 3 by lia. lia.
    + constructor; assumption.
Qed.

Lemma offset_within (shp x : list Z) :
  within x shp ->
  exists k, Np.offset shp x = Ok k /\ 0 <= k < Np.prod shp
            /\ decode_spec shp k = x.
Proof.
  induction 1 as [|i n x shp Hi Hw (k & IHo & IHk & IHd)].
  - exists 0. cbn. repeat split; lia.
  - exists (i * Np.prod shp + k).
    cbn [Np.offset Np.prod fold_right decode_spec].
    change (fold_right Z.mul 1 shp) with (Np.prod shp).
    destruct (Z.leb_spec 0 i); [|lia]. destruct (Z.ltb_spec i n); [|lia].
    cbn. rewrite IHo. cbn. split; [reflexivity|]. split; [nia|].
    rewrite Z.add_comm, Z.div_add, Z.mod_add by lia.
    rewrite Z.div_small, Z.mod_small by lia. cbn. now rewrite IHd.
Qed.

(** The elements equal to [k] of an array numbered in storage order. *)
Lemma filter_combine_range {A : Type} (l : list A) (a b k : Z) :
  length l = Z.to_nat (b - a) ->
  filter (fun p => snd p =? k) (combine l (Py.range a b))
  = if (a <=? k) && (k <? b)
    then match nth_error l (Z.to_nat (k - a)) with
         | Some x => [(x, k)]
         | None => []
         end
    else [].
Proof.
  revert a. induction l as [|x l IH]; intros a Hl.
  - cbn. destruct ((a <=? k) && (k <? b)); [|reflexivity].
    now destruct (Z.to_nat (k - a)).
  - cbn [length] in Hl. rewrite range_cons by lia.
    cbn [combine filter snd]. rewrite IH by lia.
    destruct (Z.eqb_spec a k) as [->|Hne].
    + destruct (Z.leb_spec (k + 1) k); [lia|].
      destruct (Z.leb_spec k k); [|lia].
      destruct (Z.ltb_spec k b); [|lia].
      cbn. now rewrite Z.sub_diag.
    + destruct (Z.leb_spec (a + 1) k); destruct (Z.leb_spec a k); try lia;
        cbn [andb]; [|reflexivity].
      destruct (Z.ltb_spec k b); [|reflexivity].
      replace (Z.to_nat (k - a)) with (S (Z.to_nat (k - (a + 1)))) by lia.
      reflexivity.
Qed.

Lemma decode_is_decode_spec (maxes : list Z) (k : Z) :
  Forall (fun n => 0 <= n) maxes -> 0 <= k < Np.prod maxes ->
  transform_discrete_to_multi_discrete k maxes = Ok (decode_spec maxes k).
Proof.
  intros H Hk. unfold transform_discrete_to_multi_discrete.
  rewrite reshape_arange by assumption. cbn [bind].
  unfold Np.argwhere_eq. cbn [Np.shape Np.data].
  rewrite filter_combine_range
    by (rewrite ndindex_length by assumption; f_equal; lia).
  destruct (Z.leb_spec 0 k); [|lia].
  destruct (Z.ltb_spec k (Np.prod maxes)); [|lia].
  cbn [andb]. rewrite Z.sub_0_r, nth_error_ndindex by assumption.
  cbn. unfold Np.flatten. cbn. now rewrite app_nil_r.
Qed.

Lemma encode_is_offset (x maxes : list Z) (k : Z) :
  Forall (fun n => 0 <= n) maxes -> Np.offset maxes x = Ok k ->
  0 <= k < Np.prod maxes ->
  transform_multi_discrete_to_discrete x maxes = Ok k.
Proof.
  intros H Ho Hk. unfold transform_multi_discrete_to_discrete.
  rewrite reshape_arange by assumption. cbn [bind].
  unfold Np.getitem. cbn [Np.shape Np.data]. rewrite Ho. cbn [bind].
  rewrite nth_error_range by lia. f_equal. lia.
Qed.

Lemma prod_snoc (shp : list Z) (n : Z) : Np.prod (shp ++ [n]) = Np.prod shp * n.
Proof.
  unfold Np.prod. induction shp as [|m shp IH]; cbn [app fold_right]; [lia|].
  rewrite IH. lia.
Qed.

Lemma within_snoc (x maxes : list Z) (i n : Z) :
  within (x ++ [i]) (maxes ++ [n]) -> within x maxes /\ 0 <= i < n.
Proof.
  unfold within. intros H. apply Forall2_app_inv_r in H.
  destruct H as (x1 & x2 & H1 & H2 & E).
  inversion H2 as [|? ? ? ? Hi Hnil]; subst. inversion Hnil; subst.
  apply app_inj_tail in E. destruct E as [-> ->]. now split.
Qed.

(** The last subscript has stride one. *)
Lemma offset_snoc (x maxes : list Z) (i n : Z) :
  within x maxes -> 0 <= i < n ->
  exists k0, Np.offset maxes x = Ok k0
             /\ Np.offset (maxes ++ [n]) (x ++ [i]) = Ok (k0 * n + i).
Proof.
  intros Hw Hi. induction Hw as [|j m x maxes Hj Hw (k0 & IH0 & IH1)].
  - exists 0. cbn. destruct (Z.leb_spec 0 i); [|lia].
    destruct (Z.ltb_spec i n); [|lia]. cbn. split; [reflexivity|]. f_equal. lia.
  - exists (j * Np.prod maxes + k0). cbn [Np.offset app].
    destruct (Z.leb_spec 0 j); [|lia]. destruct (Z.ltb_spec j m); [|lia].
    cbn. rewrite IH0, IH1. cbn. split; [reflexivity|]. f_equal.
    rewrite prod_snoc. lia.
Qed.

(** C9. The dimension codec is a bijection in which the rightmost element
    varies fastest.  For sizes [maxes] (none negative): every tuple [x]
    within the bounds is encoded to a flat index [k] of [[0, prod maxes)] that
    decodes back to [x]; every flat index [k] of [[0, prod maxes)] decodes to
    a tuple within the bounds that encodes back to [k]; and raising the last
    element of a tuple by one raises its flat index by one. *)
Theorem codec_round_trip (maxes : list Z)
  (Hmaxes : Forall (fun n => 0 <= n) maxes) :
  (forall x, within x maxes ->
     exists k, transform_multi_discrete_to_discrete x maxes = Ok k
               /\ 0 <= k < Np.prod maxes
               /\ transform_discrete_to_multi_discrete k maxes = Ok x)
  /\ (forall k, 0 <= k < Np.prod maxes ->
        exists x, transform_discrete_to_multi_discrete k maxes = Ok x
                  /\ within x maxes
                  /\ transform_multi_discrete_to_discrete x maxes = Ok k)
  /\ (forall x i n k,
        0 <= n -> within (x ++ [i + 1]) (maxes ++ [n]) -> 0 <= i ->
        transform_multi_discrete_to_discrete (x ++ [i]) (maxes ++ [n]) = Ok k ->
        transform_multi_discrete_to_discrete (x ++ [i + 1]) (maxes ++ [n])
        = Ok (k + 1)).
Proof.
  split; [|split].
  - intros x Hx. destruct (offset_within Hx) as (k & Ho & Hk & Hd).
    exists k. split; [now apply encode_is_offset|]. split; [exact Hk|].
    rewrite decode_is_decode_spec by assumption. now rewrite Hd.
  - intros k Hk. exists (decode_spec maxes k).
    destruct (offset_decode_spec Hmaxes Hk) as [Ho Hw].
    split; [now apply decode_is_decode_spec|]. split; [exact Hw|].
    now apply encode_is_offset.
  - intros x i n k Hn Hw Hi Henc.
    apply within_snoc in Hw. destruct Hw as [Hw Hi1].
    assert (Hmaxes' : Forall (fun n => 0 <= n) (maxes ++ [n])).
    { apply Forall_app. split; [assumption | now constructor]. }
    destruct (offset_snoc (i := i) (n := n) Hw) as (k0 & Ho & Hoi); [lia|].
    destruct (offset_snoc (i := i + 1) (n := n) Hw) as (k0' & Ho' & Hoi'); [lia|].
    rewrite Ho in Ho'. injection Ho' as <-.
    destruct (offset_within Hw) as (k1 & Ho1 & Hk1 & _).
    rewrite Ho in Ho1. injection Ho1 as <-.
    assert (Hb : 0 <= k0 * n + i < Np.prod (maxes ++ [n]))
      by (rewrite prod_snoc; nia).
    rewrite (encode_is_offset _ Hmaxes' Hoi Hb) in Henc. injection Henc as <-.
    replace (k0 * n + i + 1) with (k0 * n + (i + 1)) by lia.
    apply encode_is_offset; [assumption | assumption |].
    rewrite prod_snoc. nia.
Qed.

Lemma codec_round_trip_witness :
  (exists k, transform_multi_discrete_to_discrete [1; 2] [2; 3] = Ok k
             /\ 0 <= k < Np.prod [2; 3]
             /\ transform_discrete_to_multi_discrete k [2; 3] = Ok [1; 2])
  /\ (exists x, transform_discrete_to_multi_discrete 4 [2; 3] = Ok x
                /\ within x [2; 3]
                /\ transform_multi_discrete_to_discrete x [2; 3] = Ok 4)
  /\ transform_multi_discrete_to_discrete ([1] ++ [0 + 1]) ([2] ++ [3]) = Ok (3 + 1).
Proof.
  assert (H23 : Forall (fun n => 0 <= n) [2; 3])
    by (repeat constructor; discriminate).
  assert (H2 : Forall (fun n => 0 <= n) [2])
    by (repeat constructor; discriminate).
  split; [|split].
  - apply (proj1 (codec_round_trip H23)).
    repeat constructor; discriminate.
  - apply (proj1 (proj2 (codec_round_trip H23))).
    split; [discriminate | reflexivity].
  - apply (proj2 (proj2 (codec_round_trip H2))).
    + discriminate.
    + repeat constructor; discriminate.
    + discriminate.
    + reflexivity.
Defined.

(** ** Loops and tables *)

Lemma bind_Ok {A B : Type} (c : result A) (k : A -> result B) (r : B) :
  bind c k = Ok r -> exists a, c = Ok a /\ k a = Ok r.
Proof. destruct c as [a|]; cbn; [eauto | discriminate]. Qed.

Lemma assert_Ok (b : bool) (u : unit) : assert b = Ok u -> b = true.
Proof. destruct b; [reflexivity | discriminate]. Qed.

(** A loop invariant indexed by the part of the list already visited. *)
Lemma for_each_ind {A S : Type} (Q : list A -> S -> Prop) (body : S -> A -> result S)
  (xs : list A) (s0 s' : S) :
  Q [] s0 ->
  (forall pre x s s1, In x xs -> Q pre s -> body s x = Ok s1 -> Q (pre ++ [x]) s1) ->
  for_each xs body s0 = Ok s' ->
  Q xs s'.
Proof.
  intros H0 Hstep.
  assert (G : forall ys pre s,
             incl ys xs -> Q pre s -> for_each ys body s = Ok s' -> Q (pre ++ ys) s').
  { induction ys as [|y ys IH]; intros pre s Hincl HQ Hrun.
    - cbn in Hrun. injection Hrun as <-. now rewrite app_nil_r.
    - cbn [for_each] in Hrun. bind_ok Hrun.
      replace (pre ++ y :: ys) with ((pre ++ [y]) ++ ys)
        by (now rewrite <- app_assoc).
      apply IH with (s := a); [| |exact Hrun].
      + intros z Hz. apply Hincl. now right.
      + apply Hstep with (s := s); [apply Hincl; now left | exact HQ | exact E]. }
  intros Hrun. apply (G xs [] s0); [apply incl_refl | exact H0 | exact Hrun].
Qed.

(** A loop whose body cannot raise is a fold. *)
Lemma for_each_total {A S : Type} (f : S -> A -> S) (xs : list A) (s : S) :
  for_each xs (fun s x => Ok (f s x)) s = Ok (fold_left f xs s).
Proof. revert s. induction xs as [|x xs IH]; intros s; cbn; [reflexivity | apply IH]. Qed.

Lemma for_each_ext {A S : Type} (body1 body2 : S -> A -> result S) (xs : list A) (s : S) :
  (forall s x, In x xs -> body1 s x = body2 s x) ->
  for_each xs body1 s = for_each xs body2 s.
Proof.
  revert s. induction xs as [|x xs IH]; intros s H; cbn; [reflexivity|].
  rewrite H by now left. destruct (body2 s x); cbn; [|reflexivity].
  apply IH. intros s' y Hy. apply H. now right.
Qed.

(** A loop over the positions of a list visits its elements. *)
Lemma for_each_positions {A S : Type} (l : list A) (body : S -> A -> result S) (s : S) :
  for_each (Py.range 0 (Py.len l)) (fun s i => x <- Py.get l i ;; body s x) s
  = for_each l body s.
Proof.
  assert (G : forall (pre l : list A) s,
             for_each (Py.range (Py.len pre) (Py.len (pre ++ l)))
               (fun s i => x <- Py.get (pre ++ l) i ;; body s x) s
             = for_each l body s).
  { clear l s. intros pre l. revert pre.
    induction l as [|x l IH]; intros pre s.
    - rewrite app_nil_r, range_nil by lia. reflexivity.
    - rewrite range_cons
        by (unfold Py.len; rewrite length_app; cbn [length]; lia).
      cbn [for_each].
      rewrite (@get_nonneg _ (pre ++ x :: l) (Py.len pre) x).
      + cbn [bind]. destruct (body s x) as [s1|]; cbn [bind]; [|reflexivity].
        specialize (IH (pre ++ [x]) s1).
        rewrite <- app_assoc in IH. cbn [app] in IH.
        unfold Py.len in IH |- *. rewrite length_app in IH. cbn [length] in IH.
        replace (Z.of_nat (length pre) + 1)
          with (Z.of_nat (length pre + 1)) by lia.
        exact IH.
      + unfold Py.len. lia.
      + unfold Py.len. rewrite Nat2Z.id, nth_error_app2 by lia.
        now rewrite Nat.sub_diag. }
  apply (G [] l s).
Qed.

Lemma nth_error_replace_at {A : Type} (l : list A) (k k' : nat) (v : A) :
  (k < length l)%nat ->
  nth_error (Py.replace_at l k v) k'
  = if (k' =? k)%nat then Some v else nth_error l k'.
Proof.
  intros Hk. unfold Py.replace_at.
  destruct (Nat.eqb_spec k' k) as [->|Hne].
  - rewrite nth_error_app2 by (rewrite length_firstn; lia).
    rewrite length_firstn. replace (k - Nat.min k (length l))%nat with 0%nat by lia.
    reflexivity.
  - destruct (Nat.ltb_spec k' k).
    + rewrite nth_error_app1 by (rewrite length_firstn; lia).
      rewrite nth_error_firstn.
      destruct (Nat.ltb_spec k' k); [reflexivity | lia].
    + rewrite nth_error_app2 by (rewrite length_firstn; lia).
      rewrite length_firstn.
      replace (k' - Nat.min k (length l))%nat with (S (k' - S k)) by lia.
      cbn [nth_error]. rewrite nth_error_skipn. f_equal. lia.
Qed.

Lemma length_replace_at {A : Type} (l : list A) (k : nat) (v : A) :
  (k < length l)%nat -> length (Py.replace_at l k v) = length l.
Proof.
  intros Hk. unfold Py.replace_at.
  rewrite length_app, length_firstn. cbn [length]. rewrite length_skipn. lia.
Qed.

Lemma np_get2_entry (t : list (list Z)) (s a v : Z) :
  0 <= s -> 0 <= a ->
  entry t (Z.to_nat s) (Z.to_nat a) = Some v -> np_get2 t s a = Ok v.
Proof.
  unfold entry, np_get2. intros Hs Ha H.
  destruct (nth_error t (Z.to_nat s)) as [row|] eqn:E; [|discriminate].
  rewrite (get_nonneg _ Hs E). cbn [bind]. now apply get_nonneg.
Qed.

Lemma np_set2_entry (t t' : list (list Z)) (s a v : Z) :
  0 <= s -> 0 <= a -> np_set2 t s a v = Ok t' ->
  length t' = length t
  /\ (forall s', s' <> Z.to_nat s -> nth_error t' s' = nth_error t s')
  /\ (exists row, nth_error t (Z.to_nat s) = Some row
                  /\ (Z.to_nat a < length row)%nat
                  /\ nth_error t' (Z.to_nat s)
                     = Some (Py.replace_at row (Z.to_nat a) v)).
Proof.
  intros Hs Ha H. unfold np_set2 in H.
  bind_inv H as i eqn Ei. bind_inv H as row eqn Erow. bind_inv H as j eqn Ej.
  injection H as <-.
  apply index_Ok in Ei. destruct Ei as (Hlt & [[_ ->]|[? _]]); [|lia].
  apply get_Ok in Erow. destruct Erow as (k & Hk & Hrow).
  apply index_Ok in Hk. destruct Hk as (_ & [[_ ->]|[? _]]); [|lia].
  apply index_Ok in Ej. destruct Ej as (Hlt1 & [[_ ->]|[? _]]); [|lia].
  split; [now apply length_replace_at|]. split.
  - intros s' Hne. rewrite nth_error_replace_at by assumption.
    destruct (Nat.eqb_spec s' (Z.to_nat s)); [contradiction | reflexivity].
  - exists row. split; [assumption|]. split; [assumption|].
    rewrite nth_error_replace_at by assumption. now rewrite Nat.eqb_refl.
Qed.

(** ** Construction *)

Section Construction.

Context {RNG : Random}.

Lemma reset_frame (e e' : RLToyEnv) (s : Z) :
  reset e = Ok (s, e') ->
  config e' = config e /\ settings e' = settings e /\ tables e' = tables e
  /\ warnings e' = warnings e.
Proof.
  unfold reset. intros H.
  bind_inv H as [s0 g] eqn E. bind_inv H as prs eqn Eprs.
  injection H as _ <-. cbn. auto.
Qed.

Lemma reset_dist (e e' : RLToyEnv) (s : Z) :
  reset e = Ok (s, e') ->
  Py.len (relevant_init_state_dist (tables e))
  = relevant_state_space_size (settings e)
  /\ Qeq_bool (sum_Q (relevant_init_state_dist (tables e))) (1 # 1) = true.
Proof.
  unfold reset. intros H. bind_inv H as [s0 g] eqn E. clear H.
  unfold np_choice_p in E.
  destruct (Py.len (relevant_init_state_dist (tables e))
            =? relevant_state_space_size (settings e)) eqn:E1;
    [|discriminate].
  destruct (forallb (Qle_bool (0 # 1)) (relevant_init_state_dist (tables e)));
    [|discriminate].
  destruct (Qeq_bool (sum_Q (relevant_init_state_dist (tables e))) (1 # 1));
    [|discriminate].
  split; [lia | reflexivity].
Qed.

Lemma init_reward_function_frame (e e' : RLToyEnv) :
  init_reward_function e = Ok e' ->
  cfg_repeats_in_sequences (config e) = false
  /\ config e' = config e /\ settings e' = settings e
  /\ num_terminal_states (tables e') = num_terminal_states (tables e)
  /\ is_terminal_state_list (tables e') = is_terminal_state_list (tables e)
  /\ relevant_init_state_dist (tables e') = relevant_init_state_dist (tables e)
  /\ transition_function_table (tables e') = transition_function_table (tables e)
  /\ relevant_observation_space (gens e') = relevant_observation_space (gens e)
  /\ (forall w, In w (warnings e) -> In w (warnings e')).
Proof.
  unfold init_reward_function. intros H.
  destruct (cfg_repeats_in_sequences (config e)).
  - bind_inv H as [ss g] eqn E. discriminate.
  - bind_inv H as [sel g] eqn E. bind_inv H as [ss clashes] eqn E1.
    bind_inv H as u eqn E2. injection H as <-.
    destruct (1000 <? _); cbn; repeat split; auto.
    intros w Hw. apply in_or_app. now left.
Qed.

Lemma init_transition_function_frame (e e' : RLToyEnv) :
  init_transition_function e = Ok e' ->
  config e' = config e /\ settings e' = settings e
  /\ num_terminal_states (tables e') = num_terminal_states (tables e)
  /\ is_terminal_state_list (tables e') = is_terminal_state_list (tables e)
  /\ relevant_init_state_dist (tables e') = relevant_init_state_dist (tables e)
  /\ specific_sequences (tables e') = specific_sequences (tables e)
  /\ warnings e' = warnings e.
Proof.
  unfold init_transition_function. intros H.
  bind_inv H as t0 eqn E0. bind_inv H as cc eqn Ecc.
  bind_inv H as [t1 sp] eqn E1. bind_inv H as t2 eqn E2.
  bind_inv H as x eqn E3. injection H as <-. cbn. repeat split; reflexivity.
Qed.

(** The stages of a construction that succeeded. *)
Lemma init_inv (entropy : Z) (c : Config) (e : RLToyEnv) :
  RLToyEnv_init entropy c = Ok e ->
  exists sd g obs_seed act_seed e3 e4 s,
    init_seeds entropy c = Ok (sd, g)
    /\ 0 < default (cfg_sequence_length c) 1
    /\ (cfg_completely_connected c = Some true ->
        cfg_state_space_size c = cfg_action_space_size c)
    /\ init_transition_function
         (init_init_state_dist
            (init_terminal_states
               (initial_env entropy c sd g obs_seed act_seed))) = Ok e3
    /\ init_reward_function e3 = Ok e4
    /\ reset e4 = Ok (s, e).
Proof.
  unfold RLToyEnv_init. intros H.
  bind_inv H as [sd g] eqn Eseeds. bind_inv H as u eqn Elen.
  bind_inv H as u' eqn Ecc. bind_inv H as obs_seed eqn Eobs.
  bind_inv H as act_seed eqn Eact. bind_inv H as u'' eqn Egen.
  bind_inv H as e3 eqn E3. bind_inv H as e4 eqn E4.
  bind_inv H as [s e5] eqn E5. injection H as <-.
  exists sd, g, obs_seed, act_seed, e3, e4, s.
  split; [reflexivity|]. split.
  { apply assert_Ok in Elen. lia. }
  split.
  { intros Hcc. rewrite Hcc in Ecc. bind_inv Ecc as u1 eqn Eeq.
    apply assert_Ok in Eeq. lia. }
  auto.
Qed.

Lemma sum_Q_zeros {A : Type} (l : list A) :
  sum_Q (map (fun _ => (0 # 1)%Q) l) = (0 # 1)%Q.
Proof.
  unfold sum_Q. induction l as [|x l IH]; cbn [map fold_right];
    [reflexivity | now rewrite IH].
Qed.

(** The tables after [init_terminal_states] and [init_init_state_dist]. *)
Lemma init_terminal_stage (e : RLToyEnv) :
  let n := relevant_state_space_size (settings e) in
  let k := Py.int (cfg_terminal_state_density (config e) * inject_Z n)%Q in
  let num := forced_num_terminal_states (cfg_terminal_state_density (config e)) n in
  let e2 := init_init_state_dist (init_terminal_states e) in
  config e2 = config e /\ settings e2 = settings e /\ gens e2 = gens e
  /\ num_terminal_states (tables e2) = num
  /\ is_terminal_state_list (tables e2) = map (fun i => n - 1 - i) (Py.range 0 num)
  /\ relevant_init_state_dist (tables e2)
     = map (fun _ => (1 / inject_Z (n - num))%Q) (Py.range 0 (n - num))
       ++ map (fun _ => (0 # 1)%Q) (Py.range 0 num)
  /\ warnings e2
     = warnings e ++ (if k =? 0 then [WarnNoTerminalState] else []).
Proof.
  unfold init_init_state_dist, init_terminal_states, forced_num_terminal_states.
  destruct (Py.int _ =? 0); cbn; rewrite ?app_nil_r; repeat split; reflexivity.
Qed.

(** What a constructed environment holds of its configuration. *)
Lemma constructed_tables (entropy : Z) (c : Config) (e : RLToyEnv) :
  RLToyEnv_init entropy c = Ok e ->
  let n := cfg_state_space_size c in
  let num := forced_num_terminal_states (cfg_terminal_state_density c) n in
  config e = c
  /\ relevant_state_space_size (settings e) = n
  /\ relevant_action_space_size (settings e) = cfg_action_space_size c
  /\ sequence_length (settings e) = default (cfg_sequence_length c) 1
  /\ delay (settings e) = default (cfg_delay c) 0
  /\ augmented_state_length (settings e)
     = sequence_length (settings e) + delay (settings e) + 1
  /\ reward_scale (settings e) = default (cfg_reward_scale c) (1 # 1)%Q
  /\ num_terminal_states (tables e) = num
  /\ is_terminal_state_list (tables e)
     = map (fun i => n - 1 - i) (Py.range 0 num)
  /\ 1 <= num < n
  /\ 0 < sequence_length (settings e).
Proof.
  intros H n num. apply init_inv in H.
  destruct H as (sd & g & os & acs & e3 & e4 & s & _ & Hlen & _ & H3 & H4 & H5).
  pose proof (reset_dist _ H5) as (Hd1 & Hd2).
  apply reset_frame in H5. destruct H5 as (Hc5 & Hs5 & Ht5 & _).
  apply init_reward_function_frame in H4.
  destruct H4 as (_ & Hc4 & Hs4 & Hn4 & Hi4 & Hd4 & _).
  apply init_transition_function_frame in H3.
  destruct H3 as (Hc3 & Hs3 & Hn3 & Hi3 & Hd3 & _).
  destruct (init_terminal_stage (initial_env entropy c sd g os acs))
    as (Hc2 & Hs2 & _ & Hn2 & Hi2 & Hd2' & _).
  cbn [initial_env config settings relevant_state_space_size] in Hn2, Hi2, Hd2'.
  fold n in Hn2, Hi2, Hd2'. fold num in Hn2, Hi2, Hd2'.
  rewrite Hd4, Hd3, Hd2' in Hd1, Hd2. rewrite Hs4, Hs3, Hs2 in Hd1.
  cbn [initial_env settings relevant_state_space_size] in Hd1. fold n in Hd1.
  rewrite Hc5, Hs5, Ht5, Hc4, Hs4, Hn4, Hi4, Hc3, Hs3, Hn3, Hi3, Hc2, Hs2, Hn2, Hi2.
  cbn [initial_env config settings relevant_state_space_size
         relevant_action_space_size sequence_length delay
         augmented_state_length reward_scale].
  assert (Hnum : num <> 0).
  { unfold num, forced_num_terminal_states.
    destruct (Z.eqb_spec (Py.int (cfg_terminal_state_density c * inject_Z n)) 0);
      lia. }
  assert (Hb : 1 <= num < n).
  { destruct (Z.leb_spec (n - num) 0) as [Hle|Hgt].
    - exfalso. rewrite (@range_nil 0 (n - num)) in Hd2 by lia.
      cbn [map app] in Hd2. rewrite sum_Q_zeros in Hd2. discriminate.
    - unfold Py.len in Hd1.
      rewrite length_app, !length_map, !range_length in Hd1. lia. }
  repeat split; try reflexivity; try lia.
Qed.

Lemma constructed_warning (entropy : Z) (c : Config) (e : RLToyEnv) :
  RLToyEnv_init entropy c = Ok e ->
  Py.int (cfg_terminal_state_density c * inject_Z (cfg_state_space_size c))%Q = 0 ->
  In WarnNoTerminalState (warnings e).
Proof.
  intros H Hk. apply init_inv in H.
  destruct H as (sd & g & os & acs & e3 & e4 & s & _ & _ & _ & H3 & H4 & H5).
  apply reset_frame in H5. destruct H5 as (_ & _ & _ & ->).
  apply init_reward_function_frame in H4.
  destruct H4 as (_ & _ & _ & _ & _ & _ & _ & _ & Hw4). apply Hw4.
  apply init_transition_function_frame in H3.
  destruct H3 as (_ & _ & _ & _ & _ & _ & ->).
  destruct (init_terminal_stage (initial_env entropy c sd g os acs))
    as (_ & _ & _ & _ & _ & _ & ->).
  cbn [initial_env config settings relevant_state_space_size warnings].
  rewrite Hk. cbn. now left.
Qed.

Lemma contains_In (x : Z) (l : list Z) :
  Py.contains Z.eqb x l = true <-> In x l.
Proof.
  unfold Py.contains. rewrite existsb_exists. split.
  - intros (y & Hy & E). apply Z.eqb_eq in E. now subst.
  - intros H. exists x. split; [assumption | apply Z.eqb_refl].
Qed.

(** The terminal states of a constructed environment are the last ones. *)
Lemma constructed_terminal (entropy : Z) (c : Config) (e : RLToyEnv) (s : Z) :
  RLToyEnv_init entropy c = Ok e ->
  is_terminal_state e s = true
  <-> relevant_state_space_size (settings e) - num_terminal_states (tables e) <= s
      < relevant_state_space_size (settings e).
Proof.
  intros H. destruct (constructed_tables _ _ H)
    as (_ & Hn & _ & _ & _ & _ & _ & Hnum & Hlist & Hb & _).
  unfold is_terminal_state. rewrite contains_In, Hlist, Hn, Hnum, in_map_iff.
  split.
  - intros (i & <- & Hi). apply In_range in Hi. lia.
  - intros Hs. exists (cfg_state_space_size c - 1 - s). split; [lia|].
    apply In_range. lia.
Qed.

(** C10. In every discrete environment after construction the number of
    terminal states is [int(terminal_state_density * relevant_state_space_size)]
    when that value is positive and 1 otherwise, with a warning in that
    case; so there is at least one terminal state, and the terminal states
    are the highest-numbered states. *)
Theorem terminal_states_count (entropy : Z) (c : Config) (e : RLToyEnv)
  (Hinit : RLToyEnv_init entropy c = Ok e) :
  let n := relevant_state_space_size (settings e) in
  let k := Py.int (cfg_terminal_state_density c * inject_Z n)%Q in
  let num := num_terminal_states (tables e) in
  num = (if 0 <? k then k else 1)
  /\ (k <= 0 -> In WarnNoTerminalState (warnings e))
  /\ Py.len (is_terminal_state_list (tables e)) = num
  /\ NoDup (is_terminal_state_list (tables e))
  /\ 1 <= num
  /\ 0 < n - num
  /\ (forall s, is_terminal_state e s = true <-> n - num <= s < n).
Proof.
  intros n k num.
  destruct (constructed_tables _ _ Hinit)
    as (_ & Hn & _ & _ & _ & _ & _ & Hnum & Hlist & Hb & _).
  assert (Hk : num = if k =? 0 then 1 else k).
  { unfold num, k, n. rewrite Hnum, Hn. reflexivity. }
  rewrite <- Hnum in Hb. rewrite <- Hn in Hb. fold n num in Hb.
  split.
  { rewrite Hk in Hb |- *. destruct (Z.eqb_spec k 0) as [->|Hne];
      [reflexivity|]. destruct (Z.ltb_spec 0 k); [reflexivity | lia]. }
  split.
  { intros Hle. apply (constructed_warning _ _ Hinit). rewrite <- Hn. fold n k.
    rewrite Hk in Hb. destruct (Z.eqb_spec k 0); lia. }
  split.
  { rewrite Hlist. unfold Py.len. rewrite length_map, range_length. lia. }
  split.
  { rewrite Hlist. apply Finite.Injective_map_NoDup; [|apply NoDup_range].
    intros i j. lia. }
  split; [lia|]. split; [lia|].
  intros s. apply (constructed_terminal _ _ s Hinit).
Qed.

End Construction.

Lemma example_env_constructed : RLToyEnv_init 0 (example_config 0) = Ok example_env.
Proof. reflexivity. Qed.

Lemma terminal_states_count_witness :
  RLToyEnv_init 0 (example_config 0) = Ok example_env
  /\ num_terminal_states (tables example_env) = 1
  /\ In WarnNoTerminalState (warnings example_env)
  /\ (forall s, is_terminal_state example_env s = true <-> 6 - 1 <= s < 6).
Proof.
  assert (H : RLToyEnv_init 0 (example_config 0) = Ok example_env)
    by reflexivity.
  destruct (terminal_states_count _ _ H) as (A & B & _ & _ & _ & _ & C).
  split; [exact H|]. split; [exact A|]. split; [|exact C].
  apply B. vm_compute. discriminate.
Defined.

(** ** The transition table *)

Section TransitionTable.

Context {RNG : Random}.

Lemma entry_replace_row (t : list (list Z)) (k : nat) (row : list Z) (a : nat) :
  (k < length t)%nat ->
  entry (Py.replace_at t k row) k a = nth_error row a.
Proof.
  intros Hk. unfold entry. rewrite nth_error_replace_at by assumption.
  now rewrite Nat.eqb_refl.
Qed.

(** Lines 497-499 for one terminal state [s]: its row becomes constant. *)
Lemma terminal_row_loop (e : RLToyEnv) (s m : Z) (t t' : list (list Z)) :
  0 <= s ->
  for_each (Py.range 0 m)
    (fun t a => _ <- assert (is_terminal_state e s) ;; np_set2 t s a s) t = Ok t' ->
  length t' = length t
  /\ (forall s', s' <> Z.to_nat s -> nth_error t' s' = nth_error t s')
  /\ (forall a, 0 <= a < m -> entry t' (Z.to_nat s) (Z.to_nat a) = Some s).
Proof.
  intros Hs Hrun.
  pose (Q := fun (pre : list Z) (tc : list (list Z)) =>
              length tc = length t
              /\ (forall s', s' <> Z.to_nat s -> nth_error tc s' = nth_error t s')
              /\ (forall a, In a pre -> entry tc (Z.to_nat s) (Z.to_nat a) = Some s)).
  assert (HQ : Q (Py.range 0 m) t').
  { apply for_each_ind with (Q := Q) (3 := Hrun); unfold Q.
    - split; [reflexivity|]. split; [reflexivity|]. intros a [].
    - intros pre a tc t1 Hin (Hl & Ho & Ha) Hbody.
      apply In_range in Hin.
      bind_inv Hbody as u eqn Eassert.
      apply np_set2_entry in Hbody; [|lia|lia].
      destruct Hbody as (Hl1 & Ho1 & row & Hrow & Hlt & Hrow1).
      split; [congruence|]. split.
      + intros s' Hne. rewrite Ho1 by assumption. now apply Ho.
      + intros a0 Hin0. unfold entry. rewrite Hrow1.
        rewrite nth_error_replace_at by assumption.
        destruct (Nat.eqb_spec (Z.to_nat a0) (Z.to_nat a)) as [_|Hne];
          [reflexivity|].
        apply in_app_or in Hin0. destruct Hin0 as [Hin0|[<-|[]]]; [|congruence].
        specialize (Ha _ Hin0). unfold entry in Ha. now rewrite Hrow in Ha. }
  destruct HQ as (Hl & Ho & Ha). split; [exact Hl|]. split; [exact Ho|].
  intros a Hin. apply Ha. now apply In_range.
Qed.

(** Lines 496-499: the rows of the states of [range(lo, n)] become
    constant, the other rows are left as they are. *)
Lemma terminal_rows_loop (e : RLToyEnv) (lo n m : Z) (t t' : list (list Z)) :
  0 <= lo ->
  for_each (Py.range lo n)
    (fun t s =>
       for_each (Py.range 0 m)
         (fun t a => _ <- assert (is_terminal_state e s) ;; np_set2 t s a s) t)
    t = Ok t' ->
  length t' = length t
  /\ (forall s, 0 <= s < lo -> nth_error t' (Z.to_nat s) = nth_error t (Z.to_nat s))
  /\ (forall s a, lo <= s < n -> 0 <= a < m ->
        entry t' (Z.to_nat s) (Z.to_nat a) = Some s).
Proof.
  intros Hlo Hrun.
  pose (Q := fun (pre : list Z) (tc : list (list Z)) =>
              length tc = length t
              /\ (forall s, 0 <= s < lo ->
                    nth_error tc (Z.to_nat s) = nth_error t (Z.to_nat s))
              /\ (forall s a, In s pre -> 0 <= a < m ->
                    lo <= s /\ entry tc (Z.to_nat s) (Z.to_nat a) = Some s)).
  assert (HQ : Q (Py.range lo n) t').
  { apply for_each_ind with (Q := Q) (3 := Hrun); unfold Q.
    - split; [reflexivity|]. split; [reflexivity|]. intros s a [].
    - intros pre s tc t1 Hin (Hl & Ho & Ha) Hbody.
      apply In_range in Hin.
      apply terminal_row_loop in Hbody; [|lia].
      destruct Hbody as (Hl1 & Ho1 & Ha1).
      split; [congruence|]. split.
      + intros s0 Hs0. rewrite Ho1 by lia. now apply Ho.
      + intros s0 a Hin0 Ha0.
        destruct (Z.eq_dec s0 s) as [->|Hne].
        { split; [lia | now apply Ha1]. }
        apply in_app_or in Hin0. destruct Hin0 as [Hin0|[<-|[]]]; [|congruence].
        destruct (Ha _ _ Hin0 Ha0) as [Hs0 He0]. split; [exact Hs0|].
        unfold entry. rewrite Ho1 by lia. exact He0. }
  destruct HQ as (Hl & Ho & Ha). split; [exact Hl|]. split; [exact Ho|].
  intros s a Hs Ha0. apply Ha; [now apply In_range | exact Ha0].
Qed.

Lemma np_set_row_spec (t t' : list (list Z)) (m s : Z) (row : list Z) :
  0 <= s -> Py.len row = m -> np_set_row t m s row = Ok t' ->
  length t' = length t
  /\ nth_error t' (Z.to_nat s) = Some row
  /\ (forall s', s' <> Z.to_nat s -> nth_error t' s' = nth_error t s').
Proof.
  intros Hs Hlen H. unfold np_set_row in H. bind_inv H as k eqn Ek.
  apply index_Ok in Ek. destruct Ek as (Hlt & [[_ ->]|[? _]]); [|lia].
  assert (E : t' = Py.replace_at t (Z.to_nat s) row).
  { destruct row as [|x [|y row]].
    - destruct (Py.len [] =? m); [congruence | discriminate].
    - injection H as <-. unfold Py.len in Hlen. cbn in Hlen. subst m.
      reflexivity.
    - destruct (Py.len (x :: y :: row) =? m); [congruence | discriminate]. }
  subst t'. split; [now apply length_replace_at|]. split.
  - rewrite nth_error_replace_at by assumption. now rewrite Nat.eqb_refl.
  - intros s' Hne. rewrite nth_error_replace_at by assumption.
    destruct (Nat.eqb_spec s' (Z.to_nat s)); [contradiction | reflexivity].
Qed.

Lemma sample_size_spec (RL : RandomLaws RNG) (sp sp' : DiscreteExtended)
  (m : Z) (row : list Z) :
  sample_size sp m = Ok (row, sp') ->
  space_n sp' = space_n sp /\ drawn_row (space_n sp) m row.
Proof.
  unfold sample_size, np_choice. intros H.
  destruct (Z.ltb_spec m 0); [discriminate|].
  destruct (Z.ltb_spec (space_n sp) m); [discriminate|].
  cbn in H.
  destruct (rs_choice (space_n sp) m (space_np_random sp)) as [l g] eqn:E.
  cbn in H. injection H as <- <-. cbn. split; [reflexivity|].
  assert (Hb : 0 <= m <= space_n sp) by lia.
  pose proof (rs_choice_length (space_np_random sp) Hb) as Hlen.
  pose proof (rs_choice_NoDup (space_np_random sp) Hb) as Hnd.
  pose proof (fun x => @rs_choice_range _ RL _ _ (space_np_random sp) x Hb) as Hrg.
  rewrite E in Hlen, Hnd, Hrg. cbn in Hlen, Hnd, Hrg.
  repeat split; auto; now apply Hrg.
Qed.

(** Lines 489-490: every row is a draw without replacement. *)
Lemma connected_rows_loop (RL : RandomLaws RNG) (n m : Z)
  (t0 t1 : list (list Z)) (sp0 sp1 : DiscreteExtended) :
  for_each (Py.range 0 n)
    (fun '(t, sp) s =>
       '(row, sp') <- sample_size sp m ;;
       t' <- np_set_row t m s row ;;
       Ok (t', sp'))
    (t0, sp0) = Ok (t1, sp1) ->
  length t1 = length t0
  /\ (forall s, 0 <= s < n ->
        exists row, nth_error t1 (Z.to_nat s) = Some row
                    /\ drawn_row (space_n sp0) m row).
Proof.
  intros Hrun.
  pose (Q := fun (pre : list Z) (st : list (list Z) * DiscreteExtended) =>
              length (fst st) = length t0
              /\ space_n (snd st) = space_n sp0
              /\ (forall s, In s pre ->
                    0 <= s
                    /\ exists row, nth_error (fst st) (Z.to_nat s) = Some row
                                   /\ drawn_row (space_n sp0) m row)).
  assert (HQ : Q (Py.range 0 n) (t1, sp1)).
  { apply for_each_ind with (Q := Q) (3 := Hrun); unfold Q.
    - cbn. split; [reflexivity|]. split; [reflexivity|]. intros s [].
    - intros pre s [t sp] [t' sp'] Hin (Hl & Hn & Hrows) Hbody.
      cbn [fst snd] in *. apply In_range in Hin.
      bind_inv Hbody as [row sp2] eqn Esample.
      bind_inv Hbody as t2 eqn Eset. injection Hbody as <- <-.
      apply (sample_size_spec RL) in Esample.
      destruct Esample as (Hn2 & Hrow). rewrite Hn in Hrow.
      apply np_set_row_spec in Eset; [|lia|apply Hrow].
      destruct Eset as (Hl2 & Hs2 & Ho2).
      split; [congruence|]. split; [congruence|].
      intros s0 Hin0. destruct (Z.eq_dec s0 s) as [->|Hne].
      + split; [lia|]. exists row. now split.
      + apply in_app_or in Hin0. destruct Hin0 as [Hin0|[<-|[]]]; [|congruence].
        destruct (Hrows _ Hin0) as (Hs0 & row0 & Hr0 & Hd0).
        split; [exact Hs0|]. exists row0. split; [|exact Hd0].
        rewrite Ho2 by lia. exact Hr0. }
  destruct HQ as (Hl & _ & Hrows). cbn [fst] in *. split; [exact Hl|].
  intros s Hs. apply Hrows. now apply In_range.
Qed.

(** The table [init_transition_function] leaves. *)
Lemma init_transition_function_table (e e' : RLToyEnv) :
  init_transition_function e = Ok e' ->
  let n := relevant_state_space_size (settings e) in
  let m := relevant_action_space_size (settings e) in
  let num := num_terminal_states (tables e) in
  let t := transition_function_table (tables e') in
  0 <= n - num -> 0 <= num ->
  (forall s a, n - num <= s < n -> 0 <= a < m -> np_get2 t s a = Ok s)
  /\ (RandomLaws RNG -> cfg_completely_connected (config e) = Some true ->
      forall s, 0 <= s < n - num ->
        exists row, Py.get t s = Ok row
                    /\ drawn_row (space_n (relevant_observation_space (gens e))) m row).
Proof.
  intros H n m num t Hlo Hnum. unfold init_transition_function in H.
  bind_inv H as t0 eqn E0. bind_inv H as cc eqn Ecc.
  bind_inv H as [t1 sp] eqn E1. bind_inv H as t2 eqn E2.
  bind_inv H as x eqn E3. injection H as <-.
  subst t. cbn [with_relevant_observation_space with_gens with_tables tables
                  transition_function_table].
  fold n m num in E0, E1, E2.
  apply terminal_rows_loop in E2; [|exact Hlo].
  destruct E2 as (Hl2 & Ho2 & Ha2).
  split.
  - intros s a Hs Ha. apply np_get2_entry; [lia | lia |]. now apply Ha2.
  - intros RL Hcc s Hs. rewrite Hcc in Ecc. injection Ecc as <-.
    apply (connected_rows_loop RL) in E1. destruct E1 as (_ & Hrows).
    destruct (Hrows s) as (row & Hrow & Hd); [lia|].
    exists row. split; [|exact Hd].
    apply get_nonneg; [lia|]. rewrite Ho2 by lia. exact Hrow.
Qed.

(** The table of a constructed environment is the one
    [init_transition_function] built. *)
Lemma constructed_transition_table (entropy : Z) (c : Config) (e : RLToyEnv) :
  RLToyEnv_init entropy c = Ok e ->
  exists e2 e3,
    init_transition_function e2 = Ok e3
    /\ transition_function_table (tables e) = transition_function_table (tables e3)
    /\ config e2 = c
    /\ settings e2 = settings e
    /\ num_terminal_states (tables e2) = num_terminal_states (tables e)
    /\ space_n (relevant_observation_space (gens e2)) = cfg_state_space_size c.
Proof.
  intros H. pose proof (constructed_tables _ _ H) as Hct.
  apply init_inv in H.
  destruct H as (sd & g & os & acs & e3 & e4 & s & _ & _ & _ & H3 & H4 & H5).
  apply reset_frame in H5. destruct H5 as (_ & Hs5 & Ht5 & _).
  apply init_reward_function_frame in H4.
  destruct H4 as (_ & _ & Hs4 & Hn4 & _ & _ & Ht4 & _).
  pose proof (init_transition_function_frame _ H3) as (_ & Hs3 & Hn3 & _).
  destruct (init_terminal_stage (initial_env entropy c sd g os acs))
    as (Hc2 & Hs2 & Hg2 & Hn2 & _).
  eexists. exists e3. split; [exact H3|].
  split; [now rewrite Ht5, Ht4|]. split; [exact Hc2|].
  split; [congruence|]. split; [congruence|].
  rewrite Hg2. reflexivity.
Qed.

Lemma constructed_terminal_rows (entropy : Z) (c : Config) (e : RLToyEnv) (s a : Z) :
  RLToyEnv_init entropy c = Ok e ->
  is_terminal_state e s = true ->
  0 <= a < relevant_action_space_size (settings e) ->
  np_get2 (transition_function_table (tables e)) s a = Ok s.
Proof.
  intros Hinit Hterminal Haction.
  pose proof (constructed_tables _ _ Hinit)
    as (_ & Hn & _ & _ & _ & _ & _ & Hnum & _ & Hb & _).
  apply (constructed_terminal _ _ s Hinit) in Hterminal.
  destruct (constructed_transition_table _ _ Hinit)
    as (e2 & e3 & H3 & Ht & _ & Hs2 & Hn2 & _).
  rewrite Ht.
  apply (init_transition_function_table _ H3); rewrite ?Hs2, ?Hn2; lia.
Qed.

(** C2. In every discrete environment after construction, terminal states
    are absorbing: for every terminal state [s] and every action [a] the
    transition table holds [s] at [(s, a)]; and with no transition noise
    configured a query of [P] at [(s, a)] returns [s]. *)
Theorem terminal_states_absorbing (entropy : Z) (c : Config) (e : RLToyEnv)
  (Hinit : RLToyEnv_init entropy c = Ok e) (s a : Z)
  (Hterminal : is_terminal_state e s = true)
  (Haction : 0 <= a < relevant_action_space_size (settings e)) :
  np_get2 (transition_function_table (tables e)) s a = Ok s
  /\ (cfg_transition_noise c = None ->
      transition_function e s a true = Ok (s, e)).
Proof.
  pose proof (@constructed_terminal_rows entropy c e s a Hinit Hterminal Haction)
    as Htable.
  split; [exact Htable|].
  intros Hnoise. unfold transition_function. rewrite Htable. cbn [bind].
  pose proof (constructed_tables _ _ Hinit) as (-> & _).
  rewrite Hnoise. reflexivity.
Qed.

Lemma drawn_row_Permutation (n : Z) (row : list Z) :
  drawn_row n n row -> Permutation row (Py.range 0 n).
Proof.
  intros (Hlen & Hnd & Hrange). apply NoDup_Permutation_bis.
  - exact Hnd.
  - rewrite range_length. unfold Py.len in Hlen. lia.
  - intros x Hx. apply In_range. now apply Hrange.
Qed.

(** C3, amended. In every discrete environment constructed with
    [completely_connected], the row of the transition table of every
    non-terminal state is a permutation of the relevant-state set; the rows
    of the terminal states are constant (each terminal state leads to
    itself under every action). *)
Theorem connected_rows_are_permutations (RL : RandomLaws RNG)
  (entropy : Z) (c : Config) (e : RLToyEnv)
  (Hinit : RLToyEnv_init entropy c = Ok e)
  (Hconnected : cfg_completely_connected c = Some true) (s : Z)
  (Hstate : 0 <= s < relevant_state_space_size (settings e)) :
  (is_terminal_state e s = false ->
   exists row, Py.get (transition_function_table (tables e)) s = Ok row
               /\ Permutation row
                    (Py.range 0 (relevant_state_space_size (settings e))))
  /\ (is_terminal_state e s = true ->
      forall a, 0 <= a < relevant_action_space_size (settings e) ->
        np_get2 (transition_function_table (tables e)) s a = Ok s).
Proof.
  split.
  - intros Hnt.
    pose proof (constructed_tables _ _ Hinit)
      as (_ & Hn & Hm & _ & _ & _ & _ & Hnum & _ & Hb & _).
    assert (Hs : 0 <= s < relevant_state_space_size (settings e)
                         - num_terminal_states (tables e)).
    { destruct (Z.lt_ge_cases s (relevant_state_space_size (settings e)
                                 - num_terminal_states (tables e)));
        [lia|].
      assert (Ht : is_terminal_state e s = true)
        by (apply (constructed_terminal _ _ s Hinit); lia).
      congruence. }
    destruct (constructed_transition_table _ _ Hinit)
      as (e2 & e3 & H3 & Ht & Hc2 & Hs2 & Hn2 & Hsp).
    pose proof (init_inv _ _ Hinit)
      as (_ & _ & _ & _ & _ & _ & _ & _ & _ & Heq & _).
    specialize (Heq Hconnected).
    destruct (init_transition_function_table _ H3) as [_ Hrows].
    { rewrite Hs2, Hn2. lia. }
    { rewrite Hn2. lia. }
    destruct (Hrows RL) with (s := s) as (row & Hrow & Hd).
    { now rewrite Hc2. }
    { rewrite Hs2, Hn2. exact Hs. }
    exists row. rewrite Ht. split; [exact Hrow|].
    apply drawn_row_Permutation.
    rewrite Hsp, Hs2, Hm, <- Heq in Hd. now rewrite Hn.
  - intros Ht a Ha. exact (@constructed_terminal_rows entropy c e s a Hinit Ht Ha).
Qed.

End TransitionTable.

(** The concrete generator draws without replacement as required. *)
Lemma lcg_laws : RandomLaws lcg_random.
Proof.
  assert (Hperm : forall (k : nat) (l : list Z), Permutation (Lcg.rotate k l) l).
  { intros k l. unfold Lcg.rotate.
    rewrite <- (firstn_skipn k l) at 3. apply Permutation_app_comm. }
  constructor; cbn [rs_choice lcg_random Lcg.choice fst]; intros a size g.
  - intros H. unfold Py.len. rewrite length_firstn.
    rewrite (Permutation_length (Hperm _ _)), range_length. lia.
  - intros H.
    set (l := Lcg.rotate _ _).
    assert (Hnd : NoDup l).
    { apply (Permutation_NoDup (Permutation_sym (Hperm _ _))), NoDup_range. }
    rewrite <- (firstn_skipn (Z.to_nat size) l) in Hnd.
    now apply NoDup_app_remove_r in Hnd.
  - intros x H Hin. apply (@In_range 0 a x).
    eapply Permutation_in; [apply Hperm|].
    rewrite <- (firstn_skipn (Z.to_nat size)). apply in_or_app. left. exact Hin.
Qed.

Lemma terminal_states_absorbing_witness :
  np_get2 (transition_function_table (tables example_env)) 5 2 = Ok 5
  /\ (cfg_transition_noise (example_config 0) = None ->
      transition_function example_env 5 2 true = Ok (5, example_env)).
Proof.
  apply (@terminal_states_absorbing _ 0 (example_config 0) example_env);
    [reflexivity | reflexivity | cbn; lia].
Defined.

Lemma connected_rows_are_permutations_witness :
  exists row, Py.get (transition_function_table (tables connected_env)) 0 = Ok row
              /\ Permutation row (Py.range 0 2).
Proof.
  assert (RL : RandomLaws lcg_random) by apply lcg_laws.
  assert (H : RLToyEnv_init 0 connected_config = Ok connected_env) by reflexivity.
  apply (proj1 (@connected_rows_are_permutations _ RL 0 connected_config
                  connected_env H eq_refl 0 ltac:(cbn; lia))).
  reflexivity.
Defined.

(** C3 as stated fails: the row of the terminal state of the two-state
    environment is [[1; 1]], no permutation of the states [[0; 1]]. *)
Lemma connected_rows_counterexample :
  RLToyEnv_init 0 connected_config = Ok connected_env
  /\ cfg_completely_connected connected_config = Some true
  /\ 0 <= 1 < relevant_state_space_size (settings connected_env)
  /\ Py.get (transition_function_table (tables connected_env)) 1 = Ok [1; 1]
  /\ ~ Permutation [1; 1] (Py.range 0 (relevant_state_space_size (settings connected_env))).
Proof.
  split; [reflexivity|]. split; [reflexivity|]. split; [cbn; lia|].
  split; [reflexivity|].
  intros H. apply Permutation_sym in H.
  apply (Permutation_in 0) in H; [|now left].
  destruct H as [H|[H|[]]]; discriminate.
Qed.

(** ** The rewardable sequences *)

Section RewardableSequences.

Context {RNG : Random}.


Lemma append_at_spec {A : Type} (l l' : list (list A)) (i : Z) (x : A) :
  0 <= i -> append_at l i x = Ok l' ->
  length l' = length l
  /\ exists li, nth_error l (Z.to_nat i) = Some li
                /\ nth_error l' (Z.to_nat i) = Some (li ++ [x])
                /\ (forall k, k <> Z.to_nat i -> nth_error l' k = nth_error l k).
Proof.
  intros Hi H. unfold append_at in H.
  bind_inv H as k eqn Ek. bind_inv H as li eqn Eli. injection H as <-.
  apply index_Ok in Ek. destruct Ek as (Hlt & [[_ ->]|[? _]]); [|lia].
  apply get_Ok in Eli. destruct Eli as (k & Hk & Hli).
  apply index_Ok in Hk. destruct Hk as (_ & [[_ ->]|[? _]]); [|lia].
  split; [now apply length_replace_at|].
  exists li. split; [exact Hli|]. split.
  - rewrite nth_error_replace_at by assumption. now rewrite Nat.eqb_refl.
  - intros k Hne. rewrite nth_error_replace_at by assumption.
    destruct (Nat.eqb_spec k (Z.to_nat i)); [contradiction | reflexivity].
Qed.

Lemma empty_lists_nth (len_ : Z) :
  0 < len_ ->
  nth_error (map (fun _ : Z => @nil (list Z)) (Py.range 0 len_)) (Z.to_nat (len_ - 1))
  = Some [].
Proof.
  intros H. rewrite nth_error_map, nth_error_range by lia. reflexivity.
Qed.


Lemma get_of_nth {A : Type} (l : list A) (i : Z) (x : A) :
  0 <= i -> nth_error l (Z.to_nat i) = Some x -> Py.get l i = Ok x.
Proof. apply get_nonneg. Qed.



End RewardableSequences.



(** ** Steps *)

Section Steps.

Context {RNG : Random}.

Lemma transition_function_frame (e e' : RLToyEnv) (state action s' : Z) :
  transition_function e state action false = Ok (s', e') ->
  config e' = config e /\ settings e' = settings e /\ tables e' = tables e
  /\ np_random (gens e') = np_random (gens e)
  /\ possible_remaining_sequences (episode e')
     = possible_remaining_sequences (episode e)
  /\ reached_terminal (episode e') = reached_terminal (episode e)
  /\ augmented_state (episode e) <> []
  /\ augmented_state (episode e')
     = tl (augmented_state (episode e)) ++ [Some s'].
Proof.
  unfold transition_function. intros H.
  bind_inv H as next_state eqn Eget.
  bind_inv H as [ns e1] eqn Enoise.
  bind_inv H as k eqn Eidx. injection H as <- <-.
  assert (He1 : config e1 = config e /\ settings e1 = settings e
                /\ tables e1 = tables e
                /\ np_random (gens e1) = np_random (gens e)
                /\ possible_remaining_sequences (episode e1)
                   = possible_remaining_sequences (episode e)
                /\ reached_terminal (episode e1) = reached_terminal (episode e)
                /\ augmented_state (episode e1) = augmented_state (episode e)).
  { destruct (cfg_transition_noise (config e)) as [noise|].
    - bind_inv Enoise as k1 eqn E1. bind_inv Enoise as [x sp] eqn E2.
      injection Enoise as _ <-. cbn. repeat split; reflexivity.
    - injection Enoise as _ <-. repeat split; reflexivity. }
  destruct He1 as (Hc & Hs & Ht & Hg & Hp & Hr & Ha).
  cbn. rewrite Ha in *. repeat split; auto.
  intros Hnil. rewrite Hnil in Eidx. discriminate.
Qed.

Lemma window_eqb_spec (w : list (option Z)) (seq_ : list Z) :
  window_eqb w seq_ = true <-> w = map Some seq_.
Proof.
  unfold window_eqb. revert seq_.
  induction w as [|x w IH]; intros [|y seq_]; cbn; try (split; congruence).
  rewrite andb_true_iff, IH. destruct x as [x|]; cbn.
  - rewrite Z.eqb_eq. split; [intros [-> ->]; reflexivity|].
    intros [= -> ->]. now split.
  - split; [intros [? _]; discriminate | discriminate].
Qed.

Lemma window_eqb_states (w seq_ : list Z) :
  window_eqb (map Some w) seq_ = seq_eqb w seq_.
Proof.
  unfold window_eqb, seq_eqb. revert seq_.
  induction w as [|x w IH]; intros [|y seq_]; cbn; try reflexivity.
  now rewrite IH.
Qed.

Lemma window_eqb_undefined (w : list (option Z)) (seq_ : list Z) :
  window_eqb (None :: w) seq_ = false.
Proof. unfold window_eqb. now destruct seq_. Qed.

(** The sparse reward of a call of [R]. *)
Lemma reward_function_sparse (e e' : RLToyEnv) (state : state_arg) (action : Z)
  (r : Q) :
  cfg_make_denser (config e) = false ->
  reward_function e state action false = Ok (r, e') ->
  config e' = config e /\ settings e' = settings e /\ tables e' = tables e
  /\ augmented_state (episode e') = augmented_state (episode e)
  /\ reached_terminal (episode e') = reached_terminal (episode e)
  /\ r = ((if Py.contains window_eqb
                (Py.slice (augmented_state (episode e)) 1
                   (augmented_state_length (settings e) - delay (settings e)))
                (rewardable_sequences e)
           then 0 + reward_scale (settings e) else 0 # 1)
          + noise_in_reward e + reward_shift (settings e))%Q.
Proof.
  intros Hsparse H. unfold reward_function in H. cbn [bind] in H.
  rewrite Hsparse in H. cbn [negb] in H.
  bind_inv H as [reward prs] eqn Er. bind_inv Er as r0 eqn Es.
  injection Er as <- <-.
  unfold sparse_reward in Es. bind_inv Es as ss eqn Ess.
  unfold noise_in_reward, rewardable_sequences. rewrite Ess.
  destruct (cfg_reward_noise (config e)) as [f|].
  - destruct (f (np_random (gens e))) as [noise g].
    injection H as <- <-. cbn. repeat split; try reflexivity.
    destruct (Py.contains _ _ _); injection Es as <-; reflexivity.
  - injection H as <- <-. cbn. repeat split; try reflexivity.
    destruct (Py.contains _ _ _); injection Es as <-; reflexivity.
Qed.

(** *** The augmented state as a window on the history *)

Lemma slice_nonneg {A : Type} (l : list A) (lo hi : Z) :
  0 <= lo <= hi -> hi <= Py.len l ->
  Py.slice l lo hi = firstn (Z.to_nat (hi - lo)) (skipn (Z.to_nat lo) l).
Proof.
  intros H1 H2. unfold Py.slice, Py.clamp.
  destruct (Z.ltb_spec lo 0); [lia|]. destruct (Z.ltb_spec hi 0); [lia|].
  rewrite !Z.min_l by lia. f_equal. lia.
Qed.

Lemma undefined_prefix (n : Z) :
  map (fun _ : Z => @None Z) (Py.range 0 n) = repeat None (Z.to_nat n).
Proof.
  unfold Py.range. rewrite Z.sub_0_r, map_map.
  generalize (Z.to_nat n) as c. intros c. generalize 0%nat as st.
  induction c as [|c IH]; intros st; cbn; [reflexivity | now rewrite IH].
Qed.

Lemma aug_of_history_padded (L : Z) (h : list Z) :
  1 <= L -> h <> [] ->
  aug_of_history L h
  = skipn (length h - 1) (repeat None (Z.to_nat (L - 1)) ++ map Some h).
Proof.
  intros HL Hh. unfold aug_of_history. rewrite undefined_prefix.
  rewrite length_app, repeat_length, length_map. f_equal.
  destruct h; [contradiction|]. cbn [length]. lia.
Qed.

Lemma aug_of_history_reset (L s : Z) :
  1 <= L ->
  aug_of_history L [s] = map (fun _ => None) (Py.range 0 (L - 1)) ++ [Some s].
Proof.
  intros HL. rewrite aug_of_history_padded by (assumption || discriminate).
  now rewrite undefined_prefix.
Qed.

Lemma tl_skipn {A : Type} (n : nat) (l : list A) : tl (skipn n l) = skipn (S n) l.
Proof.
  revert l. induction n as [|n IH]; intros [|x l]; try reflexivity.
  cbn [skipn]. rewrite IH. reflexivity.
Qed.

Lemma aug_of_history_step (L s : Z) (h : list Z) :
  1 <= L -> h <> [] ->
  tl (aug_of_history L h) ++ [Some s] = aug_of_history L (h ++ [s]).
Proof.
  intros HL Hh.
  rewrite !aug_of_history_padded by (try assumption; now destruct h).
  rewrite tl_skipn, map_app, app_assoc, length_app. cbn [length map].
  assert (Hlen : (1 <= length h)%nat) by (destruct h; [contradiction | cbn; lia]).
  replace (length h + 1 - 1)%nat with (S (length h - 1)) by lia.
  set (P := repeat None (Z.to_nat (L - 1)) ++ map Some h).
  rewrite (skipn_app (S (length h - 1)) P).
  replace (S (length h - 1) - length P)%nat with 0%nat; [reflexivity|].
  unfold P. rewrite length_app, repeat_length, length_map. lia.
Qed.

Lemma skipn_repeat {A : Type} (x : A) (n m : nat) :
  skipn n (repeat x m) = repeat x (m - n).
Proof.
  revert m. induction n as [|n IH]; intros [|m]; cbn; try reflexivity.
  apply IH.
Qed.

(** The window the reward reads is the [k] states that end [d] steps
    before the present. *)
Lemma history_window (k d : Z) (h : list Z) (R : list (list Z)) :
  0 < k -> 0 <= d -> h <> [] ->
  Py.contains window_eqb
    (Py.slice (aug_of_history (k + d + 1) h) 1 (k + d + 1 - d)) R
  = match states_ending_at h k d with
    | Some w => Py.contains seq_eqb w R
    | None => false
    end.
Proof.
  intros Hk Hd Hh.
  assert (Hlen : (1 <= length h)%nat) by (destruct h; [contradiction | cbn; lia]).
  rewrite aug_of_history_padded by (assumption || lia).
  replace (k + d + 1 - 1) with (k + d) by lia.
  set (P := repeat None (Z.to_nat (k + d)) ++ map Some h).
  assert (HP : length P = (Z.to_nat (k + d) + length h)%nat)
    by (unfold P; now rewrite length_app, repeat_length, length_map).
  rewrite slice_nonneg;
    [|lia|unfold Py.len; rewrite length_skipn, HP; lia].
  rewrite skipn_skipn.
  replace (Z.to_nat 1 + (length h - 1))%nat with (length h) by lia.
  replace (Z.to_nat (k + d + 1 - d - 1)) with (Z.to_nat k) by lia.
  unfold P. rewrite skipn_app, skipn_repeat, repeat_length, skipn_map.
  unfold states_ending_at, Py.len.
  destruct (Z.leb_spec (d + k) (Z.of_nat (length h))) as [Hold|Hyoung].
  - replace (Z.to_nat (k + d) - length h)%nat with 0%nat by lia.
    cbn [repeat app]. rewrite firstn_map.
    rewrite slice_nonneg; [|lia|unfold Py.len; lia].
    replace (Z.to_nat (Z.of_nat (length h) - d - (Z.of_nat (length h) - d - k)))
      with (Z.to_nat k) by lia.
    replace (Z.to_nat (Z.of_nat (length h) - d - k))
      with (length h - Z.to_nat (k + d))%nat by lia.
    unfold Py.contains.
    induction R as [|seq_ R IH]; [reflexivity|].
    cbn [existsb]. now rewrite window_eqb_states, IH.
  - replace (Z.to_nat (k + d) - length h)%nat
      with (S (Z.to_nat (k + d) - length h - 1)) by lia.
    replace (Z.to_nat k) with (S (Z.to_nat k - 1)) by lia.
    cbn [repeat app firstn]. unfold Py.contains.
    induction R as [|seq_ R IH]; [reflexivity|].
    cbn [existsb]. now rewrite window_eqb_undefined.
Qed.

(** *** Steps keep the tables and shift the augmented state *)

Lemma reward_function_frame (e e' : RLToyEnv) (state : state_arg) (action : Z)
  (only_query : bool) (r : Q) :
  reward_function e state action only_query = Ok (r, e') ->
  config e' = config e /\ settings e' = settings e /\ tables e' = tables e
  /\ augmented_state (episode e') = augmented_state (episode e)
  /\ reached_terminal (episode e') = reached_terminal (episode e).
Proof.
  intros H. unfold reward_function in H.
  bind_inv H as sc eqn Esc. bind_inv H as [reward prs] eqn Er.
  destruct (cfg_reward_noise (config e)) as [f|].
  - destruct (f (np_random (gens e))) as [noise g].
    injection H as <- <-. cbn. repeat split; reflexivity.
  - injection H as <- <-. cbn. repeat split; reflexivity.
Qed.

Lemma step_frame (e e' : RLToyEnv) (a s : Z) (r : Q) (done : bool) :
  step e a false = Ok ((s, r, done), e') ->
  config e' = config e /\ settings e' = settings e /\ tables e' = tables e
  /\ augmented_state (episode e) <> []
  /\ augmented_state (episode e') = tl (augmented_state (episode e)) ++ [Some s].
Proof.
  intros H. unfold step in H.
  bind_inv H as [s1 e1] eqn Et. bind_inv H as [r1 e3] eqn Er.
  bind_inv H as last eqn Elast. injection H as <- _ _ <-.
  apply transition_function_frame in Et.
  destruct Et as (Hc1 & Hs1 & Ht1 & _ & _ & _ & Hne & Ha1).
  apply reward_function_frame in Er. cbn in Er.
  destruct Er as (Hc3 & Hs3 & Ht3 & Ha3 & _).
  repeat split; congruence.
Qed.

Lemma reset_history (e e' : RLToyEnv) (s : Z) :
  1 <= augmented_state_length (settings e) ->
  reset e = Ok (s, e') ->
  augmented_state (episode e')
  = aug_of_history (augmented_state_length (settings e)) [s].
Proof.
  intros HL H. rewrite aug_of_history_reset by assumption.
  unfold reset in H. bind_inv H as [s0 g] eqn E. bind_inv H as prs eqn Eprs.
  injection H as <- <-. reflexivity.
Qed.

Lemma run_history (actions : list Z) (e e' : RLToyEnv) (outs : list (Z * Q * bool))
  (h : list Z) :
  1 <= augmented_state_length (settings e) -> h <> [] ->
  augmented_state (episode e) = aug_of_history (augmented_state_length (settings e)) h ->
  run e actions = Ok (outs, e') ->
  config e' = config e /\ settings e' = settings e /\ tables e' = tables e
  /\ augmented_state (episode e')
     = aug_of_history (augmented_state_length (settings e)) (h ++ states_of outs).
Proof.
  revert e outs h. induction actions as [|a actions IH]; intros e outs h HL Hh Haug H.
  - cbn in H. injection H as <- <-. cbn. rewrite app_nil_r. auto.
  - cbn [run] in H. bind_inv H as [[[s r] done] e1] eqn Estep.
    bind_inv H as [outs1 e2] eqn Erun. injection H as <- <-.
    apply step_frame in Estep. destruct Estep as (Hc & Hs & Ht & _ & Ha).
    rewrite Haug, aug_of_history_step in Ha by assumption.
    apply IH with (h := h ++ [s]) in Erun.
    + rewrite Hs in Erun. destruct Erun as (Hc2 & Hs2 & Ht2 & Ha2).
      cbn [states_of map fst]. rewrite <- app_assoc in Ha2.
      repeat split; try congruence. exact Ha2.
    + now rewrite Hs.
    + now destruct h.
    + now rewrite Hs.
Qed.

Lemma rewardable_sequences_frame (e e' : RLToyEnv) :
  settings e' = settings e -> tables e' = tables e ->
  rewardable_sequences e' = rewardable_sequences e.
Proof. unfold rewardable_sequences. now intros -> ->. Qed.

(** The reward of a step of a sparse environment, read off the augmented
    state the step leaves. *)
Lemma step_sparse_reward (e e' : RLToyEnv) (a s : Z) (r : Q) (done : bool) :
  cfg_make_denser (config e) = false ->
  step e a false = Ok ((s, r, done), e') ->
  let base :=
    ((if Py.contains window_eqb
           (Py.slice (augmented_state (episode e')) 1
              (augmented_state_length (settings e) - delay (settings e)))
           (rewardable_sequences e)
      then 0 + reward_scale (settings e) else 0 # 1)
     + noise_in_reward e + reward_shift (settings e))%Q in
  r = if done
      then (base + term_state_reward (settings e) * reward_scale (settings e))%Q
      else base.
Proof.
  intros Hsparse H. unfold step in H.
  bind_inv H as [s1 e1] eqn Et. bind_inv H as [r1 e3] eqn Er.
  bind_inv H as last eqn Elast. injection H as <- <- <- <-.
  apply transition_function_frame in Et.
  destruct Et as (Hc1 & Hs1 & Ht1 & Hg1 & _ & _ & _ & Ha1).
  apply reward_function_sparse in Er; [|cbn; now rewrite Hc1].
  cbn [with_curr_state with_episode config settings tables episode
         augmented_state] in Er.
  destruct Er as (Hc3 & Hs3 & Ht3 & Ha3 & _ & Hr).
  assert (Hnoise : noise_in_reward (with_curr_state e1 s1) = noise_in_reward e).
  { unfold noise_in_reward. cbn. now rewrite Hc1, Hg1. }
  assert (Hrew : rewardable_sequences (with_curr_state e1 s1)
                 = rewardable_sequences e).
  { apply rewardable_sequences_frame; cbn; assumption. }
  rewrite Hnoise, Hrew, Hs1 in Hr. rewrite Ha3, Hs3, Hs1. cbn zeta.
  rewrite <- Hr. reflexivity.
Qed.

Lemma seq_eqb_spec (w seq_ : list Z) : seq_eqb w seq_ = true <-> w = seq_.
Proof.
  unfold seq_eqb. revert seq_.
  induction w as [|x w IH]; intros [|y seq_]; cbn; try (split; congruence).
  rewrite andb_true_iff, IH, Z.eqb_eq. split; [intros [-> ->] | intros [= -> ->]]; auto.
Qed.

Lemma contains_seq_In (w : list Z) (R : list (list Z)) :
  Py.contains seq_eqb w R = true <-> In w R.
Proof.
  unfold Py.contains. rewrite existsb_exists. split.
  - intros (x & Hx & E). apply seq_eqb_spec in E. now subst.
  - intros H. exists w. split; [assumption | now apply seq_eqb_spec].
Qed.

(** C1. In a discrete environment with [make_denser] off, the reward of a
    step is [reward_scale] when the slice of the augmented state from index
    1 to [L - delay], [L = delay + sequence_length + 1], is a rewardable
    sequence, and 0 otherwise, before the reward noise, [reward_shift] and
    the terminal bonus are added; and that slice is a rewardable sequence
    exactly when the [sequence_length] states ending [delay] steps before
    the present form one. *)
Theorem sparse_reward_delay_law (e0 e1 e2 e3 : RLToyEnv) (s0 : Z)
  (actions : list Z) (outs : list (Z * Q * bool)) (a s : Z) (r : Q) (done : bool)
  (Hsparse : cfg_make_denser (config e0) = false)
  (HL : augmented_state_length (settings e0)
        = delay (settings e0) + sequence_length (settings e0) + 1)
  (Hk : 0 < sequence_length (settings e0))
  (Hd : 0 <= delay (settings e0))
  (Hreset : reset e0 = Ok (s0, e1))
  (Hrun : run e1 actions = Ok (outs, e2))
  (Hstep : step e2 a false = Ok ((s, r, done), e3)) :
  let k := sequence_length (settings e0) in
  let d := delay (settings e0) in
  let L := augmented_state_length (settings e0) in
  let window := Py.slice (augmented_state (episode e3)) 1 (L - d) in
  let paid := Py.contains window_eqb window (rewardable_sequences e0) in
  let history := s0 :: states_of outs ++ [s] in
  (r == (if paid then reward_scale (settings e0) else 0)
        + noise_in_reward e2 + reward_shift (settings e0)
        + (if done
           then term_state_reward (settings e0) * reward_scale (settings e0)
           else 0))%Q
  /\ (paid = true <->
      exists w, states_ending_at history k d = Some w
                /\ In w (rewardable_sequences e0)).
Proof.
  intros k d L window paid history.
  pose proof (reset_frame _ Hreset) as (Hc1 & Hs1 & Ht1 & _).
  assert (HL1 : 1 <= augmented_state_length (settings e0)) by lia.
  pose proof (reset_history _ HL1 Hreset) as Ha1.
  rewrite <- Hs1 in Ha1, HL1.
  pose proof (@run_history actions e1 e2 outs [s0] HL1 ltac:(discriminate) Ha1 Hrun)
    as (Hc2 & Hs2 & Ht2 & Ha2).
  pose proof (step_frame _ _ Hstep) as (Hc3 & Hs3 & Ht3 & _ & Ha3).
  assert (Hrew : rewardable_sequences e2 = rewardable_sequences e0).
  { apply rewardable_sequences_frame; congruence. }
  assert (Hset : settings e2 = settings e0) by congruence.
  split.
  - apply step_sparse_reward in Hstep; [|congruence].
    cbn zeta in Hstep. rewrite Hrew, Hset in Hstep. fold L d window paid in Hstep.
    rewrite Hstep. destruct done, paid; ring.
  - assert (Hwin : paid = match states_ending_at history k d with
                          | Some w => Py.contains seq_eqb w (rewardable_sequences e0)
                          | None => false
                          end).
    { unfold paid, window. rewrite Ha3, Ha2, aug_of_history_step;
        [|rewrite Hs1; lia|discriminate].
      rewrite Hs1. fold L. unfold L. rewrite HL. fold k d.
      replace (d + k + 1) with (k + d + 1) by lia.
      rewrite <- app_assoc. apply history_window; [exact Hk | exact Hd | discriminate]. }
    rewrite Hwin. destruct (states_ending_at history k d) as [w|].
    + rewrite contains_seq_In. split.
      * intros Hin. now exists w.
      * intros (w' & [= <-] & Hin). exact Hin.
    + split; [discriminate | intros (w & Hw & _); discriminate].
Qed.

End Steps.

Lemma sparse_reward_delay_law_witness :
  (snd (fst (fst example_step)) == 1 + 0 + 0 + 0)%Q
  /\ (Py.contains window_eqb
        (Py.slice (augmented_state (episode (snd example_step))) 1 (4 - 0))
        (rewardable_sequences example_env) = true <->
      exists w, states_ending_at (0 :: [1] ++ [2]) 3 0 = Some w
                /\ In w (rewardable_sequences example_env)).
Proof.
  apply (@sparse_reward_delay_law _ example_env (snd example_reset)
           (snd example_run) (snd example_step) 0 [3] (fst example_run)
           3 2 (1 # 1)%Q false);
    try reflexivity; cbn; lia.
Defined.

(** ** The dense reward *)

Section DenseReward.

Context {RNG : Random}.

Lemma sum_Q_snoc (l : list Q) (x : Q) : (sum_Q (l ++ [x]) == sum_Q l + x)%Q.
Proof.
  unfold sum_Q. induction l as [|y l IH]; cbn [app fold_right].
  - ring.
  - rewrite IH. ring.
Qed.

Lemma count_not_contained {A B : Type} (eqb : A -> B -> bool) (x : A) (l : list B) :
  Py.contains eqb x l = false -> Py.count eqb x l = 0.
Proof.
  unfold Py.contains, Py.count, Py.len. intros H.
  induction l as [|y l IH]; [reflexivity|].
  cbn [existsb filter] in *. apply orb_false_iff in H. destruct H as [-> H].
  now apply IH.
Qed.

(** The loop of lines 775-782 computes the sum of section 4.5. *)
Lemma dense_reward_formula (e : RLToyEnv) (state_considered : list (option Z)) (r : Q) :
  dense_reward e state_considered = Ok r ->
  (r == dense_reward_spec e state_considered)%Q.
Proof.
  unfold dense_reward, dense_reward_spec. intros H.
  pose (Q := fun (pre : list Z) (acc : Q) =>
               (acc == sum_Q (map (dense_term e state_considered) pre))%Q).
  apply for_each_ind with (Q := Q) (3 := H); unfold Q.
  - reflexivity.
  - intros pre j acc acc' Hin Hacc Hbody. apply In_range in Hin.
    bind_inv Hbody as prs_j eqn Eget.
    apply get_Ok in Eget. destruct Eget as (k & Hk & Hnth).
    apply index_Ok in Hk. destruct Hk as (_ & [[_ ->]|[? _]]); [|lia].
    assert (Hterm : dense_term e state_considered j
                    = (inject_Z (Py.count window_eqb
                                   (Py.slice state_considered
                                      (augmented_state_length (settings e) - j
                                       - delay (settings e))
                                      (augmented_state_length (settings e)
                                       - delay (settings e)))
                                   prs_j)
                       * reward_scale (settings e) * inject_Z j
                       / inject_Z (sequence_length (settings e)))%Q).
    { unfold dense_term. cbn zeta. now rewrite (nth_error_nth _ _ _ Hnth). }
    rewrite map_app. cbn [map]. rewrite sum_Q_snoc, Hterm, <- Hacc.
    destruct (Py.contains window_eqb _ prs_j) eqn:Ein.
    + injection Hbody as <-. reflexivity.
    + injection Hbody as <-. rewrite (count_not_contained _ _ _ Ein).
      unfold Qdiv. ring.
Qed.

(** The reward of a step of a dense environment: the sum of section 4.5
    over the augmented state the step leaves and the prefixes kept before
    the step, then the noise, the shift and the terminal bonus. *)
Lemma step_dense_reward (e e' : RLToyEnv) (a s : Z) (r : Q) (done : bool) :
  cfg_make_denser (config e) = true ->
  step e a false = Ok ((s, r, done), e') ->
  exists reward,
    (reward == dense_reward_spec e (augmented_state (episode e')))%Q
    /\ remaining_sequences e (augmented_state (episode e'))
       = Ok (possible_remaining_sequences (episode e'))
    /\ r = if done
           then (reward + noise_in_reward e + reward_shift (settings e)
                 + term_state_reward (settings e) * reward_scale (settings e))%Q
           else (reward + noise_in_reward e + reward_shift (settings e))%Q.
Proof.
  intros Hdense H. unfold step in H.
  bind_inv H as [s1 e1] eqn Et. bind_inv H as [r1 e3] eqn Er.
  bind_inv H as last eqn Elast. injection H as <- <- <- <-.
  apply transition_function_frame in Et.
  destruct Et as (Hc1 & Hs1 & Ht1 & Hg1 & Hp1 & _ & _ & Ha1).
  unfold reward_function in Er. cbn [bind] in Er.
  cbn [with_curr_state with_episode config] in Er.
  rewrite Hc1, Hdense in Er. cbn [negb] in Er.
  bind_inv Er as [reward prs] eqn Erew.
  bind_inv Erew as r0 eqn Ed. bind_inv Erew as prs0 eqn Ep.
  injection Erew as <- <-.
  assert (Hd : dense_reward e (tl (augmented_state (episode e)) ++ [Some s1]) = Ok r0).
  { rewrite <- Ed, <- Ha1. unfold dense_reward. cbn. now rewrite Hs1, Hp1. }
  assert (Hr : remaining_sequences e (tl (augmented_state (episode e)) ++ [Some s1])
               = Ok prs0).
  { rewrite <- Ep, <- Ha1. unfold remaining_sequences. cbn. now rewrite Hs1, Ht1. }
  apply dense_reward_formula in Hd.
  exists r0.
  assert (Hnoise : noise_in_reward e
                   = match cfg_reward_noise (config e) with
                     | Some f => fst (f (np_random (gens e1)))
                     | None => (0 # 1)%Q
                     end).
  { unfold noise_in_reward. now rewrite Hg1. }
  destruct (cfg_reward_noise (config e)) as [f|].
  - cbn in Er. destruct (f (np_random (gens e1))) as [noise g] eqn:Ef.
    injection Er as <- <-. cbn in Hnoise |- *. rewrite Ha1, Hs1, Hnoise.
    repeat split; assumption || reflexivity.
  - cbn in Er. injection Er as <- <-. cbn. rewrite Ha1, Hs1, Hnoise.
    repeat split; assumption || reflexivity.
Qed.

(** *** The prefixes kept between steps *)

Lemma extended_at_refl {A : Type} (prs : list (list A)) (j : nat) :
  extended_at prs prs j [].
Proof.
  split; [reflexivity|]. split; [reflexivity|].
  destruct (nth_error prs j); cbn; [now rewrite app_nil_r | reflexivity].
Qed.

Lemma extended_at_trans {A : Type} (prs prs1 prs2 : list (list A)) (j : nat)
  (ext1 ext2 : list A) :
  extended_at prs prs1 j ext1 -> extended_at prs1 prs2 j ext2 ->
  extended_at prs prs2 j (ext1 ++ ext2).
Proof.
  intros (Hl1 & Ho1 & Hj1) (Hl2 & Ho2 & Hj2).
  split; [congruence|]. split.
  - intros i Hi. rewrite Ho2, Ho1 by assumption. reflexivity.
  - rewrite Hj2, Hj1. destruct (nth_error prs j); cbn; [|reflexivity].
    now rewrite app_assoc.
Qed.

Lemma append_at_extended {A : Type} (prs prs' : list (list A)) (j : Z) (x : A) :
  0 <= j -> append_at prs j x = Ok prs' -> extended_at prs prs' (Z.to_nat j) [x].
Proof.
  intros Hj H. apply append_at_spec in H; [|exact Hj].
  destruct H as (Hl & li & Hli & Hli' & Ho).
  split; [exact Hl|]. split; [exact Ho|]. now rewrite Hli', Hli.
Qed.

(** The innermost loop of lines 787-790 over the sequences of one list. *)
Lemma collect_inner {A : Type} (c : list A -> bool) (f : list A -> list A) (j : Z)
  (l : list (list A)) (prs prs' : list (list (list A))) :
  0 <= j ->
  for_each l (fun prs x => if c x then append_at prs j (f x) else Ok prs) prs
  = Ok prs' ->
  extended_at prs prs' (Z.to_nat j) (map f (filter c l)).
Proof.
  intros Hj. revert prs. induction l as [|x l IH]; intros prs H.
  - cbn in H. injection H as <-. apply extended_at_refl.
  - cbn [for_each] in H. bind_inv H as prs1 eqn E1.
    apply IH in H. cbn [filter]. destruct (c x).
    + apply append_at_extended in E1; [|exact Hj].
      cbn [map]. change (f x :: map f (filter c l))
        with ([f x] ++ map f (filter c l)).
      eapply extended_at_trans; eassumption.
    + injection E1 as <-. exact H.
Qed.

(** The two inner loops of lines 787-790 over all the lists of sequences. *)
Lemma collect_middle {A : Type} (c : list A -> bool) (f : list A -> list A) (j : Z)
  (ss : list (list (list A))) (prs prs' : list (list (list A))) :
  0 <= j ->
  for_each (Py.range 0 (Py.len ss))
    (fun prs k =>
       ss_k <- Py.get ss k ;;
       for_each (Py.range 0 (Py.len ss_k))
         (fun prs l =>
            ss_kl <- Py.get ss_k l ;;
            if c ss_kl then append_at prs j (f ss_kl) else Ok prs)
         prs)
    prs = Ok prs' ->
  extended_at prs prs' (Z.to_nat j) (map f (filter c (concat ss))).
Proof.
  intros Hj H.
  rewrite (for_each_positions ss
             (fun prs ss_k =>
                for_each (Py.range 0 (Py.len ss_k))
                  (fun prs l =>
                     ss_kl <- Py.get ss_k l ;;
                     if c ss_kl then append_at prs j (f ss_kl) else Ok prs)
                  prs)) in H.
  revert prs H. induction ss as [|ss_k ss IH]; intros prs H.
  - cbn in H. injection H as <-. apply extended_at_refl.
  - cbn [for_each] in H. bind_inv H as prs1 eqn E1.
    rewrite (for_each_positions ss_k
               (fun prs x => if c x then append_at prs j (f x) else Ok prs)) in E1.
    apply collect_inner in E1; [|exact Hj]. apply IH in H.
    cbn [concat]. rewrite filter_app, map_app.
    eapply extended_at_trans; eassumption.
Qed.

(** The loop over the prefix lengths: each visited length gets its
    prefixes, the other lists stay as they are. *)
Lemma collect_outer {A : Type} (ext : Z -> list (list A))
  (body : list (list (list A)) -> Z -> result (list (list (list A))))
  (js : list Z) (prs prs' : list (list (list A))) :
  NoDup js -> (forall j, In j js -> 0 <= j) ->
  (forall j p p', In j js -> body p j = Ok p' -> extended_at p p' (Z.to_nat j) (ext j)) ->
  for_each js body prs = Ok prs' ->
  length prs' = length prs
  /\ (forall j, In j js ->
        nth_error prs' (Z.to_nat j)
        = option_map (fun lj => lj ++ ext j) (nth_error prs (Z.to_nat j)))
  /\ (forall i, (forall j, In j js -> i <> Z.to_nat j) ->
        nth_error prs' i = nth_error prs i).
Proof.
  intros Hnd Hpos Hbody. revert prs.
  induction js as [|j js IH]; intros prs H.
  - cbn in H. injection H as <-. split; [reflexivity|].
    split; [intros j []|reflexivity].
  - cbn [for_each] in H. bind_inv H as prs1 eqn E1.
    apply Hbody in E1; [|now left]. destruct E1 as (Hl1 & Ho1 & Hj1).
    inversion Hnd as [|? ? Hnotin Hnd']; subst.
    apply IH in H; auto.
    2:{ intros j0 Hj0. apply Hpos. now right. }
    2:{ intros j0 p p' Hj0. apply Hbody. now right. }
    destruct H as (Hl & Hin & Hout).
    split; [congruence|]. split.
    + intros j0 [<-|Hj0].
      * rewrite Hout, Hj1; [reflexivity|].
        intros j1 Hj1' Heq.
        assert (j = j1).
        { pose proof (Hpos j (or_introl eq_refl)).
          pose proof (Hpos j1 (or_intror Hj1')). lia. }
        subst. contradiction.
      * rewrite Hin by assumption. rewrite Ho1; [reflexivity|].
        intros Heq.
        assert (j0 = j).
        { pose proof (Hpos j (or_introl eq_refl)).
          pose proof (Hpos j0 (or_intror Hj0)). lia. }
        subst. contradiction.
    + intros i Hi. rewrite Hout.
      * apply Ho1. apply Hi. now left.
      * intros j0 Hj0. apply Hi. now right.
Qed.

Lemma remaining_sequences_kept (e : RLToyEnv) (state_considered : list (option Z))
  (prs : list (list (list Z))) :
  Py.len (specific_sequences (tables e)) = sequence_length (settings e) ->
  remaining_sequences e state_considered = Ok prs ->
  forall j, 0 <= j < sequence_length (settings e) ->
    nth_error prs (Z.to_nat j) = Some (kept_prefixes e state_considered j).
Proof.
  intros Hss H j Hj. unfold remaining_sequences in H.
  apply collect_outer with (ext := kept_prefixes e state_considered) in H.
  - destruct H as (_ & Hin & _). rewrite Hin by now apply In_range.
    rewrite nth_error_map, nth_error_range by lia. reflexivity.
  - apply NoDup_range.
  - intros j0 Hj0. apply In_range in Hj0. lia.
  - intros j0 p p' Hj0 Hb. apply In_range in Hj0. rewrite <- Hss in Hb.
    apply collect_middle in Hb; [exact Hb | lia].
Qed.

(** The prefixes [reset] starts an episode with. *)
Lemma initial_sequences_kept (e : RLToyEnv) (prs : list (list (list Z))) :
  Py.len (specific_sequences (tables e)) = sequence_length (settings e) ->
  initial_possible_remaining_sequences e = Ok prs ->
  forall j, 0 <= j < sequence_length (settings e) ->
    nth_error prs (Z.to_nat j)
    = Some (if j =? 0
            then map (fun seq_ => Py.slice_to seq_ 1)
                   (concat (specific_sequences (tables e)))
            else []).
Proof.
  intros Hss H j Hj. unfold initial_possible_remaining_sequences in H.
  apply collect_outer
    with (ext := fun _ : Z => map (fun seq_ : list Z => Py.slice_to seq_ 1)
                               (concat (specific_sequences (tables e)))) in H.
  - destruct H as (_ & Hin & Hout). destruct (Z.eqb_spec j 0) as [->|Hne].
    + rewrite Hin by (apply In_range; lia).
      rewrite nth_error_map, nth_error_range by lia. reflexivity.
    + rewrite Hout.
      * rewrite nth_error_map, nth_error_range by lia. reflexivity.
      * intros j0 Hj0. apply In_range in Hj0. lia.
  - apply NoDup_range.
  - intros j0 Hj0. apply In_range in Hj0. lia.
  - intros j0 p p' Hj0 Hb. apply In_range in Hj0.
    assert (j0 = 0) by lia. subst j0. rewrite <- Hss in Hb.
    apply (collect_middle (fun _ => true) (fun seq_ => Py.slice_to seq_ (0 + 1)))
      in Hb; [|lia].
    rewrite filter_true in Hb. exact Hb.
Qed.

End DenseReward.

Section DenseTriple.

Context {RNG : Random}.

Lemma count_map {A : Type} (w : list (option Z)) (f : A -> list Z) (l : list A) :
  Py.count window_eqb w (map f l)
  = Z.of_nat (length (filter (fun x => window_eqb w (f x)) l)).
Proof.
  unfold Py.count, Py.len. f_equal.
  induction l as [|x l IH]; [reflexivity|].
  cbn [map filter]. destruct (window_eqb w (f x)); cbn [length]; now rewrite IH.
Qed.

Lemma filter_filter {A : Type} (p q : A -> bool) (l : list A) :
  filter q (filter p l) = filter (fun x => p x && q x) l.
Proof.
  induction l as [|x l IH]; [reflexivity|].
  cbn [filter]. destruct (p x); cbn [filter andb]; [|exact IH].
  destruct (q x); now rewrite IH.
Qed.

Lemma filter_none {A : Type} (p : A -> bool) (l : list A) :
  (forall x, In x l -> p x = false) -> filter p l = [].
Proof.
  induction l as [|x l IH]; intros H; [reflexivity|].
  cbn [filter]. rewrite H by now left. apply IH. intros y Hy. apply H. now right.
Qed.

Lemma filter_unique {A : Type} (p : A -> bool) (l : list A) (x : A) :
  NoDup l -> In x l -> p x = true ->
  (forall y, In y l -> p y = true -> y = x) ->
  filter p l = [x].
Proof.
  induction l as [|y l IH]; intros Hnd Hin Hpx Huniq; [destruct Hin|].
  inversion Hnd as [|? ? Hnotin Hnd']; subst. cbn [filter].
  destruct Hin as [->|Hin].
  - rewrite Hpx. f_equal. apply filter_none. intros z Hz.
    destruct (p z) eqn:Epz; [|reflexivity].
    assert (z = x) by (apply Huniq; [now right | exact Epz]).
    subst. contradiction.
  - destruct (p y) eqn:Epy.
    + assert (y = x) by (apply Huniq; [now left | exact Epy]).
      subst. contradiction.
    + apply IH; auto. intros z Hz. apply Huniq. now right.
Qed.

(** A rewardable sequence of length three is a triple. *)
Lemma triples (R : list (list Z)) (seq_ : list Z) :
  Forall (fun seq_ => length seq_ = 3%nat) R -> In seq_ R ->
  exists x y z, seq_ = [x; y; z].
Proof.
  intros H Hin. rewrite Forall_forall in H. specialize (H _ Hin).
  destruct seq_ as [|x [|y [|z [|]]]]; try discriminate. eauto.
Qed.

(** The sum of section 4.5 for sequences of length three and no delay. *)
Lemma dense_reward_spec_triple (e : RLToyEnv) (w0 w1 w2 w3 : option Z)
  (p0 p1 p2 : list (list Z)) :
  sequence_length (settings e) = 3 -> delay (settings e) = 0 ->
  augmented_state_length (settings e) = 4 ->
  nth_error (possible_remaining_sequences (episode e)) 0 = Some p0 ->
  nth_error (possible_remaining_sequences (episode e)) 1 = Some p1 ->
  nth_error (possible_remaining_sequences (episode e)) 2 = Some p2 ->
  (dense_reward_spec e [w0; w1; w2; w3]
   == inject_Z (Py.count window_eqb [w3] p0) * reward_scale (settings e) * (1 # 3)
      + inject_Z (Py.count window_eqb [w2; w3] p1) * reward_scale (settings e) * (2 # 3)
      + inject_Z (Py.count window_eqb [w1; w2; w3] p2) * reward_scale (settings e))%Q.
Proof.
  intros Hk Hd HL H0 H1 H2.
  unfold dense_reward_spec, dense_term. rewrite Hk, Hd, HL.
  change (Py.range 1 (3 + 1)) with [1; 2; 3]. cbn [map sum_Q fold_right].
  change (Z.to_nat (1 - 1)) with 0%nat. change (Z.to_nat (2 - 1)) with 1%nat.
  change (Z.to_nat (3 - 1)) with 2%nat.
  rewrite (nth_error_nth _ _ _ H0), (nth_error_nth _ _ _ H1), (nth_error_nth _ _ _ H2).
  change (Py.slice [w0; w1; w2; w3] (4 - 1 - 0) (4 - 0)) with [w3].
  change (Py.slice [w0; w1; w2; w3] (4 - 2 - 0) (4 - 0)) with [w2; w3].
  change (Py.slice [w0; w1; w2; w3] (4 - 3 - 0) (4 - 0)) with [w1; w2; w3].
  field.
Qed.

Lemma reset_dense (e e' : RLToyEnv) (s : Z) :
  cfg_make_denser (config e) = true ->
  reset e = Ok (s, e') ->
  initial_possible_remaining_sequences e
  = Ok (possible_remaining_sequences (episode e'))
  /\ augmented_state (episode e')
     = map (fun _ => None) (Py.range 0 (augmented_state_length (settings e) - 1))
       ++ [Some s].
Proof.
  unfold reset. intros Hd H. bind_inv H as [s0 g] eqn E. rewrite Hd in H.
  bind_inv H as prs eqn Ep. injection H as <- <-. cbn. now split.
Qed.

(** The prefixes kept after a step, for sequences of length three and no
    delay, as selections from the rewardable triples [R]. *)
Lemma kept_prefixes_triple (e : RLToyEnv) (R : list (list Z)) (w0 w1 w2 w3 : option Z) :
  delay (settings e) = 0 -> augmented_state_length (settings e) = 4 ->
  specific_sequences (tables e) = [[]; []; R] ->
  kept_prefixes e [w0; w1; w2; w3] 0 = map (fun seq_ => Py.slice_to seq_ 1) R
  /\ kept_prefixes e [w0; w1; w2; w3] 1
     = map (fun seq_ => Py.slice_to seq_ 2)
         (filter (fun seq_ => window_eqb [w3] (Py.slice_to seq_ 1)) R)
  /\ kept_prefixes e [w0; w1; w2; w3] 2
     = map (fun seq_ => Py.slice_to seq_ 3)
         (filter (fun seq_ => window_eqb [w2; w3] (Py.slice_to seq_ 2)) R).
Proof.
  intros Hd HL Hss. unfold kept_prefixes. rewrite Hd, HL, Hss.
  cbn [concat app]. rewrite app_nil_r.
  change (Py.slice [w0; w1; w2; w3] (4 - 0 - 0) (4 - 0)) with (@nil (option Z)).
  change (Py.slice [w0; w1; w2; w3] (4 - 1 - 0) (4 - 0)) with [w3].
  change (Py.slice [w0; w1; w2; w3] (4 - 2 - 0) (4 - 0)) with [w2; w3].
  split; [|split; reflexivity].
  change (0 + 1) with 1. f_equal. clear Hss.
  induction R as [|seq_ R IH]; [reflexivity|].
  cbn [filter]. replace (window_eqb [] (Py.slice_to seq_ 0)) with true.
  - now rewrite IH.
  - unfold Py.slice_to, Py.slice, Py.clamp. cbn.
    rewrite Z.min_l by (unfold Py.len; lia). reflexivity.
Qed.

(** One step of a dense environment with sequences of length three and no
    delay: the reward in terms of the prefixes kept before the step, and
    the prefixes kept after it. *)
Lemma step_dense_triple (e e' : RLToyEnv) (R : list (list Z))
  (w0 w1 w2 w3 : option Z) (p0 p1 p2 : list (list Z))
  (act x : Z) (r : Q) (done : bool) :
  cfg_make_denser (config e) = true ->
  sequence_length (settings e) = 3 -> delay (settings e) = 0 ->
  augmented_state_length (settings e) = 4 ->
  specific_sequences (tables e) = [[]; []; R] ->
  augmented_state (episode e) = [w0; w1; w2; w3] ->
  nth_error (possible_remaining_sequences (episode e)) 0 = Some p0 ->
  nth_error (possible_remaining_sequences (episode e)) 1 = Some p1 ->
  nth_error (possible_remaining_sequences (episode e)) 2 = Some p2 ->
  step e act false = Ok ((x, r, done), e') ->
  (r == inject_Z (Py.count window_eqb [Some x] p0) * reward_scale (settings e) * (1 # 3)
        + inject_Z (Py.count window_eqb [w3; Some x] p1) * reward_scale (settings e) * (2 # 3)
        + inject_Z (Py.count window_eqb [w2; w3; Some x] p2) * reward_scale (settings e)
        + reward_extras e done)%Q
  /\ config e' = config e /\ settings e' = settings e /\ tables e' = tables e
  /\ augmented_state (episode e') = [w1; w2; w3; Some x]
  /\ nth_error (possible_remaining_sequences (episode e')) 0
     = Some (map (fun seq_ => Py.slice_to seq_ 1) R)
  /\ nth_error (possible_remaining_sequences (episode e')) 1
     = Some (map (fun seq_ => Py.slice_to seq_ 2)
               (filter (fun seq_ => window_eqb [Some x] (Py.slice_to seq_ 1)) R))
  /\ nth_error (possible_remaining_sequences (episode e')) 2
     = Some (map (fun seq_ => Py.slice_to seq_ 3)
               (filter (fun seq_ => window_eqb [w3; Some x] (Py.slice_to seq_ 2)) R)).
Proof.
  intros Hdense Hk Hd HL Hss Haug H0 H1 H2 Hstep.
  pose proof (step_frame _ _ Hstep) as (Hc & Hs & Ht & _ & Ha).
  rewrite Haug in Ha. cbn [tl app] in Ha.
  destruct (@step_dense_reward _ e e' act x r done Hdense Hstep)
    as (reward & Hrew & Hrem & Hr).
  rewrite Ha in Hrew, Hrem.
  rewrite (@dense_reward_spec_triple e w1 w2 w3 (Some x) p0 p1 p2
             Hk Hd HL H0 H1 H2) in Hrew.
  assert (Hlen : Py.len (specific_sequences (tables e)) = sequence_length (settings e))
    by (rewrite Hss, Hk; reflexivity).
  pose proof (@remaining_sequences_kept _ e _ _ Hlen Hrem) as Hkept.
  destruct (@kept_prefixes_triple e R w1 w2 w3 (Some x) Hd HL Hss)
    as (K0 & K1 & K2).
  split.
  { rewrite Hr. unfold reward_extras. rewrite <- Hrew. destruct done; ring. }
  repeat split; try assumption.
  - rewrite <- K0. apply (Hkept 0). lia.
  - rewrite <- K1. apply (Hkept 1). lia.
  - rewrite <- K2. apply (Hkept 2). lia.
Qed.

Lemma count_selected {A : Type} (w : list (option Z)) (f : A -> list Z)
  (p : A -> bool) (l : list A) :
  Py.count window_eqb w (map f (filter p l))
  = Z.of_nat (length (filter (fun x => p x && window_eqb w (f x)) l)).
Proof. now rewrite count_map, filter_filter. Qed.

Lemma slice_to_triple (x y z : Z) :
  Py.slice_to [x; y; z] 1 = [x] /\ Py.slice_to [x; y; z] 2 = [x; y]
  /\ Py.slice_to [x; y; z] 3 = [x; y; z].
Proof. repeat split; reflexivity. Qed.

Lemma window_eqb1 (a x : Z) : window_eqb [Some a] [x] = (a =? x).
Proof. unfold window_eqb. cbn. apply andb_true_r. Qed.

Lemma window_eqb2 (a b x y : Z) :
  window_eqb [Some a; Some b] [x; y] = (a =? x) && (b =? y).
Proof. unfold window_eqb. cbn. now rewrite andb_true_r. Qed.

Lemma window_eqb3 (a b c x y z : Z) :
  window_eqb [Some a; Some b; Some c] [x; y; z] = (a =? x) && ((b =? y) && (c =? z)).
Proof. unfold window_eqb. cbn. now rewrite andb_true_r. Qed.

(** The counts of the dense reward along a rewardable triple that shares
    no first state with the others. *)
Section Counts.

Variable R : list (list Z).
Variables s0 a b c : Z.
Hypothesis Hnodup : NoDup R.
Hypothesis Hlen : Forall (fun seq_ => length seq_ = 3%nat) R.
Hypothesis Hin : In [a; b; c] R.
Hypothesis Ha : forall y z, In [a; y; z] R -> y = b /\ z = c.
Hypothesis Hb : forall y z, ~ In [b; y; z] R.
Hypothesis Hc : forall y z, ~ In [c; y; z] R.
Hypothesis Hs0 : ~ In [s0; a; b] R.

Lemma count_first_a :
  Py.count window_eqb [Some a] (map (fun seq_ => Py.slice_to seq_ 1) R) = 1.
Proof.
  rewrite count_map. rewrite (@filter_unique _ _ R [a; b; c]); auto.
  - change (Py.slice_to [a; b; c] 1) with [a]. rewrite window_eqb1.
    apply Z.eqb_refl.
  - intros seq_ Hseq. destruct (triples _ Hlen Hseq) as (x & y & z & ->).
    change (Py.slice_to [x; y; z] 1) with [x]. rewrite window_eqb1.
    intros E. apply Z.eqb_eq in E. subst x.
    destruct (Ha _ _ Hseq) as [-> ->]. reflexivity.
Qed.

Lemma count_first_other (x0 : Z) :
  (forall y z, ~ In [x0; y; z] R) ->
  Py.count window_eqb [Some x0] (map (fun seq_ => Py.slice_to seq_ 1) R) = 0.
Proof.
  intros Hx0. rewrite count_map, filter_none; [reflexivity|].
  intros seq_ Hseq. destruct (triples _ Hlen Hseq) as (x & y & z & ->).
  change (Py.slice_to [x; y; z] 1) with [x]. rewrite window_eqb1.
  destruct (Z.eqb_spec x0 x) as [->|]; [|reflexivity].
  exfalso. exact (Hx0 _ _ Hseq).
Qed.

Lemma count_ab :
  Py.count window_eqb [Some a; Some b]
    (map (fun seq_ => Py.slice_to seq_ 2)
       (filter (fun seq_ => window_eqb [Some a] (Py.slice_to seq_ 1)) R)) = 1.
Proof.
  rewrite count_selected. rewrite (@filter_unique _ _ R [a; b; c]); auto.
  - change (Py.slice_to [a; b; c] 1) with [a].
    change (Py.slice_to [a; b; c] 2) with [a; b].
    rewrite window_eqb1, window_eqb2, !Z.eqb_refl. reflexivity.
  - intros seq_ Hseq. destruct (triples _ Hlen Hseq) as (x & y & z & ->).
    change (Py.slice_to [x; y; z] 1) with [x]. rewrite window_eqb1.
    intros E. apply andb_true_iff in E. destruct E as [E _].
    apply Z.eqb_eq in E. subst x.
    destruct (Ha _ _ Hseq) as [-> ->]. reflexivity.
Qed.

Lemma count_s0ab :
  Py.count window_eqb [Some s0; Some a; Some b]
    (map (fun seq_ => Py.slice_to seq_ 3)
       (filter (fun seq_ => window_eqb [Some s0; Some a] (Py.slice_to seq_ 2)) R)) = 0.
Proof.
  rewrite count_selected, filter_none; [reflexivity|].
  intros seq_ Hseq. destruct (triples _ Hlen Hseq) as (x & y & z & ->).
  change (Py.slice_to [x; y; z] 2) with [x; y].
  change (Py.slice_to [x; y; z] 3) with [x; y; z].
  rewrite window_eqb2, window_eqb3.
  destruct (Z.eqb_spec s0 x) as [<-|]; [|reflexivity].
  destruct (Z.eqb_spec a y) as [<-|]; [|reflexivity].
  destruct (Z.eqb_spec b z) as [<-|]; [|reflexivity].
  contradiction.
Qed.

Lemma count_bc :
  Py.count window_eqb [Some b; Some c]
    (map (fun seq_ => Py.slice_to seq_ 2)
       (filter (fun seq_ => window_eqb [Some b] (Py.slice_to seq_ 1)) R)) = 0.
Proof.
  rewrite count_selected, filter_none; [reflexivity|].
  intros seq_ Hseq. destruct (triples _ Hlen Hseq) as (x & y & z & ->).
  change (Py.slice_to [x; y; z] 1) with [x]. rewrite window_eqb1.
  destruct (Z.eqb_spec b x) as [<-|]; [|reflexivity].
  exfalso. exact (Hb _ _ Hseq).
Qed.

Lemma count_abc :
  Py.count window_eqb [Some a; Some b; Some c]
    (map (fun seq_ => Py.slice_to seq_ 3)
       (filter (fun seq_ => window_eqb [Some a; Some b] (Py.slice_to seq_ 2)) R)) = 1.
Proof.
  rewrite count_selected. rewrite (@filter_unique _ _ R [a; b; c]); auto.
  - change (Py.slice_to [a; b; c] 2) with [a; b].
    change (Py.slice_to [a; b; c] 3) with [a; b; c].
    rewrite window_eqb2, window_eqb3, !Z.eqb_refl. reflexivity.
  - intros seq_ Hseq. destruct (triples _ Hlen Hseq) as (x & y & z & ->).
    change (Py.slice_to [x; y; z] 2) with [x; y]. rewrite window_eqb2.
    intros E. apply andb_true_iff in E. destruct E as [E _].
    apply andb_true_iff in E. destruct E as [E _].
    apply Z.eqb_eq in E. subst x.
    destruct (Ha _ _ Hseq) as [-> ->]. reflexivity.
Qed.

End Counts.

(** C5, amended. In a discrete environment with [make_denser] on, the
    reward of every step is the sum over the prefix lengths [j] of
    [count_of(c_j in possible_remaining_sequences[j-1]) * reward_scale * j /
    sequence_length], plus the noise, the shift and the terminal bonus.  In
    particular, with [sequence_length = 3] and no delay, driving a rewardable
    triple [(a, b, c)] right after a reset from [s0] yields [reward_scale / 3],
    then [2 reward_scale / 3], then [reward_scale], provided the rewardable
    triples are distinct, no other one begins with [a], none begins with [b]
    or [c], and [(s0, a, b)] is not rewardable. *)
Theorem dense_reward_prefix_law :
  (forall (e e' : RLToyEnv) (act s : Z) (r : Q) (done : bool),
     cfg_make_denser (config e) = true ->
     step e act false = Ok ((s, r, done), e') ->
     (r == dense_reward_spec e (augmented_state (episode e'))
           + reward_extras e done)%Q)
  /\ (forall (e0 e1 e2 e3 e4 : RLToyEnv) (R : list (list Z))
        (s0 a b c act1 act2 act3 : Z) (r1 r2 r3 : Q) (d1 d2 d3 : bool),
        cfg_make_denser (config e0) = true ->
        sequence_length (settings e0) = 3 ->
        delay (settings e0) = 0 ->
        augmented_state_length (settings e0) = 4 ->
        specific_sequences (tables e0) = [[]; []; R] ->
        NoDup R ->
        Forall (fun seq_ => length seq_ = 3%nat) R ->
        In [a; b; c] R ->
        (forall y z, In [a; y; z] R -> y = b /\ z = c) ->
        (forall y z, ~ In [b; y; z] R) ->
        (forall y z, ~ In [c; y; z] R) ->
        ~ In [s0; a; b] R ->
        reset e0 = Ok (s0, e1) ->
        step e1 act1 false = Ok ((a, r1, d1), e2) ->
        step e2 act2 false = Ok ((b, r2, d2), e3) ->
        step e3 act3 false = Ok ((c, r3, d3), e4) ->
        (r1 == reward_scale (settings e0) * (1 # 3) + reward_extras e1 d1)%Q
        /\ (r2 == reward_scale (settings e0) * (2 # 3) + reward_extras e2 d2)%Q
        /\ (r3 == reward_scale (settings e0) + reward_extras e3 d3)%Q).
Proof.
  split.
  - intros e e' act s r done Hdense Hstep.
    destruct (@step_dense_reward _ e e' act s r done Hdense Hstep)
      as (reward & Hrew & _ & Hr).
    rewrite Hr, <- Hrew. unfold reward_extras. destruct done; ring.
  - intros e0 e1 e2 e3 e4 R s0 a b c act1 act2 act3 r1 r2 r3 d1 d2 d3
      Hdense Hk Hd HL Hss Hnodup Hlen Hin Ha Hb Hc Hs0 Hreset Hstep1 Hstep2 Hstep3.
    pose proof (reset_frame _ Hreset) as (Hc1 & Hs1 & Ht1 & _).
    destruct (@reset_dense e0 e1 s0 Hdense Hreset) as (Hprs1 & Haug1).
    rewrite HL in Haug1.
    change (map (fun _ : Z => None) (Py.range 0 (4 - 1)) ++ [Some s0])
      with [@None Z; None; None; Some s0] in Haug1.
    assert (Hsslen : Py.len (specific_sequences (tables e0))
                     = sequence_length (settings e0))
      by (rewrite Hss, Hk; reflexivity).
    pose proof (@initial_sequences_kept _ e0 _ Hsslen Hprs1) as Hinit.
    pose proof (Hinit 0 ltac:(lia)) as P0.
    pose proof (Hinit 1 ltac:(lia)) as P1.
    pose proof (Hinit 2 ltac:(lia)) as P2.
    rewrite Hss in P0. cbn [concat app Z.eqb] in P0, P1, P2.
    rewrite app_nil_r in P0.
    change (Z.to_nat 0) with 0%nat in P0. change (Z.to_nat 1) with 1%nat in P1.
    change (Z.to_nat 2) with 2%nat in P2.
    (* the first step *)
    pose proof (@step_dense_triple e1 e2 R None None None (Some s0) _ _ _
                  act1 a r1 d1
                  ltac:(congruence) ltac:(congruence) ltac:(congruence)
                  ltac:(congruence) ltac:(congruence) Haug1 P0 P1 P2 Hstep1)
      as (Hr1 & Hc2 & Hs2 & Ht2 & Haug2 & Q0 & Q1 & Q2).
    (* the second step *)
    pose proof (@step_dense_triple e2 e3 R None None (Some s0) (Some a) _ _ _
                  act2 b r2 d2
                  ltac:(congruence) ltac:(congruence) ltac:(congruence)
                  ltac:(congruence) ltac:(congruence) Haug2 Q0 Q1 Q2 Hstep2)
      as (Hr2 & Hc3 & Hs3 & Ht3 & Haug3 & T0 & T1 & T2).
    (* the third step *)
    pose proof (@step_dense_triple e3 e4 R None (Some s0) (Some a) (Some b) _ _ _
                  act3 c r3 d3
                  ltac:(congruence) ltac:(congruence) ltac:(congruence)
                  ltac:(congruence) ltac:(congruence) Haug3 T0 T1 T2 Hstep3)
      as (Hr3 & _).
    rewrite (@count_first_a R a b c Hnodup Hlen Hin Ha) in Hr1.
    rewrite (@count_first_other R Hlen b Hb) in Hr2.
    rewrite (@count_ab R a b c Hnodup Hlen Hin Ha) in Hr2.
    rewrite (@count_s0ab R s0 a b Hlen Hs0) in Hr2.
    rewrite (@count_first_other R Hlen c Hc) in Hr3.
    rewrite (@count_bc R b c Hlen Hb) in Hr3.
    rewrite (@count_abc R a b c Hnodup Hlen Hin Ha) in Hr3.
    change (Py.count window_eqb [Some s0; Some a] []) with 0 in Hr1.
    change (Py.count window_eqb [None; Some s0; Some a] []) with 0 in Hr1.
    rewrite Hs1 in Hr1. rewrite Hs2, Hs1 in Hr2. rewrite Hs3, Hs2, Hs1 in Hr3.
    split; [|split].
    + rewrite Hr1. ring.
    + rewrite Hr2. ring.
    + rewrite Hr3. ring.
Qed.

End DenseTriple.

Lemma dense_reward_prefix_law_witness :
  (snd (fst (fst single_triple_step1))
   == dense_reward_spec (snd single_triple_reset)
        (augmented_state (episode (snd single_triple_step1)))
      + reward_extras (snd single_triple_reset) false)%Q
  /\ (snd (fst (fst single_triple_step1))
      == reward_scale (settings single_triple_env) * (1 # 3)
         + reward_extras (snd single_triple_reset) false)%Q
  /\ (snd (fst (fst single_triple_step2))
      == reward_scale (settings single_triple_env) * (2 # 3)
         + reward_extras (snd single_triple_step1) false)%Q
  /\ (snd (fst (fst single_triple_step3))
      == reward_scale (settings single_triple_env)
         + reward_extras (snd single_triple_step2) false)%Q.
Proof.
  split.
  - apply (proj1 dense_reward_prefix_law (snd single_triple_reset)
             (snd single_triple_step1) 4 2); reflexivity.
  - apply (proj2 dense_reward_prefix_law single_triple_env
             (snd single_triple_reset) (snd single_triple_step1)
             (snd single_triple_step2) (snd single_triple_step3)
             [[2; 3; 4]] 0 2 3 4 4 5 5); try reflexivity.
    + repeat constructor. intros [].
    + repeat constructor.
    + now left.
    + intros y z [[= <- <-]|[]]. now split.
    + intros y z [[=]|[]].
    + intros y z [[=]|[]].
    + intros [[=]|[]].
Defined.

(** C5 as stated fails: in the environment with fifteen rewardable
    triples, driving the rewardable triple [(0, 1, 2)] from the initial
    state pays 1, 8/3 and 8/3 with [reward_scale = 1], not 1/3, 2/3 and 1:
    other rewardable triples begin with 0 and with 1, and [(3, 0, 1)] is
    rewardable too. *)
Lemma dense_reward_counterexample :
  RLToyEnv_init 0 (dense_config (1 # 4)) = Ok many_triples_env
  /\ In [0; 1; 2] (rewardable_sequences many_triples_env)
  /\ reward_scale (settings many_triples_env) = (1 # 1)%Q
  /\ run many_triples_env [1; 3; 3] = Ok many_triples_run
  /\ fst many_triples_run
     = [(0, (3 # 3)%Q, false); (1, (72 # 27)%Q, false); (2, (72 # 27)%Q, false)]
  /\ ~ (3 # 3 == 1 # 3)%Q /\ ~ (72 # 27 == 2 # 3)%Q /\ ~ (72 # 27 == 1)%Q.
Proof.
  split; [reflexivity|]. split; [apply contains_seq_In; reflexivity|].
  split; [reflexivity|]. split; [reflexivity|]. split; [reflexivity|].
  unfold Qeq. cbn. repeat split; lia.
Qed.

(** ** Steps after termination *)

Section AfterTermination.

Context {RNG : Random}.

Lemma for_each_succeeds {A S : Type} (Inv : S -> Prop) (body : S -> A -> result S)
  (xs : list A) (s0 : S) :
  Inv s0 ->
  (forall s x, In x xs -> Inv s -> exists s', body s x = Ok s' /\ Inv s') ->
  exists s', for_each xs body s0 = Ok s' /\ Inv s'.
Proof.
  revert s0. induction xs as [|x xs IH]; intros s0 H0 Hbody.
  - exists s0. now split.
  - destruct (Hbody s0 x (or_introl eq_refl) H0) as (s1 & E1 & H1).
    cbn [for_each]. rewrite E1. cbn [bind].
    apply IH; [exact H1|]. intros s y Hy. apply Hbody. now right.
Qed.

Lemma get_succeeds {A : Type} (l : list A) (i : Z) :
  0 <= i < Py.len l -> exists x, Py.get l i = Ok x.
Proof.
  intros Hi. destruct (nth_error l (Z.to_nat i)) as [x|] eqn:E.
  - exists x. apply get_nonneg; [lia | exact E].
  - apply nth_error_None in E. unfold Py.len in Hi. lia.
Qed.

Lemma append_at_succeeds {A : Type} (l : list (list A)) (j : Z) (x : A) :
  0 <= j < Py.len l ->
  exists l', append_at l j x = Ok l' /\ length l' = length l.
Proof.
  intros Hj. unfold append_at. rewrite index_nonneg by exact Hj. cbn [bind].
  destruct (get_succeeds l Hj) as (lj & ->). cbn [bind].
  eexists. split; [reflexivity|]. apply length_replace_at.
  unfold Py.len in Hj. lia.
Qed.

Lemma get_last {A : Type} (l : list A) (x : A) : Py.get (l ++ [x]) (-1) = Ok x.
Proof.
  unfold Py.get, Py.index, Py.len. rewrite length_app. cbn [length].
  change (0 <=? -1) with false. cbn [andb].
  destruct (Z.leb_spec (- Z.of_nat (length l + 1)) (-1)); [|lia].
  change (-1 <? 0) with true. cbn [andb bind].
  replace (Z.to_nat (-1 + Z.of_nat (length l + 1))) with (length l) by lia.
  rewrite nth_error_app2 by lia. now rewrite Nat.sub_diag.
Qed.

(** The lists of sequences keep their number while the sequences are
    generated. *)
Lemma init_reward_function_length (e e' : RLToyEnv) :
  init_reward_function e = Ok e' ->
  0 <= sequence_length (settings e) ->
  Py.len (specific_sequences (tables e')) = sequence_length (settings e).
Proof.
  intros H Hlen. unfold init_reward_function in H.
  destruct (cfg_repeats_in_sequences (config e)).
  { bind_inv H as [ss g] eqn E. discriminate. }
  bind_inv H as [sel g] eqn Esel. bind_inv H as [ss clashes] eqn Eloop.
  bind_inv H as u eqn Eassert. injection H as <-.
  assert (Hss : length ss = Z.to_nat (sequence_length (settings e))).
  { pose (Q := fun (pre : list Z) (st : list (list (list Z)) * Z) =>
                 length (fst st) = Z.to_nat (sequence_length (settings e))).
    apply (for_each_ind Q) with (3 := Eloop); unfold Q.
    - cbn. now rewrite length_map, range_length, Z.sub_0_r.
    - intros pre i [ss1 c1] [ss2 c2] _ Hl Hb. cbn [fst] in *.
      bind_inv Hb as cp eqn E1. bind_inv Hb as seq_ eqn E2.
      bind_inv Hb as l eqn E3. bind_inv Hb as ss3 eqn E4.
      injection Hb as <- <-.
      unfold append_at in E4. bind_inv E4 as k eqn Ek. bind_inv E4 as li eqn Eli.
      injection E4 as <-. apply index_Ok in Ek. destruct Ek as (Hk & _).
      rewrite length_replace_at by exact Hk. exact Hl. }
  destruct (1000 <? _); cbn; unfold Py.len; rewrite Hss; lia.
Qed.

Lemma constructed_sequences_length (entropy : Z) (c : Config) (e : RLToyEnv) :
  RLToyEnv_init entropy c = Ok e ->
  Py.len (specific_sequences (tables e)) = sequence_length (settings e).
Proof.
  intros Hinit.
  pose proof (constructed_tables _ _ Hinit)
    as (_ & _ & _ & _ & _ & _ & _ & _ & _ & _ & Hlen).
  pose proof (init_inv _ _ Hinit)
    as (sd & g & os & acs & e3 & e4 & s & _ & _ & _ & H3 & H4 & H5).
  apply reset_frame in H5. destruct H5 as (_ & Hs5 & Ht5 & _).
  pose proof (init_reward_function_frame _ H4) as (_ & _ & Hs4 & _).
  rewrite Ht5, Hs5, Hs4. apply init_reward_function_length; [exact H4|].
  rewrite <- Hs4, <- Hs5. lia.
Qed.

(** *** The reward computation does not raise *)

Lemma remaining_sequences_succeeds (e : RLToyEnv) (sc : list (option Z)) :
  Py.len (specific_sequences (tables e)) = sequence_length (settings e) ->
  exists prs, remaining_sequences e sc = Ok prs
              /\ Py.len prs = Z.max 0 (sequence_length (settings e)).
Proof.
  intros Hss. unfold remaining_sequences.
  set (K := sequence_length (settings e)) in *.
  pose (Inv := fun prs : list (list (list Z)) => Py.len prs = Z.max 0 K).
  apply (for_each_succeeds Inv).
  - unfold Inv, Py.len. rewrite length_map, range_length. lia.
  - intros prs j Hj Hinv. apply In_range in Hj.
    apply (for_each_succeeds Inv); [exact Hinv|].
    intros prs1 k Hk Hinv1. apply In_range in Hk.
    destruct (@get_succeeds _ (specific_sequences (tables e)) k) as (ss_k & ->);
      [lia|].
    cbn [bind]. apply (for_each_succeeds Inv); [exact Hinv1|].
    intros prs2 l Hl Hinv2. apply In_range in Hl.
    destruct (@get_succeeds _ ss_k l) as (ss_kl & ->); [lia|].
    cbn [bind]. destruct (window_eqb _ _).
    + destruct (@append_at_succeeds _ prs2 j (Py.slice_to ss_kl (j + 1)))
        as (prs3 & -> & Hlen).
      * unfold Inv in Hinv2. lia.
      * exists prs3. split; [reflexivity|]. unfold Inv, Py.len in *. lia.
    + exists prs2. now split.
Qed.

Lemma remaining_sequences_length (e : RLToyEnv) (sc : list (option Z))
  (prs : list (list (list Z))) :
  Py.len (specific_sequences (tables e)) = sequence_length (settings e) ->
  remaining_sequences e sc = Ok prs ->
  Py.len prs = Z.max 0 (sequence_length (settings e)).
Proof.
  intros Hss H. destruct (remaining_sequences_succeeds e sc Hss) as (prs' & E & Hl).
  congruence.
Qed.

Lemma dense_reward_succeeds (e : RLToyEnv) (sc : list (option Z)) :
  Py.len (possible_remaining_sequences (episode e))
  = Z.max 0 (sequence_length (settings e)) ->
  exists r, dense_reward e sc = Ok r.
Proof.
  intros Hprs. unfold dense_reward.
  destruct (@for_each_succeeds Z Q (fun _ => True)
              (fun reward j =>
                 let curr_seq_being_checked :=
                   Py.slice sc
                     (augmented_state_length (settings e) - j - delay (settings e))
                     (augmented_state_length (settings e) - delay (settings e)) in
                 prs_j <- Py.get (possible_remaining_sequences (episode e)) (j - 1) ;;
                 if Py.contains window_eqb curr_seq_being_checked prs_j
                 then
                   let count_ := Py.count window_eqb curr_seq_being_checked prs_j in
                   Ok (reward + inject_Z count_ * reward_scale (settings e) * inject_Z j
                                / inject_Z (sequence_length (settings e)))%Q
                 else Ok reward)
              (Py.range 1 (sequence_length (settings e) + 1)) (0 # 1)%Q I)
    as (r & Hr & _).
  - intros acc j Hj _. apply In_range in Hj. cbn zeta.
    destruct (@get_succeeds _ (possible_remaining_sequences (episode e)) (j - 1))
      as (prs_j & ->); [lia|].
    cbn [bind]. destruct (Py.contains _ _ _); eexists; split; auto.
  - exists r. exact Hr.
Qed.

Lemma reward_function_succeeds (e : RLToyEnv) (state : state_arg) (action : Z) :
  Py.len (specific_sequences (tables e)) = sequence_length (settings e) ->
  0 < sequence_length (settings e) ->
  (cfg_make_denser (config e) = true ->
   Py.len (possible_remaining_sequences (episode e))
   = Z.max 0 (sequence_length (settings e))) ->
  exists r e', reward_function e state action false = Ok (r, e').
Proof.
  intros Hss Hk Hprs. unfold reward_function. cbn [bind].
  destruct (cfg_make_denser (config e)); cbn [negb].
  - destruct (dense_reward_succeeds e (augmented_state (episode e)) (Hprs eq_refl))
      as (r & ->).
    destruct (remaining_sequences_succeeds e (augmented_state (episode e)) Hss)
      as (prs & -> & _).
    cbn [bind]. destruct (cfg_reward_noise (config e)) as [f|].
    + destruct (f (np_random (gens e))). eauto.
    + eauto.
  - unfold sparse_reward.
    destruct (@get_succeeds _ (specific_sequences (tables e))
                (sequence_length (settings e) - 1)) as (ss & ->); [lia|].
    cbn [bind]. destruct (Py.contains _ _ _); cbn [bind];
      (destruct (cfg_reward_noise (config e)) as [f|];
       [destruct (f (np_random (gens e))); eauto | eauto]).
Qed.

(** *** What a step leaves behind *)

Lemma is_terminal_state_tables (e e' : RLToyEnv) (s : Z) :
  tables e' = tables e -> is_terminal_state e' s = is_terminal_state e s.
Proof. intros H. unfold is_terminal_state. now rewrite H. Qed.

Lemma transition_function_counters (e e' : RLToyEnv) (state action s' : Z) :
  transition_function e state action false = Ok (s', e') ->
  total_transitions_episode (episode e')
  = total_transitions_episode (episode e) + 1
  /\ (cfg_transition_noise (config e) = None ->
      np_get2 (transition_function_table (tables e)) state action = Ok s').
Proof.
  unfold transition_function. intros H.
  bind_inv H as next_state eqn Eget.
  bind_inv H as [ns e1] eqn Enoise.
  bind_inv H as k eqn Eidx. injection H as <- <-.
  destruct (cfg_transition_noise (config e)) as [noise|].
  - bind_inv Enoise as k1 eqn E1. bind_inv Enoise as [x sp] eqn E2.
    injection Enoise as _ <-. cbn. split; [reflexivity | discriminate].
  - injection Enoise as <- <-. cbn. split; [reflexivity | intros _; reflexivity].
Qed.

Lemma reward_function_counters (e e' : RLToyEnv) (state : state_arg) (action : Z)
  (only_query : bool) (r : Q) :
  reward_function e state action only_query = Ok (r, e') ->
  curr_state (episode e') = curr_state (episode e)
  /\ total_transitions_episode (episode e') = total_transitions_episode (episode e)
  /\ (cfg_make_denser (config e) = true ->
      Py.len (specific_sequences (tables e)) = sequence_length (settings e) ->
      Py.len (possible_remaining_sequences (episode e'))
      = Z.max 0 (sequence_length (settings e))).
Proof.
  intros H. unfold reward_function in H.
  bind_inv H as sc eqn Esc. bind_inv H as [reward prs] eqn Er.
  assert (Hprs : cfg_make_denser (config e) = true ->
                 Py.len (specific_sequences (tables e))
                 = sequence_length (settings e) ->
                 Py.len prs = Z.max 0 (sequence_length (settings e))).
  { intros Hd Hss. rewrite Hd in Er. cbn [negb] in Er.
    bind_inv Er as r0 eqn E0. bind_inv Er as prs0 eqn E1.
    injection Er as _ <-. eapply remaining_sequences_length; eauto. }
  destruct (cfg_reward_noise (config e)) as [f|].
  - destruct (f (np_random (gens e))) as [noise g].
    injection H as <- <-. cbn. repeat split; auto.
  - injection H as <- <-. cbn. repeat split; auto.
Qed.

Lemma step_outcome (e e' : RLToyEnv) (a s : Z) (r : Q) (done : bool) :
  step e a false = Ok ((s, r, done), e') ->
  curr_state (episode e') = s
  /\ reached_terminal (episode e') = reached_terminal (episode e)
  /\ done = is_terminal_state e s || reached_terminal (episode e)
  /\ total_transitions_episode (episode e')
     = total_transitions_episode (episode e) + 1
  /\ (cfg_transition_noise (config e) = None ->
      np_get2 (transition_function_table (tables e)) (curr_state (episode e)) a
      = Ok s)
  /\ (cfg_make_denser (config e) = true ->
      Py.len (specific_sequences (tables e)) = sequence_length (settings e) ->
      Py.len (possible_remaining_sequences (episode e'))
      = Z.max 0 (sequence_length (settings e))).
Proof.
  intros H. unfold step in H.
  bind_inv H as [s1 e1] eqn Et. bind_inv H as [r1 e3] eqn Er.
  bind_inv H as last eqn Elast. injection H as <- _ <- <-.
  pose proof (transition_function_frame _ _ _ Et)
    as (Hc1 & Hs1 & Ht1 & _ & _ & Hr1 & _ & Ha1).
  pose proof (transition_function_counters _ _ _ Et) as (Hn1 & Hg1).
  pose proof (reward_function_frame _ _ _ _ Er) as (Hc3 & Hs3 & Ht3 & Ha3 & Hr3).
  pose proof (reward_function_counters _ _ _ _ Er) as (Hcs3 & Hn3 & Hp3).
  cbn in Hc3, Hs3, Ht3, Ha3, Hr3, Hcs3, Hn3, Hp3.
  rewrite Ha3, Ha1, get_last in Elast. injection Elast as <-.
  rewrite (@is_terminal_state_tables e e3 s1) by congruence.
  repeat split; try congruence; [exact Hg1|].
  intros Hd Hss. rewrite <- Hs1. apply Hp3; congruence.
Qed.

Lemma run_steady (actions : list Z) (e e' : RLToyEnv)
  (outs : list (Z * Q * bool)) :
  run e actions = Ok (outs, e') ->
  config e' = config e /\ settings e' = settings e /\ tables e' = tables e
  /\ reached_terminal (episode e') = reached_terminal (episode e).
Proof.
  revert e outs. induction actions as [|a actions IH]; intros e outs H.
  - cbn in H. injection H as <- <-. auto.
  - cbn [run] in H. bind_inv H as [[[s r] done] e1] eqn Estep.
    bind_inv H as [outs1 e2] eqn Erun. injection H as <- <-.
    pose proof (@step_frame _ _ _ _ _ _ _ Estep) as (Hc & Hs & Ht & _).
    pose proof (@step_outcome _ _ _ _ _ _ Estep) as (_ & Hr & _).
    apply IH in Erun. destruct Erun as (Hc2 & Hs2 & Ht2 & Hr2).
    repeat split; congruence.
Qed.

Lemma constructed_not_terminated (entropy : Z) (c : Config) (e : RLToyEnv) :
  RLToyEnv_init entropy c = Ok e -> reached_terminal (episode e) = false.
Proof.
  intros H. apply init_inv in H.
  destruct H as (sd & g & obs_seed & act_seed & e3 & e4 & s & _ & _ & _ & _ & _ & H).
  unfold reset in H. bind_inv H as [s0 g0] eqn E. bind_inv H as prs eqn Eprs.
  injection H as <- <-. reflexivity.
Qed.

Lemma step_succeeds (e : RLToyEnv) (a s : Z) :
  np_get2 (transition_function_table (tables e)) (curr_state (episode e)) a = Ok s ->
  cfg_transition_noise (config e) = None ->
  augmented_state (episode e) <> [] ->
  Py.len (specific_sequences (tables e)) = sequence_length (settings e) ->
  0 < sequence_length (settings e) ->
  (cfg_make_denser (config e) = true ->
   Py.len (possible_remaining_sequences (episode e))
   = Z.max 0 (sequence_length (settings e))) ->
  exists out e', step e a false = Ok (out, e').
Proof.
  intros Hget Hnoise Hne Hss Hk Hprs.
  assert (Ht : exists e1, transition_function e (curr_state (episode e)) a false
                          = Ok (s, e1)).
  { unfold transition_function. rewrite Hget, Hnoise. cbn [bind].
    rewrite index_nonneg.
    - cbn [bind]. eauto.
    - unfold Py.len. destruct (augmented_state (episode e)); [congruence|].
      cbn [length]. lia. }
  destruct Ht as (e1 & Ht). unfold step. rewrite Ht. cbn [bind].
  pose proof (@transition_function_frame _ _ _ _ _ _ Ht)
    as (Hc1 & Hs1 & Ht1 & _ & Hp1 & _ & _ & Ha1).
  destruct (@reward_function_succeeds (with_curr_state e1 s) (StateInt s) a)
    as (r & e3 & Hr).
  - cbn. congruence.
  - cbn. congruence.
  - cbn. rewrite Hc1, Hp1, Hs1. exact Hprs.
  - rewrite Hr. cbn [bind].
    pose proof (@reward_function_frame _ _ _ _ _ _ _ Hr) as (_ & _ & _ & Ha3 & _).
    cbn in Ha3. rewrite Ha3, Ha1, get_last. cbn [bind]. eauto.
Qed.

(** C7, amended. The code of [step] has no guard on termination: in a
    constructed environment without transition noise, after a call of [step]
    has returned [done = true], a further call of [step] with an action of the
    action space does not raise. It performs a transition like any other: it
    returns the same terminal state with [done = true] again, counts one more
    transition of the episode and shifts the augmented state. *)
Theorem step_after_termination (entropy : Z) (c : Config) (e0 e e1 : RLToyEnv)
  (actions : list Z) (outs : list (Z * Q * bool)) (a0 a s : Z) (r : Q)
  (Hinit : RLToyEnv_init entropy c = Ok e0)
  (Hrun : run e0 actions = Ok (outs, e))
  (Hdone : step e a0 false = Ok ((s, r, true), e1))
  (Hnoise : cfg_transition_noise c = None)
  (Haction : 0 <= a < cfg_action_space_size c) :
  exists r' e2,
    step e1 a false = Ok ((s, r', true), e2)
    /\ total_transitions_episode (episode e2)
       = total_transitions_episode (episode e1) + 1
    /\ augmented_state (episode e2)
       = tl (augmented_state (episode e1)) ++ [Some s].
Proof.
  pose proof (@constructed_tables _ _ _ _ Hinit)
    as (Hc0 & _ & Hm0 & _ & _ & _ & _ & _ & _ & _ & Hk0).
  pose proof (@constructed_sequences_length _ _ _ Hinit) as Hss0.
  pose proof (@constructed_not_terminated _ _ _ Hinit) as Hr0.
  pose proof (@run_steady _ _ _ _ Hrun) as (Hc & Hs & Ht & Hr).
  pose proof (@step_frame _ _ _ _ _ _ _ Hdone) as (Hc1 & Hs1 & Ht1 & _ & Ha1).
  pose proof (@step_outcome _ _ _ _ _ _ Hdone) as (Hcs1 & Hr1 & Hd1 & _ & _ & Hp1).
  assert (Hterm : is_terminal_state e0 s = true).
  { rewrite (@is_terminal_state_tables e e0 s) by congruence.
    rewrite Hr, Hr0, orb_false_r in Hd1. congruence. }
  assert (Hget : np_get2 (transition_function_table (tables e1))
                   (curr_state (episode e1)) a = Ok s).
  { rewrite Hcs1, Ht1, Ht.
    apply (@constructed_terminal_rows _ entropy c e0 s a Hinit Hterm). lia. }
  destruct (@step_succeeds e1 a s Hget) as ([[s' r'] done'] & e2 & Hstep).
  - congruence.
  - rewrite Ha1. now destruct (tl (augmented_state (episode e))).
  - congruence.
  - congruence.
  - intros Hd. rewrite Hs1. apply Hp1; congruence.
  - pose proof (@step_frame _ _ _ _ _ _ _ Hstep) as (_ & _ & _ & _ & Ha2).
    pose proof (@step_outcome _ _ _ _ _ _ Hstep) as (_ & _ & Hd2 & Hn2 & Hg2 & _).
    assert (s' = s) as ->.
    { assert (Ok s' = Ok s :> result Z) by (rewrite <- Hg2, <- Hget; congruence).
      congruence. }
    assert (done' = true) as ->.
    { rewrite Hd2, (@is_terminal_state_tables e0 e1 s) by congruence.
      now rewrite Hterm. }
    exists r', e2. auto.
Qed.

End AfterTermination.

Lemma step_after_termination_witness :
  exists r' e2,
    step (snd terminal_step1) 0 false = Ok ((5, r', true), e2)
    /\ total_transitions_episode (episode e2)
       = total_transitions_episode (episode (snd terminal_step1)) + 1
    /\ augmented_state (episode e2)
       = tl (augmented_state (episode (snd terminal_step1))) ++ [Some 5].
Proof.
  apply (@step_after_termination _ 0 (example_config 0) example_env example_env
           (snd terminal_step1) [] [] 0 0 5 (0 # 1)%Q);
    [reflexivity | reflexivity | reflexivity | reflexivity | cbn; lia].
Defined.

(** C7, as stated, fails on the example environment: the action 0 leads from
    the initial state 3 to the terminal state 5 and [step] returns
    [done = true]; the next call of [step] does not raise, it returns the
    state 5 again and counts the second transition of the episode. *)
Lemma step_after_termination_counterexample :
  RLToyEnv_init 0 (example_config 0) = Ok example_env
  /\ step example_env 0 false = Ok terminal_step1
  /\ snd (fst terminal_step1) = true
  /\ step (snd terminal_step1) 0 false = Ok terminal_step2
  /\ fst (fst (fst terminal_step2)) = 5
  /\ total_transitions_episode (episode (snd terminal_step2)) = 2.
Proof. repeat split; reflexivity. Qed.

(** ** An action outside the action box (continuous environments) *)

Lemma Qplus_zero (x : Q) : (x + (0 # 1))%Q = x.
Proof.
  destruct x as [n d]. unfold Qplus. cbn [Qnum Qden].
  f_equal; [lia | apply Pos.mul_1_r].
Qed.

Section OutOfBox.

Context {RNG : Random}.

Lemma map_Qplus_zero (x : list Q) : map (fun xi => (xi + (0 # 1))%Q) x = x.
Proof.
  induction x as [|xi x IH]; [reflexivity|].
  cbn [map]. now rewrite Qplus_zero, IH.
Qed.

(** C8, amended. When no transition noise is configured, an action outside
    the action box leaves the state alone: for a state inside the observation
    box, the transition function emits the warning and returns the state it
    was given, and the state and its derivatives are as before. A call that
    is not a query still counts as a transition: the augmented state is
    shifted and receives the unchanged state, and the transition counter
    advances. *)
Theorem out_of_box_action_keeps_state (e : Continuous.Env)
  (state : Continuous.state_ref) (action : list Q) (only_query : bool)
  (Hshape : Py.len action = Continuous.action_space_dim e)
  (Hout : Continuous.contains (Continuous.action_space e) action = false)
  (Hnoise : Continuous.transition_noise e = None)
  (Hin : Continuous.contains (Continuous.observation_space e)
           (Continuous.state_value e state) = true)
  (Haug : only_query = true \/ Continuous.augmented_state e <> []) :
  exists e',
    Continuous.transition_function e state action only_query
    = Ok (Continuous.state_value e state, e')
    /\ Continuous.state_derivatives e' = Continuous.state_derivatives e
    /\ Continuous.state_value e' state = Continuous.state_value e state
    /\ Continuous.warnings e' = Continuous.warnings e ++ [WarnActionOutOfRange]
    /\ Continuous.np_random e' = Continuous.np_random e
    /\ (only_query = true ->
        Continuous.augmented_state e' = Continuous.augmented_state e
        /\ Continuous.total_transitions_episode e'
           = Continuous.total_transitions_episode e)
    /\ (only_query = false ->
        Continuous.augmented_state e'
        = tl (Continuous.augmented_state e)
          ++ [map Some (Continuous.state_value e state)]
        /\ Continuous.total_transitions_episode e'
           = Continuous.total_transitions_episode e + 1).
Proof.
  assert (Hsd : (if match state with
                    | Continuous.CurrState => true
                    | Continuous.Other _ => false
                    end
                 then match Continuous.state_derivatives e with
                      | _ :: sd' => Continuous.state_value e state :: sd'
                      | [] => []
                      end
                 else Continuous.state_derivatives e)
                = Continuous.state_derivatives e).
  { destruct state as [|v]; [|reflexivity].
    unfold Continuous.state_value.
    now destruct (Continuous.state_derivatives e). }
  unfold Continuous.transition_function.
  rewrite Hshape, Z.eqb_refl, Hout, Hnoise. cbn [assert bind].
  rewrite map_Qplus_zero, Hin, Hsd. cbn [negb bind].
  destruct only_query.
  - eexists. split; [reflexivity|]. cbn.
    repeat split; auto; discriminate.
  - destruct Haug as [Hq | Hne]; [discriminate|].
    rewrite index_nonneg.
    + cbn [bind]. eexists. split; [reflexivity|]. cbn.
      repeat split; auto; discriminate.
    + unfold Py.len. destruct (Continuous.augmented_state e); [congruence|].
      cbn [length]. lia.
Qed.

End OutOfBox.

Lemma out_of_box_action_keeps_state_witness :
  exists e',
    Continuous.transition_function quiet_env Continuous.CurrState [(5 # 1)%Q] false
    = Ok (Continuous.state_value quiet_env Continuous.CurrState, e')
    /\ Continuous.state_derivatives e' = Continuous.state_derivatives quiet_env
    /\ Continuous.state_value e' Continuous.CurrState
       = Continuous.state_value quiet_env Continuous.CurrState
    /\ Continuous.warnings e'
       = Continuous.warnings quiet_env ++ [WarnActionOutOfRange]
    /\ Continuous.np_random e' = Continuous.np_random quiet_env
    /\ (false = true ->
        Continuous.augmented_state e' = Continuous.augmented_state quiet_env
        /\ Continuous.total_transitions_episode e'
           = Continuous.total_transitions_episode quiet_env)
    /\ (false = false ->
        Continuous.augmented_state e'
        = tl (Continuous.augmented_state quiet_env)
          ++ [map Some (Continuous.state_value quiet_env Continuous.CurrState)]
        /\ Continuous.total_transitions_episode e'
           = Continuous.total_transitions_episode quiet_env + 1).
Proof.
  apply (@out_of_box_action_keeps_state _ quiet_env Continuous.CurrState
           [(5 # 1)%Q] false);
    [reflexivity | reflexivity | reflexivity | reflexivity
    | right; discriminate].
Defined.

(** C8, as stated, fails when a transition noise is configured: [noisy_env]
    is at the state 1 and the action 5 is outside its action box, yet the
    transition function returns the state 2 and the state of the environment
    has become 2: the noise is added after the branch on the action. *)
Lemma out_of_box_action_counterexample :
  Continuous.contains (Continuous.action_space noisy_env) [(5 # 1)%Q] = false
  /\ Continuous.state_value noisy_env Continuous.CurrState = [(1 # 1)%Q]
  /\ Continuous.transition_function noisy_env Continuous.CurrState [(5 # 1)%Q] false
     = Ok noisy_step
  /\ fst noisy_step = [(2 # 1)%Q]
  /\ Continuous.state_value (snd noisy_step) Continuous.CurrState = [(2 # 1)%Q]
  /\ Continuous.warnings (snd noisy_step) = [WarnActionOutOfRange].
Proof. repeat split; reflexivity. Qed.

(** ** Determinism *)

Section Determinism.

Context {RNG : Random}.





End Determinism.


(** The construction of the example does succeed, and its trajectory under
    the actions 3, 3, 0 is the same at any entropy. *)
Lemma example_trajectory_seeded :
  trajectory 1 (example_config 0) [3; 3; 0] = Ok example_trajectory
  /\ trajectory 2 (example_config 0) [3; 3; 0] = Ok example_trajectory.
Proof. split; reflexivity. Qed.

(** * Further properties of the engine *)

(** ** The dimension codec outside its domain *)

Lemma offset_out_of_bounds (shp x : list Z) (p : nat) (n i : Z) :
  nth_error shp p = Some n -> nth_error x p = Some i ->
  i < - n \/ n <= i ->
  Np.offset shp x = Raise IndexError.
Proof.
  revert x p. induction shp as [|n0 shp IH]; intros x p Hn Hi Hbad.
  - destruct p; discriminate.
  - destruct x as [|i0 x]; [destruct p; discriminate|].
    destruct p as [|p]; cbn [nth_error] in Hn, Hi.
    + injection Hn as ->. injection Hi as ->. cbn [Np.offset].
      destruct (Z.leb_spec 0 i); destruct (Z.ltb_spec i n);
        destruct (Z.leb_spec (- n) i); destruct (Z.ltb_spec i 0);
        cbn [andb bind]; try reflexivity; lia.
    + cbn [Np.offset]. rewrite (IH x p Hn Hi Hbad).
      destruct ((0 <=? i0) && (i0 <? n0)); cbn [bind]; [reflexivity|].
      destruct ((- n0 <=? i0) && (i0 <? 0)); reflexivity.
Qed.

Lemma offset_wraps (m1 m2 x1 x2 : list Z) (n i : Z) :
  length x1 = length m1 -> 0 <= i < n ->
  Np.offset (m1 ++ n :: m2) (x1 ++ (i - n) :: x2)
  = Np.offset (m1 ++ n :: m2) (x1 ++ i :: x2).
Proof.
  revert x1. induction m1 as [|n0 m1 IH]; intros x1 Hlen Hi.
  - destruct x1; [|discriminate]. cbn [app Np.offset].
    destruct (Z.leb_spec 0 (i - n)); [lia|].
    destruct (Z.leb_spec (- n) (i - n)); [|lia].
    destruct (Z.ltb_spec (i - n) 0); [|lia].
    destruct (Z.leb_spec 0 i); [|lia].
    destruct (Z.ltb_spec i n); [|lia].
    cbn [andb bind]. now replace (i - n + n) with i by lia.
  - destruct x1 as [|i0 x1]; [discriminate|]. cbn [app Np.offset].
    rewrite IH by (cbn in Hlen; lia || assumption). reflexivity.
Qed.

(** X1. A flat index outside [[0, prod(maxes))] is not rejected by
    [transform_discrete_to_multi_discrete]: no element of the reshaped range
    equals it, and the function returns the empty vector. *)
Theorem decode_out_of_range_is_empty (maxes : list Z) (k : Z)
  (Hmaxes : Forall (fun n => 0 <= n) maxes)
  (Hk : k < 0 \/ Np.prod maxes <= k) :
  transform_discrete_to_multi_discrete k maxes = Ok [].
Proof.
  unfold transform_discrete_to_multi_discrete.
  rewrite reshape_arange by assumption. cbn [bind].
  unfold Np.argwhere_eq. cbn [Np.shape Np.data].
  rewrite filter_combine_range
    by (rewrite ndindex_length by assumption; f_equal; lia).
  destruct (Z.leb_spec 0 k); destruct (Z.ltb_spec k (Np.prod maxes));
    cbn [andb]; try reflexivity; lia.
Qed.

Lemma decode_out_of_range_is_empty_witness :
  transform_discrete_to_multi_discrete 6 [2; 3] = Ok [].
Proof.
  apply decode_out_of_range_is_empty.
  - repeat constructor; lia.
  - right. cbn. lia.
Defined.

(** X2. [transform_multi_discrete_to_discrete] raises [IndexError] as soon
    as one coordinate is outside its dimension, that is at or above the size
    of the dimension, or below its negation. *)
Theorem encode_out_of_bounds_raises (maxes x : list Z) (p : nat) (n i : Z)
  (Hmaxes : Forall (fun n => 0 <= n) maxes)
  (Hdim : nth_error maxes p = Some n)
  (Hcoord : nth_error x p = Some i)
  (Hbad : i < - n \/ n <= i) :
  transform_multi_discrete_to_discrete x maxes = Raise IndexError.
Proof.
  unfold transform_multi_discrete_to_discrete.
  rewrite reshape_arange by assumption. cbn [bind].
  unfold Np.getitem. cbn [Np.shape].
  now rewrite (offset_out_of_bounds maxes x p Hdim Hcoord Hbad).
Qed.

Lemma encode_out_of_bounds_raises_witness :
  transform_multi_discrete_to_discrete [1; 3] [2; 3] = Raise IndexError.
Proof.
  apply (@encode_out_of_bounds_raises [2; 3] [1; 3] 1 3 3);
    [repeat constructor; lia | reflexivity | reflexivity | lia].
Defined.

(** X3. A negative coordinate is a Python subscript: the coordinate [i - n]
    of a dimension of size [n] encodes as the coordinate [i] does. *)
Theorem encode_negative_coordinate_wraps (m1 m2 x1 x2 : list Z) (n i : Z)
  (Hposition : length x1 = length m1)
  (Hcoord : 0 <= i < n) :
  transform_multi_discrete_to_discrete (x1 ++ (i - n) :: x2) (m1 ++ n :: m2)
  = transform_multi_discrete_to_discrete (x1 ++ i :: x2) (m1 ++ n :: m2).
Proof.
  unfold transform_multi_discrete_to_discrete.
  unfold Np.reshape.
  destruct (forallb _ _ && _); [|reflexivity]. cbn [bind].
  unfold Np.getitem. cbn [Np.shape Np.data].
  now rewrite offset_wraps.
Qed.

Lemma encode_negative_coordinate_wraps_witness :
  transform_multi_discrete_to_discrete ([1] ++ (2 - 3) :: []) ([2] ++ 3 :: [])
  = transform_multi_discrete_to_discrete ([1] ++ 2 :: []) ([2] ++ 3 :: []).
Proof.
  apply encode_negative_coordinate_wraps; [reflexivity | lia].
Defined.

(** ** What construction rejects *)

Section ConstructionErrors.

Context {RNG : Random}.

(** X4. The checks of the constructor, in the order the constructor makes
    them, for a configuration whose seed is absent or an integer: a sequence
    length that is not positive raises [AssertionError]; so does a
    completely connected configuration whose state and action spaces differ
    in size; a configuration that asks for a user-defined MDP
    ([generate_random_mdp] off) makes the constructor exit. *)
Theorem constructor_rejects (entropy : Z) (c : Config)
  (Hseed : forall d, cfg_seed c <> SeedDict d) :
  (default (cfg_sequence_length c) 1 <= 0 ->
   RLToyEnv_init entropy c = Raise AssertionError)
  /\ (0 < default (cfg_sequence_length c) 1 ->
      cfg_completely_connected c = Some true ->
      cfg_state_space_size c <> cfg_action_space_size c ->
      RLToyEnv_init entropy c = Raise AssertionError)
  /\ (0 < default (cfg_sequence_length c) 1 ->
      (cfg_completely_connected c = Some true ->
       cfg_state_space_size c = cfg_action_space_size c) ->
      cfg_generate_random_mdp c = false ->
      RLToyEnv_init entropy c = Raise SystemExit).
Proof.
  unfold RLToyEnv_init, init_seeds.
  destruct (cfg_seed c) as [|s|d] eqn:Es; try (now destruct (Hseed d));
    unfold gen_seeds;
    destruct (rs_randint Py.maxsize _) as [s1 g1];
    destruct (rs_randint Py.maxsize g1) as [s2 g2];
    destruct (rs_randint Py.maxsize g2) as [s3 g3];
    destruct (rs_randint Py.maxsize g3) as [s4 g4];
    destruct (rs_randint Py.maxsize g4) as [s5 g5];
    destruct (rs_randint Py.maxsize g5) as [s6 g6];
    destruct (rs_randint Py.maxsize g6) as [s7 g7];
    cbn [bind];
    (split; [|split]).
  all: try (intros Hk; destruct (Z.ltb_spec 0 (default (cfg_sequence_length c) 1));
            [lia | reflexivity]).
  all: try (intros Hk Hcc Hne;
            destruct (Z.ltb_spec 0 (default (cfg_sequence_length c) 1)); [|lia];
            cbn [assert bind]; rewrite Hcc;
            destruct (Z.eqb_spec (cfg_state_space_size c) (cfg_action_space_size c));
            [contradiction | reflexivity]).
  all: intros Hk Hcc Hgen;
    destruct (Z.ltb_spec 0 (default (cfg_sequence_length c) 1)); [|lia];
    cbn [assert bind];
    destruct (cfg_completely_connected c) as [[|]|];
    [rewrite (Hcc eq_refl), Z.eqb_refl; cbn [assert bind] | | ];
    cbn [Py.dict_get String.eqb Ascii.eqb Bool.eqb bind];
    rewrite Hgen; reflexivity.
Qed.

Lemma dict_get_map {V W : Type} (f : V -> W) (d : list (string * V)) (k : string) :
  Py.dict_get (map (fun kv => (fst kv, f (snd kv))) d) k
  = match Py.dict_get d k with
    | Ok v => Ok (f v)
    | Raise x => Raise x
    end.
Proof.
  induction d as [|[k' v] d IH]; [reflexivity|].
  cbn [map Py.dict_get fst snd]. now destruct (String.eqb k k').
Qed.

(** X5. A dictionary of seeds is taken as it is, nothing is generated for a
    missing entry: without an entry for the environment itself the
    constructor raises [KeyError], and so it does, once its assertions have
    passed, without one for the relevant state space. *)
Theorem seed_dict_missing_key (entropy : Z) (c : Config) (d : list (string * Z))
  (Hseed : cfg_seed c = SeedDict d) :
  (Py.dict_get d "env" = Raise KeyError ->
   RLToyEnv_init entropy c = Raise KeyError)
  /\ (forall env_seed,
        Py.dict_get d "env" = Ok env_seed ->
        Py.dict_get d "relevant_state_space" = Raise KeyError ->
        0 < default (cfg_sequence_length c) 1 ->
        (cfg_completely_connected c = Some true ->
         cfg_state_space_size c = cfg_action_space_size c) ->
        RLToyEnv_init entropy c = Raise KeyError).
Proof.
  unfold RLToyEnv_init, init_seeds. rewrite Hseed. split.
  - intros H. rewrite dict_get_map, H. reflexivity.
  - intros env_seed He Hr Hk Hcc. rewrite dict_get_map, He. cbn [bind].
    destruct (Z.ltb_spec 0 (default (cfg_sequence_length c) 1)); [|lia].
    cbn [assert bind].
    assert (Hobs : Py.dict_get (map (fun kv => (fst kv, Some (snd kv))) d)
                     "relevant_state_space" = Raise KeyError)
      by (now rewrite dict_get_map, Hr).
    destruct (cfg_completely_connected c) as [[|]|].
    + rewrite (Hcc eq_refl), Z.eqb_refl. cbn [assert bind]. now rewrite Hobs.
    + cbn [bind]. now rewrite Hobs.
    + cbn [bind]. now rewrite Hobs.
Qed.

End ConstructionErrors.

Lemma constructor_rejects_witness :
  RLToyEnv_init 0 rejected_config = Raise AssertionError.
Proof.
  apply (proj1 (@constructor_rejects _ 0 rejected_config
                  ltac:(intros d; discriminate))).
  cbn. lia.
Defined.

Lemma seed_dict_missing_key_witness :
  RLToyEnv_init 0 seed_dict_config = Raise KeyError.
Proof.
  apply (proj1 (@seed_dict_missing_key _ 0 seed_dict_config
                  [("relevant_state_space"%string, 6)] eq_refl)).
  reflexivity.
Defined.

(** ** The shape and the range of the transition table *)

Lemma In_firstn {A : Type} (k : nat) (l : list A) (x : A) :
  In x (firstn k l) -> In x l.
Proof.
  intros H. rewrite <- (firstn_skipn k l). apply in_or_app. now left.
Qed.

Lemma In_skipn {A : Type} (k : nat) (l : list A) (x : A) :
  In x (skipn k l) -> In x l.
Proof.
  intros H. rewrite <- (firstn_skipn k l). apply in_or_app. now right.
Qed.

Lemma Forall_replace_at {A : Type} (P : A -> Prop) (l : list A) (k : nat) (v : A) :
  Forall P l -> P v -> Forall P (Py.replace_at l k v).
Proof.
  intros Hl Hv. rewrite Forall_forall in *. unfold Py.replace_at.
  intros x Hx. apply in_app_or in Hx. destruct Hx as [Hx|[<-|Hx]].
  - apply Hl. eapply In_firstn; eauto.
  - exact Hv.
  - apply Hl. eapply In_skipn; eauto.
Qed.

Lemma np_set2_rows (m : Z) (t t' : list (list Z)) (s a v : Z) :
  np_set2 t s a v = Ok t' ->
  Forall (fun row => Py.len row = m) t ->
  length t' = length t /\ Forall (fun row => Py.len row = m) t'.
Proof.
  unfold np_set2. intros H Hrows.
  bind_inv H as i eqn Ei. bind_inv H as row eqn Erow. bind_inv H as j eqn Ej.
  injection H as <-.
  apply index_Ok in Ei. destruct Ei as (Hi & _).
  apply index_Ok in Ej. destruct Ej as (Hj & _).
  apply get_Ok in Erow. destruct Erow as (k & _ & Hk).
  split; [now apply length_replace_at|].
  apply Forall_replace_at; [exact Hrows|].
  unfold Py.len. rewrite length_replace_at by assumption.
  rewrite Forall_forall in Hrows. apply (Hrows row).
  eapply nth_error_In; eauto.
Qed.

Lemma np_set_row_rows (m : Z) (t t' : list (list Z)) (s : Z) (row : list Z) :
  0 <= m -> np_set_row t m s row = Ok t' ->
  Forall (fun row => Py.len row = m) t ->
  length t' = length t /\ Forall (fun row => Py.len row = m) t'.
Proof.
  unfold np_set_row. intros Hm H Hrows.
  bind_inv H as i eqn Ei. apply index_Ok in Ei. destruct Ei as (Hi & _).
  assert (G : forall r, Py.len r = m ->
                length (Py.replace_at t i r) = length t
                /\ Forall (fun row => Py.len row = m) (Py.replace_at t i r)).
  { intros r Hr. split; [now apply length_replace_at|].
    now apply Forall_replace_at. }
  assert (Hrep : forall x : Z, Py.len (repeat x (Z.to_nat m)) = m).
  { intros x. unfold Py.len. rewrite repeat_length. lia. }
  destruct row as [|x [|y row]].
  - destruct (Z.eqb_spec (Py.len (@nil Z)) m); [|discriminate].
    injection H as <-. now apply G.
  - injection H as <-. apply G, Hrep.
  - destruct (Z.eqb_spec (Py.len (x :: y :: row)) m); [|discriminate].
    injection H as <-. now apply G.
Qed.

Section TableShape.

Context {RNG : Random}.

Lemma sampled_row_loop (DL : DrawLaws RNG) (s m : Z) (t t' : list (list Z))
  (sp sp' : DiscreteExtended) :
  0 <= s -> 0 < space_n sp ->
  for_each (Py.range 0 m)
    (fun '(t, sp) a =>
       let '(x, sp') := sample sp in
       t' <- np_set2 t s a x ;;
       Ok (t', sp'))
    (t, sp) = Ok (t', sp') ->
  space_n sp' = space_n sp
  /\ length t' = length t
  /\ (forall s', s' <> Z.to_nat s -> nth_error t' s' = nth_error t s')
  /\ (forall a, 0 <= a < m ->
        exists x, entry t' (Z.to_nat s) (Z.to_nat a) = Some x
                  /\ 0 <= x < space_n sp).
Proof.
  intros Hs Hn Hrun.
  pose (Q := fun (pre : list Z) (st : list (list Z) * DiscreteExtended) =>
              space_n (snd st) = space_n sp
              /\ length (fst st) = length t
              /\ (forall s', s' <> Z.to_nat s ->
                    nth_error (fst st) s' = nth_error t s')
              /\ (forall a, In a pre ->
                    exists x, entry (fst st) (Z.to_nat s) (Z.to_nat a) = Some x
                              /\ 0 <= x < space_n sp)).
  assert (HQ : Q (Py.range 0 m) (t', sp')).
  { apply for_each_ind with (Q := Q) (3 := Hrun); unfold Q; cbn [fst snd].
    - repeat split; try reflexivity. intros a [].
    - intros pre a [tc spc] [t1 sp1] Hin (Hsp & Hl & Ho & Ha) Hbody.
      cbn [fst snd] in *. apply In_range in Hin.
      unfold sample in Hbody.
      pose proof (@rs_randint_range _ DL (space_n spc) (space_np_random spc)) as Hr.
      destruct (rs_randint (space_n spc) (space_np_random spc)) as [x g].
      cbn [fst] in Hr. rewrite Hsp in Hr. specialize (Hr Hn).
      bind_inv Hbody as t2 eqn Eset. injection Hbody as <- <-.
      apply np_set2_entry in Eset; [|lia|lia].
      destruct Eset as (Hl1 & Ho1 & row & Hrow & Hlt & Hrow1).
      cbn [space_n]. split; [exact Hsp|]. split; [congruence|]. split.
      + intros s' Hne. rewrite Ho1 by assumption. now apply Ho.
      + intros a0 Hin0. unfold entry. rewrite Hrow1.
        rewrite nth_error_replace_at by assumption.
        destruct (Nat.eqb_spec (Z.to_nat a0) (Z.to_nat a)) as [_|Hne];
          [exists x; split; [reflexivity | exact Hr]|].
        apply in_app_or in Hin0. destruct Hin0 as [Hin0|[<-|[]]]; [|congruence].
        specialize (Ha _ Hin0). unfold entry in Ha. now rewrite Hrow in Ha. }
  destruct HQ as (Hsp & Hl & Ho & Ha). cbn [fst snd] in *.
  repeat split; auto. intros a Hin. apply Ha. now apply In_range.
Qed.

Lemma sampled_rows_loop (DL : DrawLaws RNG) (n m : Z) (t t' : list (list Z))
  (sp sp' : DiscreteExtended) :
  0 < space_n sp ->
  for_each (Py.range 0 n)
    (fun st s =>
       for_each (Py.range 0 m)
         (fun '(t, sp) a =>
            let '(x, sp') := sample sp in
            t' <- np_set2 t s a x ;;
            Ok (t', sp'))
         st)
    (t, sp) = Ok (t', sp') ->
  length t' = length t
  /\ (forall s a, 0 <= s < n -> 0 <= a < m ->
        exists x, entry t' (Z.to_nat s) (Z.to_nat a) = Some x
                  /\ 0 <= x < space_n sp).
Proof.
  intros Hn Hrun.
  pose (Q := fun (pre : list Z) (st : list (list Z) * DiscreteExtended) =>
              space_n (snd st) = space_n sp
              /\ length (fst st) = length t
              /\ (forall s, In s pre -> 0 <= s)
              /\ (forall s a, In s pre -> 0 <= a < m ->
                    exists x, entry (fst st) (Z.to_nat s) (Z.to_nat a) = Some x
                              /\ 0 <= x < space_n sp)).
  assert (HQ : Q (Py.range 0 n) (t', sp')).
  { apply for_each_ind with (Q := Q) (3 := Hrun); unfold Q; cbn [fst snd].
    - split; [reflexivity|]. split; [reflexivity|].
      split; [intros s [] | intros s a []].
    - intros pre s [tc spc] [t1 sp1] Hin (Hsp & Hl & Hpos & Ha) Hbody.
      cbn [fst snd] in *. apply In_range in Hin.
      apply (sampled_row_loop DL) in Hbody; [|lia|lia].
      destruct Hbody as (Hsp1 & Hl1 & Ho1 & Ha1).
      split; [congruence|]. split; [congruence|]. split.
      + intros s0 Hin0. apply in_app_or in Hin0.
        destruct Hin0 as [Hin0|[<-|[]]]; [now apply Hpos | lia].
      + intros s0 a Hin0 Hr.
        destruct (Z.eq_dec s0 s) as [->|Hne].
        * rewrite <- Hsp. now apply Ha1.
        * apply in_app_or in Hin0. destruct Hin0 as [Hin0|[<-|[]]]; [|congruence].
          pose proof (Hpos _ Hin0). unfold entry. rewrite Ho1 by lia.
          now apply Ha. }
  destruct HQ as (Hsp & Hl & _ & Ha). cbn [fst snd] in *.
  split; [exact Hl|]. intros s a Hs Hr. apply Ha; [now apply In_range | exact Hr].
Qed.

Lemma for_each_preserves {A S : Type} (P : S -> Prop) (body : S -> A -> result S)
  (xs : list A) (s0 s' : S) :
  P s0 ->
  (forall x s s1, In x xs -> P s -> body s x = Ok s1 -> P s1) ->
  for_each xs body s0 = Ok s' ->
  P s'.
Proof.
  intros H0 Hstep Hrun.
  apply for_each_ind with (Q := fun _ => P) (3 := Hrun); [exact H0|].
  intros pre x s s1 Hin HP Hb. eapply Hstep; eauto.
Qed.

(** The table after [init_transition_function]: as many rows as states, as
    many columns as actions, every entry a state. *)
Lemma init_transition_function_well_formed (RL : RandomLaws RNG) (DL : DrawLaws RNG)
  (e e' : RLToyEnv) :
  init_transition_function e = Ok e' ->
  let n := relevant_state_space_size (settings e) in
  let m := relevant_action_space_size (settings e) in
  let num := num_terminal_states (tables e) in
  let t := transition_function_table (tables e') in
  0 <= n - num -> 0 <= num -> 0 < n ->
  space_n (relevant_observation_space (gens e)) = n ->
  Py.len t = n
  /\ Forall (fun row => Py.len row = m) t
  /\ (forall s a, 0 <= s < n -> 0 <= a < m ->
        exists x, np_get2 t s a = Ok x /\ 0 <= x < n).
Proof.
  intros H n m num t Hlo Hnum Hn HN. unfold init_transition_function in H.
  bind_inv H as t0 eqn E0. bind_inv H as cc eqn Ecc.
  bind_inv H as [t1 sp] eqn E1. bind_inv H as t2 eqn E2.
  bind_inv H as x eqn E3. injection H as <-.
  subst t. cbn [with_relevant_observation_space with_gens with_tables tables
                  transition_function_table].
  fold n m num in E0, E1, E2.
  pose (shaped := fun t : list (list Z) =>
                    length t = Z.to_nat n /\ Forall (fun row => Py.len row = m) t).
  unfold np_full in E0.
  destruct (Z.ltb_spec n 0) as [|Hn0]; [discriminate|].
  destruct (Z.ltb_spec m 0) as [|Hm0]; [discriminate|].
  cbn [orb] in E0. injection E0 as <-.
  assert (H0 : shaped (repeat (repeat (-1) (Z.to_nat m)) (Z.to_nat n))).
  { split; [apply repeat_length|]. apply Forall_forall. intros row Hrow.
    apply repeat_spec in Hrow. subst row. unfold Py.len.
    rewrite repeat_length. lia. }
  assert (H1 : shaped t1).
  { destruct cc.
    - apply (for_each_preserves (fun st => shaped (fst st))) in E1;
        [exact E1 | exact H0 |].
      intros s [tc spc] [tc1 spc1] _ (Hl & Hr) Hb. cbn [fst] in *.
      bind_inv Hb as [row sp'] eqn Es. bind_inv Hb as t' eqn Et.
      injection Hb as <- <-.
      destruct (@np_set_row_rows m _ _ _ _ Hm0 Et Hr) as (Hl' & Hr').
      split; [congruence | exact Hr'].
    - apply (for_each_preserves (fun st => shaped (fst st))) in E1;
        [exact E1 | exact H0 |].
      intros s st st1 _ Hst Hb.
      apply (for_each_preserves (fun st => shaped (fst st))) in Hb;
        [exact Hb | exact Hst |].
      intros a [tc spc] [tc1 spc1] _ (Hl & Hr) Hb1. cbn [fst] in *.
      destruct (sample spc) as [v sp']. bind_inv Hb1 as t' eqn Et.
      injection Hb1 as <- <-.
      destruct (@np_set2_rows m _ _ _ _ _ Et Hr) as (Hl' & Hr').
      split; [congruence | exact Hr']. }
  assert (H2' : shaped t2).
  { apply (for_each_preserves shaped) in E2; [exact E2 | exact H1 |].
    intros s tc tc1 _ Hst Hb.
    apply (for_each_preserves shaped) in Hb; [exact Hb | exact Hst |].
    intros a tc2 tc3 _ (Hl & Hr) Hb1.
    bind_inv Hb1 as u eqn Ea.
    destruct (@np_set2_rows m _ _ _ _ _ Hb1 Hr) as (Hl' & Hr').
    split; [congruence | exact Hr']. }
  destruct H2' as (Hlen2 & Hrows2).
  split; [unfold Py.len; lia|]. split; [exact Hrows2|].
  apply terminal_rows_loop in E2; [|exact Hlo].
  destruct E2 as (Hl2 & Ho2 & Ha2).
  intros s a Hs Ha.
  destruct (Z.lt_ge_cases s (n - num)) as [Hnt|Ht].
  - assert (Hentry : exists x, entry t1 (Z.to_nat s) (Z.to_nat a) = Some x
                               /\ 0 <= x < n).
    { destruct cc.
      - apply (connected_rows_loop RL) in E1. destruct E1 as (_ & Hrows).
        destruct (Hrows s) as (row & Hrow & Hl & _ & Hin); [lia|].
        unfold entry. rewrite Hrow.
        destruct (nth_error row (Z.to_nat a)) as [v|] eqn:Ev.
        + exists v. split; [reflexivity|]. rewrite <- HN. apply Hin.
          eapply nth_error_In; eauto.
        + apply nth_error_None in Ev. unfold Py.len in Hl. lia.
      - apply (sampled_rows_loop DL) in E1; [|lia].
        destruct E1 as (_ & Hent). rewrite <- HN.
        apply Hent; lia. }
    destruct Hentry as (v & Hv & Hr). exists v. split; [|exact Hr].
    apply np_get2_entry; [lia | lia |].
    unfold entry in *. rewrite Ho2 by lia. exact Hv.
  - exists s. split; [|lia].
    apply np_get2_entry; [lia | lia |]. apply Ha2; lia.
Qed.

Lemma constructed_table_well_formed (RL : RandomLaws RNG) (DL : DrawLaws RNG)
  (entropy : Z) (c : Config) (e : RLToyEnv) :
  RLToyEnv_init entropy c = Ok e ->
  well_formed_table (relevant_state_space_size (settings e))
    (relevant_action_space_size (settings e))
    (transition_function_table (tables e)).
Proof.
  intros Hinit.
  pose proof (@constructed_tables _ _ _ _ Hinit)
    as (Hc & Hn & Hm & _ & _ & _ & _ & Hnum & _ & Hb & _).
  destruct (@constructed_transition_table _ _ _ _ Hinit)
    as (e2 & e3 & H3 & Ht & Hc2 & Hs2 & Hn2 & HN).
  pose proof (@init_transition_function_well_formed RL DL e2 e3 H3) as Hwf.
  cbn zeta in Hwf. rewrite Hs2, Hn2, HN, <- Ht in Hwf.
  rewrite <- Hnum in Hb.
  destruct Hwf as (Hl & Hr & He); try lia.
  split; [exact Hl|]. split; [|exact He].
  now apply Forall_forall.
Qed.

(** X6. The transition table of a constructed environment has one row per
    state and one column per action, and each of its entries is a state:
    [P] is a total function from states and actions to states. *)
Theorem transition_table_well_formed (RL : RandomLaws RNG) (DL : DrawLaws RNG)
  (entropy : Z) (c : Config) (e : RLToyEnv)
  (Hinit : RLToyEnv_init entropy c = Ok e) :
  let n := relevant_state_space_size (settings e) in
  let m := relevant_action_space_size (settings e) in
  let t := transition_function_table (tables e) in
  Py.len t = n
  /\ (forall row, In row t -> Py.len row = m)
  /\ (forall s a, 0 <= s < n -> 0 <= a < m ->
        exists s', np_get2 t s a = Ok s' /\ 0 <= s' < n).
Proof.
  exact (@constructed_table_well_formed RL DL entropy c e Hinit).
Qed.

End TableShape.

Lemma sum_Q_nonpos (p : list Q) :
  (forall q, In q p -> (q <= 0)%Q) -> (sum_Q p <= 0)%Q.
Proof.
  induction p as [|q p IH]; intros H; unfold sum_Q; cbn [fold_right].
  - apply Qle_refl.
  - fold (sum_Q p).
    assert (Hq : (q <= 0)%Q) by (apply H; now left).
    assert (Hp : (sum_Q p <= 0)%Q) by (apply IH; intros q' Hq'; apply H; now right).
    replace (0 # 1)%Q with (0 + 0)%Q by reflexivity.
    now apply Qplus_le_compat.
Qed.

Lemma lcg_draw_laws : DrawLaws lcg_random.
Proof.
  split.
  - intros high g Hh. cbn. unfold Lcg.randint. cbn [fst].
    destruct (Z.ltb_spec 0 high); [|lia].
    apply Z.mod_pos_bound. lia.
  - intros p g Hnn Hsum. cbn. unfold Lcg.choice_p. cbn [fst].
    set (support := filter _ _).
    assert (Hne : support <> []).
    { intros Hnil. apply Qeq_bool_iff in Hsum.
      assert (Hle : (sum_Q p <= 0)%Q).
      { apply sum_Q_nonpos. intros q Hq.
        destruct (In_nth _ _ (0 # 1)%Q Hq) as (i & Hi & Hnth).
        assert (Hin : In (Z.of_nat i) (Py.range 0 (Py.len p)))
          by (apply In_range; unfold Py.len; lia).
        assert (Hf : ~ In (Z.of_nat i) support) by (rewrite Hnil; intros []).
        unfold support in Hf. rewrite filter_In in Hf.
        destruct (Qle_bool (nth (Z.to_nat (Z.of_nat i)) p (0 # 1)%Q) (0 # 1)) eqn:E.
        - apply Qle_bool_iff in E. now rewrite Nat2Z.id, Hnth in E.
        - exfalso. apply Hf. split; [exact Hin | reflexivity]. }
      rewrite Hsum in Hle. now apply Qle_bool_iff in Hle. }
    assert (Hin : In (nth (Z.to_nat (Lcg.next g mod Py.len support)) support 0)
                     support).
    { apply nth_In.
      assert (0 < Py.len support)
        by (unfold Py.len; destruct support; [congruence | cbn [length]; lia]).
      pose proof (Z.mod_pos_bound (Lcg.next g) (Py.len support) H).
      unfold Py.len in *. lia. }
    set (x := nth _ support 0) in *.
    unfold support in Hin. apply filter_In in Hin. destruct Hin as (Hr & Hpos).
    apply In_range in Hr. split; [lia|].
    exists (nth (Z.to_nat x) p (0 # 1)%Q). split.
    + apply nth_error_nth'. unfold Py.len in Hr. lia.
    + destruct (Qle_bool (nth (Z.to_nat x) p (0 # 1)%Q) (0 # 1)) eqn:E;
        [discriminate|].
      apply Qnot_le_lt. intros Hle. apply Qle_bool_iff in Hle. congruence.
Qed.

Lemma transition_table_well_formed_witness :
  let n := relevant_state_space_size (settings example_env) in
  let m := relevant_action_space_size (settings example_env) in
  let t := transition_function_table (tables example_env) in
  Py.len t = n
  /\ (forall row, In row t -> Py.len row = m)
  /\ (forall s a, 0 <= s < n -> 0 <= a < m ->
        exists s', np_get2 t s a = Ok s' /\ 0 <= s' < n).
Proof.
  apply (@transition_table_well_formed _ lcg_laws lcg_draw_laws 0
           (example_config 0) example_env).
  reflexivity.
Defined.

(** ** Sessions: calls of [step] and [reset] on a constructed environment *)

Section Sessions.

Context {RNG : Random}.

Lemma reset_start_state (DL : DrawLaws RNG) (e e' : RLToyEnv) (s : Z) :
  reset e = Ok (s, e') ->
  0 <= s < relevant_state_space_size (settings e)
  /\ (exists q, nth_error (relevant_init_state_dist (tables e)) (Z.to_nat s) = Some q
                /\ (0 < q)%Q)
  /\ curr_state (episode e') = s
  /\ augmented_state (episode e')
     = map (fun _ => None) (Py.range 0 (augmented_state_length (settings e) - 1))
       ++ [Some s]
  /\ reached_terminal (episode e') = false
  /\ total_transitions_episode (episode e') = 0
  /\ total_episodes e' = total_episodes e + 1
  /\ space_n (relevant_observation_space (gens e'))
     = space_n (relevant_observation_space (gens e)).
Proof.
  unfold reset. intros H. bind_inv H as [s0 g] eqn E. bind_inv H as prs eqn Ep.
  injection H as <- <-. cbn.
  unfold np_choice_p in E.
  destruct (Z.eqb_spec (Py.len (relevant_init_state_dist (tables e)))
              (relevant_state_space_size (settings e))) as [Hlen|]; [|discriminate].
  destruct (forallb (Qle_bool (0 # 1)) (relevant_init_state_dist (tables e)))
    eqn:Hnn; [|discriminate].
  destruct (Qeq_bool (sum_Q (relevant_init_state_dist (tables e))) (1 # 1))
    eqn:Hsum; [|discriminate].
  cbn [andb] in E.
  pose proof (@rs_choice_p_support _ DL _ (np_random (gens e)) Hnn Hsum)
    as (Hpos & q & Hq & Hlt).
  injection E as E. rewrite E in *. cbn [fst] in *.
  assert (Z.to_nat s0 < length (relevant_init_state_dist (tables e)))%nat
    by (apply nth_error_Some; congruence).
  unfold Py.len in Hlen.
  repeat split; try reflexivity; try lia. eauto.
Qed.


Lemma np_get2_in_range (n m : Z) (t : list (list Z)) (s a x : Z) :
  well_formed_table n m t -> np_get2 t s a = Ok x -> 0 <= x < n.
Proof.
  intros (Hlen & Hrows & Hent) H. unfold np_get2 in H.
  bind_inv H as row eqn Erow.
  apply get_Ok in Erow. destruct Erow as (k & Hk & Hrow).
  apply get_Ok in H. destruct H as (j & Hj & Hx).
  apply index_Ok in Hk. destruct Hk as (Hk & _).
  apply index_Ok in Hj. destruct Hj as (Hj & _).
  assert (Hm : Py.len row = m) by (apply Hrows; eapply nth_error_In; eauto).
  unfold Py.len in *.
  destruct (Hent (Z.of_nat k) (Z.of_nat j)) as (x' & Hget & Hr); [lia | lia |].
  unfold np_get2 in Hget.
  rewrite (@get_nonneg _ t (Z.of_nat k) row) in Hget
    by (try lia; now rewrite Nat2Z.id).
  cbn [bind] in Hget.
  rewrite (@get_nonneg _ row (Z.of_nat j) x) in Hget
    by (try lia; now rewrite Nat2Z.id).
  injection Hget as <-. exact Hr.
Qed.




Lemma init_transition_function_space (e e' : RLToyEnv) :
  init_transition_function e = Ok e' ->
  space_n (relevant_observation_space (gens e'))
  = space_n (relevant_observation_space (gens e)).
Proof.
  intros H. unfold init_transition_function in H.
  bind_inv H as t0 eqn E0. bind_inv H as cc eqn Ecc.
  bind_inv H as [t1 sp] eqn E1. bind_inv H as t2 eqn E2.
  bind_inv H as x eqn E3. injection H as <-. cbn.
  set (N := space_n (relevant_observation_space (gens e))).
  destruct cc.
  - apply (for_each_preserves (fun st => space_n (snd st) = N)) in E1;
      [exact E1 | reflexivity |].
    intros s [tc spc] [tc1 spc1] _ Hsp Hb. cbn [snd] in *.
    bind_inv Hb as [row sp'] eqn Es. bind_inv Hb as t' eqn Et.
    injection Hb as _ <-. unfold sample_size in Es.
    bind_inv Es as [l g] eqn Ec. injection Es as _ <-. exact Hsp.
  - apply (for_each_preserves (fun st => space_n (snd st) = N)) in E1;
      [exact E1 | reflexivity |].
    intros s st st1 _ Hst Hb.
    apply (for_each_preserves (fun st => space_n (snd st) = N)) in Hb;
      [exact Hb | exact Hst |].
    intros a [tc spc] [tc1 spc1] _ Hsp Hb1. cbn [snd] in *.
    unfold sample in Hb1.
    destruct (rs_randint (space_n spc) (space_np_random spc)) as [v g].
    bind_inv Hb1 as t' eqn Et. injection Hb1 as _ <-. exact Hsp.
Qed.

Lemma reset_space (e e' : RLToyEnv) (s : Z) :
  reset e = Ok (s, e') ->
  relevant_observation_space (gens e') = relevant_observation_space (gens e).
Proof.
  unfold reset. intros H. bind_inv H as [s0 g] eqn E. bind_inv H as prs eqn Ep.
  injection H as <- <-. reflexivity.
Qed.

Lemma constructed_space (entropy : Z) (c : Config) (e : RLToyEnv) :
  RLToyEnv_init entropy c = Ok e ->
  space_n (relevant_observation_space (gens e))
  = relevant_state_space_size (settings e).
Proof.
  intros H. apply init_inv in H.
  destruct H as (sd & g & os & acs & e3 & e4 & s & _ & _ & _ & H3 & H4 & H5).
  rewrite (reset_space _ H5).
  apply reset_frame in H5. destruct H5 as (_ & Hs5 & _).
  apply init_reward_function_frame in H4.
  destruct H4 as (_ & _ & Hs4 & _ & _ & _ & _ & Ho4 & _).
  rewrite Ho4, (init_transition_function_space _ H3).
  apply init_transition_function_frame in H3. destruct H3 as (_ & Hs3 & _).
  destruct (init_terminal_stage (initial_env entropy c sd g os acs))
    as (_ & Hs2 & Hg2 & _).
  rewrite Hg2, Hs5, Hs4, Hs3, Hs2. reflexivity.
Qed.

Lemma initial_sequences_length (e : RLToyEnv) (prs : list (list (list Z))) :
  initial_possible_remaining_sequences e = Ok prs ->
  Py.len prs = Z.max 0 (sequence_length (settings e)).
Proof.
  intros H. unfold initial_possible_remaining_sequences in H.
  set (K := sequence_length (settings e)) in *.
  pose (P := fun prs : list (list (list Z)) => Py.len prs = Z.max 0 K).
  apply (for_each_preserves P) in H; [exact H | |].
  - unfold P, Py.len. rewrite length_map, range_length. lia.
  - intros j p p1 Hj Hp Hb. apply In_range in Hj.
    apply (for_each_preserves P) in Hb; [exact Hb | exact Hp |].
    intros k p2 p3 _ Hp2 Hb2. bind_inv Hb2 as ss_k eqn Ek.
    apply (for_each_preserves P) in Hb2; [exact Hb2 | exact Hp2 |].
    intros l p4 p5 _ Hp4 Hb4. bind_inv Hb4 as ss_kl eqn El.
    apply append_at_spec in Hb4; [|lia]. destruct Hb4 as (Hlen & _).
    unfold P, Py.len in *. lia.
Qed.

Lemma reward_function_space (e e' : RLToyEnv) (state : state_arg) (action : Z)
  (only_query : bool) (r : Q) :
  reward_function e state action only_query = Ok (r, e') ->
  relevant_observation_space (gens e') = relevant_observation_space (gens e).
Proof.
  intros H. unfold reward_function in H.
  bind_inv H as sc eqn Esc. bind_inv H as [reward prs] eqn Er.
  destruct (cfg_reward_noise (config e)) as [f|].
  - destruct (f (np_random (gens e))) as [noise g].
    injection H as <- <-. reflexivity.
  - injection H as <- <-. reflexivity.
Qed.

Lemma reset_in_episode (DL : DrawLaws RNG) (e0 e e' : RLToyEnv) (s : Z) :
  config e = config e0 -> settings e = settings e0 -> tables e = tables e0 ->
  space_n (relevant_observation_space (gens e))
  = space_n (relevant_observation_space (gens e0)) ->
  reset e = Ok (s, e') ->
  in_episode e0 e' /\ curr_state (episode e') = s.
Proof.
  intros Hc Hs Ht Hsp H.
  pose proof (reset_start_state DL _ H)
    as (Hr & _ & Hcs & Ha & Hrt & _ & _ & Hsp').
  pose proof (reset_frame _ H) as (Hc' & Hs' & Ht' & _).
  split; [|exact Hcs].
  unfold in_episode. rewrite Hcs, Hrt, Ha, Hc', Hs', Ht', Hsp'.
  rewrite Hs in Hr. repeat split; try assumption; try reflexivity.
  - unfold Py.len. rewrite length_app, length_map, range_length. cbn [length].
    rewrite Hs. lia.
  - now rewrite last_last.
  - lia.
  - lia.
  - intros Hd. rewrite <- Hc in Hd.
    pose proof (reset_dense _ Hd H) as (Hp & _).
    apply initial_sequences_length in Hp. now rewrite Hs in Hp.
Qed.

Lemma constructed_in_episode (DL : DrawLaws RNG) (entropy : Z) (c : Config)
  (e0 : RLToyEnv) :
  RLToyEnv_init entropy c = Ok e0 -> in_episode e0 e0.
Proof.
  intros H. pose proof (constructed_space _ _ H) as Hsp.
  apply init_inv in H.
  destruct H as (sd & g & os & acs & e3 & e4 & s & _ & _ & _ & _ & _ & H5).
  pose proof (reset_frame _ H5) as (Hc' & Hs' & Ht' & _).
  pose proof (reset_space _ H5) as Ho.
  apply (@reset_in_episode DL e0 e4 e0 s); auto. now rewrite Ho.
Qed.

Lemma transition_function_state (DL : DrawLaws RNG) (e e' : RLToyEnv)
  (state action s' : Z) (only_query : bool) :
  well_formed_table (relevant_state_space_size (settings e))
    (relevant_action_space_size (settings e))
    (transition_function_table (tables e)) ->
  transition_function e state action only_query = Ok (s', e') ->
  0 <= s' < relevant_state_space_size (settings e)
  /\ space_n (relevant_observation_space (gens e'))
     = space_n (relevant_observation_space (gens e))
  /\ curr_state (episode e') = curr_state (episode e).
Proof.
  intros Hwf H. unfold transition_function in H.
  bind_inv H as next_state eqn Eget.
  pose proof (@np_get2_in_range _ _ _ _ _ _ Hwf Eget) as Hnext.
  bind_inv H as [ns e1] eqn Enoise.
  assert (He1 : 0 <= ns < relevant_state_space_size (settings e)
                /\ space_n (relevant_observation_space (gens e1))
                   = space_n (relevant_observation_space (gens e))
                /\ curr_state (episode e1) = curr_state (episode e)
                /\ augmented_state (episode e1) = augmented_state (episode e)).
  { destruct (cfg_transition_noise (config e)) as [noise|].
    - bind_inv Enoise as k1 eqn E1. bind_inv Enoise as [x sp] eqn E2.
      injection Enoise as <- <-. cbn.
      unfold sample_prob in E2. bind_inv E2 as [y g] eqn E3.
      injection E2 as <- <-. cbn [space_n].
      unfold np_choice_p in E3.
      match type of E3 with
      | (if (Py.len ?p =? _) && _ && _ then _ else _) = _ =>
          set (probs := p) in *
      end.
      destruct (Z.eqb_spec (Py.len probs)
                  (space_n (relevant_observation_space (gens e)))) as [Hlen|];
        [|discriminate].
      destruct (forallb (Qle_bool (0 # 1)) probs) eqn:Hnn; [|discriminate].
      destruct (Qeq_bool (sum_Q probs) (1 # 1)) eqn:Hsum; [|discriminate].
      cbn [andb] in E3. injection E3 as E3.
      pose proof (@rs_choice_p_support _ DL probs
                    (space_np_random (relevant_observation_space (gens e)))
                    Hnn Hsum) as (Hpos & q & Hq & _).
      rewrite E3 in *. cbn [fst] in *.
      assert (Hlt : (Z.to_nat y < length probs)%nat)
        by (apply nth_error_Some; congruence).
      assert (Hpl : length probs
                    = Z.to_nat (relevant_state_space_size (settings e))).
      { apply index_Ok in E1. destruct E1 as (E1 & _).
        unfold probs. rewrite length_replace_at by exact E1.
        rewrite length_map, range_length. f_equal. lia. }
      repeat split; try reflexivity; lia.
    - injection Enoise as <- <-. repeat split; try reflexivity; lia. }
  destruct He1 as (Hr & Hsp & Hcs & Ha).
  destruct only_query.
  - injection H as <- <-. auto.
  - bind_inv H as k eqn Eidx. injection H as <- <-. cbn. auto.
Qed.

Section Built.

Variable DL : DrawLaws RNG.
Variable RL : RandomLaws RNG.
Variable entropy : Z.
Variable c : Config.
Variable e0 : RLToyEnv.
Hypothesis Hinit : RLToyEnv_init entropy c = Ok e0.

Lemma built_table (e : RLToyEnv) :
  in_episode e0 e ->
  well_formed_table (relevant_state_space_size (settings e))
    (relevant_action_space_size (settings e))
    (transition_function_table (tables e)).
Proof.
  intros (_ & Hs & Ht & _). rewrite Hs, Ht.
  exact (@constructed_table_well_formed _ RL DL _ _ _ Hinit).
Qed.

Lemma step_in_episode (e e' : RLToyEnv) (a s : Z) (r : Q) (done : bool) :
  in_episode e0 e ->
  step e a false = Ok ((s, r, done), e') ->
  in_episode e0 e'
  /\ 0 <= s < relevant_state_space_size (settings e0)
  /\ curr_state (episode e') = s
  /\ done = is_terminal_state e0 s
  /\ total_transitions_episode (episode e')
     = total_transitions_episode (episode e) + 1.
Proof.
  intros He H. pose proof (@built_table _ He) as Hwf.
  destruct He as (Hc & Hs & Ht & Hsp & Hal & Hlast & Hcs & Hrt & Hd).
  pose proof (@step_frame _ _ _ _ _ _ _ H) as (Hc1 & Hs1 & Ht1 & Hne & Ha1).
  pose proof (@step_outcome _ _ _ _ _ _ _ H) as (Hcs1 & Hrt1 & Hdone & Hn1 & _ & Hp1).
  unfold step in H.
  bind_inv H as [s1 e1] eqn Et. bind_inv H as [r1 e3] eqn Er.
  bind_inv H as lst eqn Elast. injection H as <- _ _ <-.
  pose proof (@transition_function_state DL _ _ _ _ _ _ Hwf Et) as (Hr & Hsp1 & _).
  pose proof (@reward_function_space _ _ _ _ _ _ Er) as Hsp3. cbn in Hsp3.
  assert (Hs0 : 0 <= s1 < relevant_state_space_size (settings e0))
    by (now rewrite <- Hs).
  split; [|split; [exact Hs0|split; [exact Hcs1|split; [|exact Hn1]]]].
  - unfold in_episode. rewrite Hcs1, Hrt1, Ha1.
    repeat split; try congruence; try lia.
    + unfold Py.len in *. rewrite length_app. cbn [length].
      destruct (augmented_state (episode e)); [congruence|]. cbn [tl length] in *.
      lia.
    + now rewrite last_last.
    + intros Hden. rewrite <- Hs. apply Hp1; [congruence|].
      rewrite Ht, Hs. exact (@constructed_sequences_length _ _ _ _ Hinit).
  - rewrite Hdone, Hrt, orb_false_r.
    apply is_terminal_state_tables. congruence.
Qed.


Lemma session_invariant (calls : list call) (e e' : RLToyEnv)
  (outs : list returned) :
  in_episode e0 e ->
  session e calls = Ok (outs, e') ->
  in_episode e0 e'
  /\ length outs = length calls
  /\ Forall (fun o => 0 <= state_of o < relevant_state_space_size (settings e0))
       outs.
Proof.
  revert e outs. induction calls as [|[a|] calls IH]; intros e outs He H.
  - cbn in H. injection H as <- <-. auto.
  - cbn [session] in H. bind_inv H as [[[s r] done] e1] eqn Estep.
    bind_inv H as [outs1 e2] eqn Erest. injection H as <- <-.
    destruct (@step_in_episode _ _ _ _ _ _ He Estep) as (He1 & Hr & _).
    destruct (IH _ _ He1 Erest) as (He2 & Hl & Hf).
    split; [exact He2|]. split; [cbn [length]; congruence|].
    constructor; [exact Hr | exact Hf].
  - cbn [session] in H. bind_inv H as [s e1] eqn Ereset.
    bind_inv H as [outs1 e2] eqn Erest. injection H as <- <-.
    destruct He as (Hc & Hs & Ht & Hsp & Hrest).
    destruct (@reset_in_episode DL e0 e e1 s Hc Hs Ht Hsp Ereset) as (He1 & Hcs).
    destruct (IH _ _ He1 Erest) as (He2 & Hl & Hf).
    split; [exact He2|]. split; [cbn [length]; congruence|].
    constructor; [|exact Hf]. cbn [state_of].
    destruct He1 as (_ & _ & _ & _ & _ & _ & Hr & _). now rewrite Hcs in Hr.
Qed.


End Built.

Lemma session_frame (calls : list call) (e e' : RLToyEnv) (outs : list returned) :
  session e calls = Ok (outs, e') ->
  config e' = config e /\ settings e' = settings e /\ tables e' = tables e.
Proof.
  revert e outs. induction calls as [|[a|] calls IH]; intros e outs H.
  - cbn in H. injection H as <- <-. auto.
  - cbn [session] in H. bind_inv H as [[[s r] done] e1] eqn Estep.
    bind_inv H as [outs1 e2] eqn Erest. injection H as <- <-.
    pose proof (@step_frame _ _ _ _ _ _ _ Estep) as (Hc & Hs & Ht & _).
    destruct (IH _ _ Erest) as (Hc2 & Hs2 & Ht2).
    repeat split; congruence.
  - cbn [session] in H. bind_inv H as [s e1] eqn Ereset.
    bind_inv H as [outs1 e2] eqn Erest. injection H as <- <-.
    pose proof (reset_frame _ Ereset) as (Hc & Hs & Ht & _).
    destruct (IH _ _ Erest) as (Hc2 & Hs2 & Ht2).
    repeat split; congruence.
Qed.

Lemma session_counters (calls : list call) (e e' : RLToyEnv)
  (outs : list returned) :
  session e calls = Ok (outs, e') ->
  total_transitions_episode (episode e')
  = steps_since_reset calls (total_transitions_episode (episode e))
  /\ total_episodes e' = total_episodes e + resets calls.
Proof.
  revert e outs. induction calls as [|[a|] calls IH]; intros e outs H.
  - cbn in H. injection H as <- <-. cbn. split; [reflexivity | lia].
  - cbn [session] in H. bind_inv H as [[[s r] done] e1] eqn Estep.
    bind_inv H as [outs1 e2] eqn Erest. injection H as <- <-.
    pose proof (@step_outcome _ _ _ _ _ _ _ Estep) as (_ & _ & _ & Hn & _).
    destruct (IH _ _ Erest) as (Hn2 & He2).
    cbn [steps_since_reset resets]. rewrite Hn2, Hn, He2. split; [reflexivity|].
    f_equal. unfold step in Estep.
    bind_inv Estep as [s1 e1'] eqn Et. bind_inv Estep as [r1 e3] eqn Er.
    bind_inv Estep as lst eqn El. injection Estep as _ _ _ <-.
    unfold reward_function in Er. bind_inv Er as sc eqn Esc.
    bind_inv Er as [rw prs] eqn Erw.
    assert (Hte : total_episodes e1' = total_episodes e).
    { unfold transition_function in Et. bind_inv Et as ns eqn E1.
      bind_inv Et as [ns' e1''] eqn E2. bind_inv Et as k eqn E3.
      injection Et as _ <-. cbn.
      destruct (cfg_transition_noise (config e)).
      - bind_inv E2 as k1 eqn E4. bind_inv E2 as [x sp] eqn E5.
        injection E2 as _ <-. reflexivity.
      - injection E2 as _ <-. reflexivity. }
    destruct (cfg_reward_noise _) as [f|].
    + destruct (f _). injection Er as _ <-. cbn. exact Hte.
    + injection Er as _ <-. cbn. exact Hte.
  - cbn [session] in H. bind_inv H as [s e1] eqn Ereset.
    bind_inv H as [outs1 e2] eqn Erest. injection H as <- <-.
    destruct (IH _ _ Erest) as (Hn2 & He2).
    cbn [steps_since_reset resets]. rewrite Hn2, He2.
    unfold reset in Ereset. bind_inv Ereset as [s0 g] eqn E.
    bind_inv Ereset as prs eqn Ep. injection Ereset as _ <-.
    cbn [episode total_transitions_episode total_episodes].
    split; [reflexivity | lia].
Qed.

End Sessions.

Section SessionProperties.

Context {RNG : Random}.

Lemma constructed_init_state_dist (entropy : Z) (c : Config) (e : RLToyEnv) :
  RLToyEnv_init entropy c = Ok e ->
  let n := relevant_state_space_size (settings e) in
  let num := num_terminal_states (tables e) in
  relevant_init_state_dist (tables e)
  = map (fun _ => (1 / inject_Z (n - num))%Q) (Py.range 0 (n - num))
    ++ map (fun _ => (0 # 1)%Q) (Py.range 0 num).
Proof.
  intros H n num.
  pose proof (@constructed_tables _ _ _ _ H)
    as (_ & Hn & _ & _ & _ & _ & _ & Hnum & _).
  apply init_inv in H.
  destruct H as (sd & g & os & acs & e3 & e4 & s & _ & _ & _ & H3 & H4 & H5).
  apply reset_frame in H5. destruct H5 as (_ & _ & Ht5 & _).
  apply init_reward_function_frame in H4.
  destruct H4 as (_ & _ & _ & _ & _ & Hd4 & _).
  apply init_transition_function_frame in H3.
  destruct H3 as (_ & _ & _ & _ & Hd3 & _).
  destruct (init_terminal_stage (initial_env entropy c sd g os acs))
    as (_ & _ & _ & _ & _ & Hd2 & _).
  cbn [initial_env config settings relevant_state_space_size] in Hd2.
  subst n num. rewrite Ht5, Hd4, Hd3, Hd2.
  rewrite Ht5 in Hnum. rewrite Hn. rewrite Hnum. reflexivity.
Qed.

Lemma constructed_counters (entropy : Z) (c : Config) (e : RLToyEnv) :
  RLToyEnv_init entropy c = Ok e ->
  total_transitions_episode (episode e) = 0 /\ total_episodes e = 1.
Proof.
  intros H. apply init_inv in H.
  destruct H as (sd & g & os & acs & e3 & e4 & s & _ & _ & _ & H3 & H4 & H5).
  assert (H2 : total_episodes
                 (init_init_state_dist
                    (init_terminal_states (initial_env entropy c sd g os acs)))
               = 0).
  { unfold init_init_state_dist, init_terminal_states.
    destruct (Py.int _ =? 0); reflexivity. }
  assert (H3' : total_episodes e3 = 0).
  { unfold init_transition_function in H3.
    bind_inv H3 as t0 eqn E0. bind_inv H3 as cc eqn Ecc.
    bind_inv H3 as [t1 sp] eqn E1. bind_inv H3 as t2 eqn E2.
    bind_inv H3 as x eqn E3. injection H3 as <-. exact H2. }
  assert (H4' : total_episodes e4 = 0).
  { unfold init_reward_function in H4.
    destruct (cfg_repeats_in_sequences (config e3)).
    - bind_inv H4 as [ss g'] eqn E. discriminate.
    - bind_inv H4 as [sel g'] eqn E. bind_inv H4 as [ss tc] eqn E1.
      bind_inv H4 as u eqn E2. injection H4 as <-.
      destruct (1000 <? _); exact H3'. }
  unfold reset in H5. bind_inv H5 as [s0 g0] eqn E. bind_inv H5 as prs eqn Ep.
  injection H5 as _ <-. cbn [episode total_transitions_episode total_episodes].
  rewrite H4'. split; reflexivity.
Qed.

Lemma get_subscript (row : list Z) (m a : Z) :
  Py.len row = m ->
  (a < - m \/ m <= a -> Py.get row a = Raise IndexError)
  /\ (- m <= a < 0 -> Py.get row a = Py.get row (a + m)).
Proof.
  intros Hm. unfold Py.get, Py.index. rewrite Hm. split.
  - intros Ha.
    destruct (Z.leb_spec 0 a); destruct (Z.ltb_spec a m);
      destruct (Z.leb_spec (- m) a); destruct (Z.ltb_spec a 0);
      cbn [andb bind]; try reflexivity; lia.
  - intros Ha.
    destruct (Z.leb_spec 0 a); [lia|].
    destruct (Z.leb_spec (- m) a); [|lia].
    destruct (Z.ltb_spec a 0); [|lia].
    destruct (Z.leb_spec 0 (a + m)); [|lia].
    destruct (Z.ltb_spec (a + m) m); [|lia].
    reflexivity.
Qed.

Lemma step_subscript (e : RLToyEnv) (a : Z) :
  well_formed_table (relevant_state_space_size (settings e))
    (relevant_action_space_size (settings e))
    (transition_function_table (tables e)) ->
  0 <= curr_state (episode e) < relevant_state_space_size (settings e) ->
  let m := relevant_action_space_size (settings e) in
  (a < - m \/ m <= a -> step e a false = Raise IndexError)
  /\ (- m <= a < 0 -> step e a false = step e (a + m) false).
Proof.
  intros (Hl & Hrows & _) Hcs m.
  assert (Hrow : exists row,
             Py.get (transition_function_table (tables e)) (curr_state (episode e))
             = Ok row /\ Py.len row = m).
  { destruct (nth_error (transition_function_table (tables e))
                (Z.to_nat (curr_state (episode e)))) as [row|] eqn:E.
    - exists row. split; [apply get_nonneg; [lia | exact E]|].
      apply Hrows. eapply nth_error_In; eauto.
    - apply nth_error_None in E. unfold Py.len in Hl. lia. }
  destruct Hrow as (row & Hget & Hm).
  destruct (@get_subscript row m a Hm) as (Hbad & Hwrap).
  split.
  - intros Ha. unfold step, transition_function, np_get2.
    rewrite Hget. cbn [bind]. rewrite (Hbad Ha). reflexivity.
  - intros Ha. unfold step, transition_function, np_get2.
    rewrite Hget. cbn [bind]. rewrite (Hwrap Ha). reflexivity.
Qed.

Lemma reset_non_terminal (DL : DrawLaws RNG) (entropy : Z) (c : Config)
  (e0 e e' : RLToyEnv) (s : Z) :
  RLToyEnv_init entropy c = Ok e0 ->
  settings e = settings e0 -> tables e = tables e0 ->
  reset e = Ok (s, e') ->
  0 <= s < relevant_state_space_size (settings e0)
  /\ is_terminal_state e0 s = false.
Proof.
  intros Hinit Hs Ht H.
  pose proof (@reset_start_state _ DL _ _ _ H) as (Hr & (q & Hq & Hpos) & _).
  rewrite Hs in Hr. split; [exact Hr|].
  destruct (is_terminal_state e0 s) eqn:Eterm; [|reflexivity]. exfalso.
  apply (@constructed_terminal _ _ _ _ _ Hinit) in Eterm.
  pose proof (@constructed_tables _ _ _ _ Hinit)
    as (_ & _ & _ & _ & _ & _ & _ & Hnum & _ & Hb & _).
  rewrite <- Hnum in Hb.
  rewrite Ht, (@constructed_init_state_dist _ _ _ Hinit) in Hq.
  rewrite nth_error_app2 in Hq
    by (rewrite length_map, range_length; lia).
  rewrite length_map, range_length, nth_error_map in Hq.
  destruct (nth_error (Py.range 0 (num_terminal_states (tables e0))) _);
    [|discriminate].
  injection Hq as <-. now apply Qlt_irrefl in Hpos.
Qed.


(** X8. The MDP is fixed at construction: no call of [step] or [reset]
    changes the transition table, the rewardable sequences, the terminal
    states, the initial distribution or any setting. *)
Theorem calls_keep_the_mdp (e e' : RLToyEnv) (calls : list call)
  (outs : list returned)
  (Hsession : session e calls = Ok (outs, e')) :
  tables e' = tables e /\ settings e' = settings e /\ config e' = config e.
Proof.
  destruct (@session_frame _ _ _ _ _ Hsession) as (Hc & Hs & Ht). auto.
Qed.

(** X9. An action is a subscript of a row of the transition table: at any
    point of a session, [step] raises [IndexError] for an action at or above
    the number of actions, or below its negation, and it takes a negative
    action [a] down to the negated number of actions for the action
    [a + m]. *)
Theorem action_is_a_subscript (RL : RandomLaws RNG) (DL : DrawLaws RNG)
  (entropy : Z) (c : Config) (e0 e : RLToyEnv) (calls : list call)
  (outs : list returned) (a : Z)
  (Hinit : RLToyEnv_init entropy c = Ok e0)
  (Hsession : session e0 calls = Ok (outs, e)) :
  let m := cfg_action_space_size c in
  (a < - m \/ m <= a -> step e a false = Raise IndexError)
  /\ (- m <= a < 0 -> step e a false = step e (a + m) false).
Proof.
  pose proof (@constructed_tables _ _ _ _ Hinit) as (_ & _ & Hm & _).
  pose proof (@constructed_in_episode _ DL _ _ _ Hinit) as He0.
  destruct (@session_invariant _ DL RL entropy c e0 Hinit calls e0 e outs He0 Hsession)
    as (He & _).
  pose proof (@built_table _ DL RL entropy c e0 Hinit e He) as Hwf.
  destruct He as (_ & Hs & _ & _ & _ & _ & Hcs & _).
  rewrite <- Hs in Hcs.
  pose proof (@step_subscript e a Hwf Hcs) as H. cbn zeta in H.
  rewrite Hs, Hm in H. exact H.
Qed.

(** X10. At any point of a session, [step] returns [done = true] exactly
    when the state it returns is a terminal state, one of the last
    [num_terminal_states] states. *)
Theorem done_iff_terminal_state (RL : RandomLaws RNG) (DL : DrawLaws RNG)
  (entropy : Z) (c : Config) (e0 e e' : RLToyEnv) (calls : list call)
  (outs : list returned) (a s : Z) (r : Q) (done : bool)
  (Hinit : RLToyEnv_init entropy c = Ok e0)
  (Hsession : session e0 calls = Ok (outs, e))
  (Hstep : step e a false = Ok ((s, r, done), e')) :
  done = true
  <-> cfg_state_space_size c - num_terminal_states (tables e0) <= s
      < cfg_state_space_size c.
Proof.
  pose proof (@constructed_tables _ _ _ _ Hinit) as (_ & Hn & _).
  pose proof (@constructed_in_episode _ DL _ _ _ Hinit) as He0.
  destruct (@session_invariant _ DL RL entropy c e0 Hinit calls e0 e outs He0 Hsession)
    as (He & _).
  destruct (@step_in_episode _ DL RL entropy c e0 Hinit _ _ _ _ _ _ He Hstep)
    as (_ & _ & _ & Hdone & _).
  rewrite Hdone, <- Hn. exact (@constructed_terminal _ _ _ _ s Hinit).
Qed.

(** X11. The bookkeeping of an episode, at any point of a session: the
    augmented state keeps its length, [sequence_length + delay + 1] (one
    entry at least), and ends with the current state;
    [total_transitions_episode] is the number of steps since the last reset
    and [total_episodes] the number of resets, the one of the constructor
    included. *)
Theorem episode_bookkeeping (RL : RandomLaws RNG) (DL : DrawLaws RNG)
  (entropy : Z) (c : Config) (e0 e : RLToyEnv) (calls : list call)
  (outs : list returned)
  (Hinit : RLToyEnv_init entropy c = Ok e0)
  (Hsession : session e0 calls = Ok (outs, e)) :
  Py.len (augmented_state (episode e))
  = Z.max 1 (default (cfg_sequence_length c) 1 + default (cfg_delay c) 0 + 1)
  /\ last (augmented_state (episode e)) None = Some (curr_state (episode e))
  /\ total_transitions_episode (episode e) = steps_since_reset calls 0
  /\ total_episodes e = 1 + resets calls.
Proof.
  pose proof (@constructed_tables _ _ _ _ Hinit)
    as (_ & _ & _ & HK & Hd & HL & _).
  pose proof (@constructed_in_episode _ DL _ _ _ Hinit) as He0.
  destruct (@session_invariant _ DL RL entropy c e0 Hinit calls e0 e outs He0 Hsession)
    as ((_ & _ & _ & _ & Hal & Hlast & _) & _).
  destruct (@session_counters _ _ _ _ _ Hsession) as (Hn & Hep).
  destruct (@constructed_counters _ _ _ Hinit) as (Hn0 & Hep0).
  rewrite Hn0 in Hn. rewrite Hep0 in Hep. rewrite HL, HK, Hd in Hal. auto.
Qed.

(** X12. An episode never starts in a terminal state: the state [reset]
    returns, at any point of a session, is a non-terminal state of the state
    space, and so is the state the constructor leaves the environment in. *)
Theorem reset_starts_in_non_terminal_state (DL : DrawLaws RNG)
  (entropy : Z) (c : Config) (e0 e e' : RLToyEnv) (calls : list call)
  (outs : list returned) (s : Z)
  (Hinit : RLToyEnv_init entropy c = Ok e0)
  (Hsession : session e0 calls = Ok (outs, e))
  (Hreset : reset e = Ok (s, e')) :
  0 <= s < cfg_state_space_size c
  /\ is_terminal_state e0 s = false
  /\ is_terminal_state e0 (curr_state (episode e0)) = false.
Proof.
  pose proof (@constructed_tables _ _ _ _ Hinit) as (_ & Hn & _).
  destruct (@session_frame _ _ _ _ _ Hsession) as (_ & Hs & Ht).
  destruct (@reset_non_terminal DL _ _ _ _ _ _ Hinit Hs Ht Hreset) as (Hr & Hnt).
  rewrite Hn in Hr. split; [exact Hr|]. split; [exact Hnt|].
  pose proof Hinit as Hi. apply init_inv in Hi.
  destruct Hi as (sd & g & os & acs & e3 & e4 & s4 & _ & _ & _ & _ & _ & H5).
  pose proof (@reset_frame _ _ _ _ H5) as (_ & Hs5 & Ht5 & _).
  pose proof (@reset_start_state _ DL _ _ _ H5) as (_ & _ & Hcs & _).
  rewrite Hcs.
  now destruct (@reset_non_terminal DL entropy c e0 e4 e0 s4 Hinit
                  (eq_sym Hs5) (eq_sym Ht5) H5).
Qed.

(** X13. The initial distribution of a constructed environment is uniform
    over the non-terminal states and zero on the terminal ones; it has one
    entry per state and sums to 1. *)
Theorem initial_distribution_uniform (entropy : Z) (c : Config) (e : RLToyEnv)
  (Hinit : RLToyEnv_init entropy c = Ok e) :
  let n := cfg_state_space_size c in
  let num := num_terminal_states (tables e) in
  let dist := relevant_init_state_dist (tables e) in
  Py.len dist = n
  /\ (sum_Q dist == 1)%Q
  /\ (forall s, 0 <= s < n ->
        Py.get dist s
        = Ok (if is_terminal_state e s then (0 # 1)%Q
              else (1 / inject_Z (n - num))%Q)).
Proof.
  intros n num dist.
  pose proof (@constructed_tables _ _ _ _ Hinit)
    as (_ & Hn & _ & _ & _ & _ & _ & Hnum & _ & Hb & _).
  rewrite <- Hnum in Hb. fold n num in Hb.
  pose proof (@constructed_init_state_dist _ _ _ Hinit) as Hd.
  cbn zeta in Hd. rewrite Hn in Hd. fold n num dist in Hd.
  pose proof Hinit as Hi. apply init_inv in Hi.
  destruct Hi as (sd & g & os & acs & e3 & e4 & s4 & _ & _ & _ & _ & _ & H5).
  pose proof (@reset_frame _ _ _ _ H5) as (_ & Hs5 & Ht5 & _).
  pose proof (@reset_dist _ _ _ _ H5) as (Hlen & Hsum).
  rewrite <- Ht5, <- Hs5, Hn in Hlen. rewrite <- Ht5 in Hsum.
  split; [exact Hlen|]. split; [now apply Qeq_bool_iff in Hsum|].
  intros s Hs. apply get_nonneg; [lia|]. rewrite Hd.
  destruct (is_terminal_state e s) eqn:Eterm.
  - apply (@constructed_terminal _ _ _ _ _ Hinit) in Eterm.
    rewrite Hn in Eterm. fold n num in Eterm.
    rewrite nth_error_app2 by (rewrite length_map, range_length; lia).
    rewrite length_map, range_length, nth_error_map, nth_error_range by lia.
    reflexivity.
  - assert (Hlt : s < n - num).
    { destruct (Z.lt_ge_cases s (n - num)) as [|Hge]; [assumption|].
      exfalso. assert (is_terminal_state e s = true); [|congruence].
      apply (@constructed_terminal _ _ _ _ _ Hinit). rewrite Hn.
      fold n num. lia. }
    rewrite nth_error_app1 by (rewrite length_map, range_length; lia).
    rewrite nth_error_map, nth_error_range by lia. reflexivity.
Qed.

End SessionProperties.

Lemma example_session_runs :
  session example_env example_calls = Ok (fst example_session, snd example_session).
Proof. reflexivity. Qed.


Lemma calls_keep_the_mdp_witness :
  tables (snd example_session) = tables example_env
  /\ settings (snd example_session) = settings example_env
  /\ config (snd example_session) = config example_env.
Proof.
  apply (@calls_keep_the_mdp _ example_env (snd example_session) example_calls
           (fst example_session)).
  reflexivity.
Defined.

Lemma action_is_a_subscript_witness :
  let m := cfg_action_space_size (example_config 0) in
  (6 < - m \/ m <= 6 -> step (snd example_session) 6 false = Raise IndexError)
  /\ (- m <= 6 < 0 ->
      step (snd example_session) 6 false = step (snd example_session) (6 + m) false).
Proof.
  apply (@action_is_a_subscript _ lcg_laws lcg_draw_laws 0 (example_config 0)
           example_env (snd example_session) example_calls (fst example_session) 6);
    reflexivity.
Defined.

Lemma done_iff_terminal_state_witness :
  snd (fst example_session_step) = true
  <-> cfg_state_space_size (example_config 0)
      - num_terminal_states (tables example_env)
      <= fst (fst (fst example_session_step))
      < cfg_state_space_size (example_config 0).
Proof.
  apply (@done_iff_terminal_state _ lcg_laws lcg_draw_laws 0 (example_config 0)
           example_env (snd example_session) (snd example_session_step)
           example_calls (fst example_session) 2
           (fst (fst (fst example_session_step)))
           (snd (fst (fst example_session_step))));
    reflexivity.
Defined.

Lemma episode_bookkeeping_witness :
  Py.len (augmented_state (episode (snd example_session)))
  = Z.max 1 (default (cfg_sequence_length (example_config 0)) 1
             + default (cfg_delay (example_config 0)) 0 + 1)
  /\ last (augmented_state (episode (snd example_session))) None
     = Some (curr_state (episode (snd example_session)))
  /\ total_transitions_episode (episode (snd example_session))
     = steps_since_reset example_calls 0
  /\ total_episodes (snd example_session) = 1 + resets example_calls.
Proof.
  apply (@episode_bookkeeping _ lcg_laws lcg_draw_laws 0 (example_config 0)
           example_env (snd example_session) example_calls (fst example_session));
    reflexivity.
Defined.

Lemma reset_starts_in_non_terminal_state_witness :
  0 <= fst example_session_reset < cfg_state_space_size (example_config 0)
  /\ is_terminal_state example_env (fst example_session_reset) = false
  /\ is_terminal_state example_env (curr_state (episode example_env)) = false.
Proof.
  apply (@reset_starts_in_non_terminal_state _ lcg_draw_laws 0 (example_config 0)
           example_env (snd example_session) (snd example_session_reset)
           example_calls (fst example_session));
    reflexivity.
Defined.

Lemma initial_distribution_uniform_witness :
  let n := cfg_state_space_size (example_config 0) in
  let num := num_terminal_states (tables example_env) in
  let dist := relevant_init_state_dist (tables example_env) in
  Py.len dist = n
  /\ (sum_Q dist == 1)%Q
  /\ (forall s, 0 <= s < n ->
        Py.get dist s
        = Ok (if is_terminal_state example_env s then (0 # 1)%Q
              else (1 / inject_Z (n - num))%Q)).
Proof.
  apply (@initial_distribution_uniform _ 0 (example_config 0) example_env).
  reflexivity.
Defined.

(** ** The rewardable sequences, member by member *)

Lemma remove_at_NoDup {A : Type} (l : list A) (k : nat) (d : A) :
  NoDup l -> nth_error l k = Some d ->
  NoDup (Py.remove_at l k)
  /\ ~ In d (Py.remove_at l k)
  /\ (forall x, In x (Py.remove_at l k) -> In x l).
Proof.
  intros Hnd Hk. destruct (nth_error_split l k Hk) as (l1 & l2 & -> & <-).
  unfold Py.remove_at.
  rewrite firstn_app, Nat.sub_diag, firstn_all, firstn_O, app_nil_r.
  replace (skipn (S (length l1)) (l1 ++ d :: l2)) with l2
    by (clear; induction l1; cbn; auto).
  split; [eapply NoDup_remove_1; eauto|].
  split; [eapply NoDup_remove_2; eauto|].
  intros x Hx. apply in_app_or in Hx. apply in_or_app.
  destruct Hx; [now left | right; now right].
Qed.

Lemma decode_permutation_picks (factors : list Z) (cp : Z)
  (digits seq_ out : list Z) :
  NoDup digits ->
  decode_permutation factors cp digits seq_ = Ok out ->
  exists picked,
    out = seq_ ++ picked /\ length picked = length factors
    /\ NoDup picked /\ (forall x, In x picked -> In x digits).
Proof.
  revert cp digits seq_. induction factors as [|j factors IH];
    intros cp digits seq_ Hnd H.
  - cbn in H. injection H as <-. exists []. rewrite app_nil_r.
    repeat split; [constructor | intros x []].
  - cbn [decode_permutation] in H. bind_inv H as d eqn Ed. bind_inv H as k eqn Ek.
    apply get_Ok in Ed. destruct Ed as (k' & Hk' & Hd).
    rewrite Ek in Hk'. injection Hk' as <-.
    destruct (@remove_at_NoDup _ digits k d Hnd Hd) as (Hnd' & Hnotin & Hincl).
    destruct (IH _ _ _ Hnd' H) as (picked & -> & Hlen & Hndp & Hin).
    exists (d :: picked). rewrite <- app_assoc. cbn [app length].
    split; [reflexivity|]. split; [lia|]. split.
    + constructor; [|exact Hndp]. intros Hc. apply Hnotin. now apply Hin.
    + intros x [<-|Hx]; [eapply nth_error_In; eauto|]. apply Hincl. now apply Hin.
Qed.

Section SequenceMembers.

Context {RNG : Random}.

Lemma init_reward_function_members (e e' : RLToyEnv) :
  init_reward_function e = Ok e' ->
  0 < sequence_length (settings e) ->
  NoDup (rewardable_sequences e')
  /\ (forall seq_, In seq_ (rewardable_sequences e') ->
        Py.len seq_ = sequence_length (settings e)
        /\ NoDup seq_
        /\ (forall s, In s seq_ ->
              0 <= s < relevant_state_space_size (settings e)
                       - num_terminal_states (tables e))).
Proof.
  intros H Hlen. unfold init_reward_function in H.
  destruct (cfg_repeats_in_sequences (config e)) eqn:Erep.
  { bind_inv H as [ss g] eqn E. discriminate. }
  set (len_ := sequence_length (settings e)) in *.
  set (non_term := relevant_state_space_size (settings e)
                   - num_terminal_states (tables e)) in *.
  set (num := Py.int _) in *.
  bind_inv H as [sel g] eqn Esel. bind_inv H as [ss clashes] eqn Eloop.
  bind_inv H as u eqn Eassert. injection H as <-.
  apply assert_Ok in Eassert. apply Z.eqb_eq in Eassert.
  pose (good := fun seq_ : list Z =>
                  Py.len seq_ = len_ /\ NoDup seq_
                  /\ (forall s, In s seq_ -> 0 <= s < non_term)).
  pose (Q := fun (pre : list Z) (st : list (list (list Z)) * Z) =>
               exists last, nth_error (fst st) (Z.to_nat (len_ - 1)) = Some last
                            /\ 0 <= snd st
                            /\ (forall seq_, In seq_ last -> good seq_)
                            /\ (snd st = 0 -> NoDup last)).
  assert (HQ : Q (Py.range 0 num) (ss, clashes)).
  { apply for_each_ind with (Q := Q) (3 := Eloop); unfold Q; cbn [fst snd].
    - exists []. split; [now apply empty_lists_nth|]. split; [lia|].
      split; [intros s [] | intros _; constructor].
    - intros pre i [ss1 c1] [ss2 c2] _ (last & Hlast & Hc1 & Hgood & Hnd) Hb.
      cbn [fst snd] in *.
      bind_inv Hb as cp eqn E1. bind_inv Hb as seq_ eqn E2.
      bind_inv Hb as l eqn E3. bind_inv Hb as ss3 eqn E4.
      injection Hb as <- <-.
      apply get_Ok in E3. destruct E3 as (k & Hk & Hl).
      rewrite index_nonneg in Hk.
      2:{ apply index_Ok in Hk. destruct Hk as (Hk & [(_ & _)|(Hneg & _)]);
            [|lia].
          assert (Z.to_nat (len_ - 1) < length ss1)%nat
            by (apply nth_error_Some; congruence).
          unfold Py.len. lia. }
      injection Hk as <-. rewrite Hlast in Hl. injection Hl as <-.
      apply append_at_spec in E4; [|lia].
      destruct E4 as (_ & li & Hli & Hli' & _).
      rewrite Hlast in Hli. injection Hli as <-.
      apply decode_permutation_picks in E2; [|apply NoDup_range].
      destruct E2 as (picked & -> & Hpl & Hpnd & Hpin). cbn [app] in *.
      assert (Hg : good picked).
      { split; [|split; [exact Hpnd|]].
        - unfold Py.len. rewrite Hpl, length_rev, range_length. lia.
        - intros s Hs. apply Hpin in Hs. now apply In_range in Hs. }
      exists (last ++ [picked]). split; [exact Hli'|].
      destruct (Py.contains seq_eqb picked last) eqn:Ec.
      + split; [lia|]. split; [|intros; lia].
        intros s Hs. apply in_app_or in Hs.
        destruct Hs as [Hs|[<-|[]]]; [now apply Hgood | exact Hg].
      + split; [lia|]. split.
        * intros s Hs. apply in_app_or in Hs.
          destruct Hs as [Hs|[<-|[]]]; [now apply Hgood | exact Hg].
        * intros Hz. apply NoDup_app; [now apply Hnd | repeat constructor; intros []|].
          intros s Hs1 [<-|[]].
          apply contains_seq_In in Hs1. congruence. }
  destruct HQ as (last & Hlast & _ & Hgood & Hnd). cbn [fst snd] in *.
  assert (Hrew : rewardable_sequences
                   (with_np_random
                      (with_specific_sequences
                         (if 1000 <? num then warn e WarnTooManySequences else e) ss)
                      g) = last).
  { unfold rewardable_sequences.
    assert (Hset : settings (with_np_random
                     (with_specific_sequences
                        (if 1000 <? num then warn e WarnTooManySequences else e) ss) g)
                   = settings e) by (destruct (1000 <? num); reflexivity).
    assert (Hss : specific_sequences (tables (with_np_random
                     (with_specific_sequences
                        (if 1000 <? num then warn e WarnTooManySequences else e) ss) g))
                  = ss) by (destruct (1000 <? num); reflexivity).
    rewrite Hset, Hss. fold len_.
    assert (Hi : 0 <= len_ - 1) by lia.
    now rewrite (@get_of_nth _ ss (len_ - 1) last Hi Hlast). }
  rewrite Hrew. split; [now apply Hnd|]. exact Hgood.
Qed.

(** X14. The rewardable sequences of a constructed environment are
    pairwise distinct; each has [sequence_length] states, visits no state
    twice and consists of non-terminal states only. *)
Theorem rewardable_sequences_well_formed (entropy : Z) (c : Config) (e : RLToyEnv)
  (Hinit : RLToyEnv_init entropy c = Ok e) :
  NoDup (rewardable_sequences e)
  /\ (forall seq_, In seq_ (rewardable_sequences e) ->
        Py.len seq_ = sequence_length (settings e)
        /\ NoDup seq_
        /\ (forall s, In s seq_ ->
              0 <= s < relevant_state_space_size (settings e)
              /\ is_terminal_state e s = false)).
Proof.
  pose proof (@constructed_tables _ _ _ _ Hinit)
    as (_ & _ & _ & _ & _ & _ & _ & _ & _ & _ & HK).
  pose proof Hinit as Hi. apply init_inv in Hi.
  destruct Hi as (sd & g & os & acs & e3 & e4 & s4 & _ & _ & _ & H3 & H4 & H5).
  apply reset_frame in H5. destruct H5 as (_ & Hs5 & Ht5 & _).
  pose proof (@init_reward_function_frame _ _ _ H4) as (_ & _ & Hs4 & Hn4 & _).
  assert (HK3 : 0 < sequence_length (settings e3))
    by (rewrite <- Hs4, <- Hs5; exact HK).
  destruct (@init_reward_function_members _ _ H4 HK3) as (Hnd & Hmem).
  rewrite (@rewardable_sequences_frame _ e4 e Hs5 Ht5).
  split; [exact Hnd|]. intros seq_ Hin.
  destruct (Hmem _ Hin) as (Hl & Hn & Hr).
  rewrite Hs5, Hs4. split; [exact Hl|]. split; [exact Hn|].
  intros s Hs. specialize (Hr _ Hs).
  assert (Hnt : num_terminal_states (tables e3) = num_terminal_states (tables e))
    by congruence.
  rewrite Hnt in Hr.
  destruct (is_terminal_state e s) eqn:Eterm.
  - apply (@constructed_terminal _ _ _ _ _ Hinit) in Eterm.
    rewrite Hs5, Hs4 in Eterm. lia.
  - pose proof (@constructed_tables _ _ _ _ Hinit)
      as (_ & _ & _ & _ & _ & _ & _ & Hnum & _ & Hb & _).
    rewrite <- Hnum in Hb. split; [lia | reflexivity].
Qed.

End SequenceMembers.

Lemma rewardable_sequences_well_formed_witness :
  NoDup (rewardable_sequences example_env)
  /\ (forall seq_, In seq_ (rewardable_sequences example_env) ->
        Py.len seq_ = sequence_length (settings example_env)
        /\ NoDup seq_
        /\ (forall s, In s seq_ ->
              0 <= s < relevant_state_space_size (settings example_env)
              /\ is_terminal_state example_env s = false)).
Proof.
  apply (@rewardable_sequences_well_formed _ 0 (example_config 0) example_env).
  reflexivity.
Defined.

(** ** Construction succeeds *)




Section ConstructionSucceeds.

Context {RNG : Random}.















End ConstructionSucceeds.


(** ** Queries *)

Section Queries.

Context {RNG : Random}.

(** X16. In the discrete engine [step] cannot be used as a query: with
    [only_query] set, once the transition has succeeded the reward function
    is handed the next state, an integer, where it asserts a list of states,
    and [step] raises [AssertionError]; it never returns. *)
Theorem step_query_always_raises (e : RLToyEnv) (a : Z) :
  (forall s e1,
     transition_function e (curr_state (episode e)) a true = Ok (s, e1) ->
     step e a true = Raise AssertionError)
  /\ (forall out e', step e a true <> Ok (out, e')).
Proof.
  split.
  - intros s e1 H. unfold step. rewrite H. reflexivity.
  - intros out e' H. unfold step in H.
    bind_inv H as [s e1] eqn Et. unfold reward_function in H.
    cbn [bind] in H. discriminate.
Qed.

(** X17. A reward query is computed from the list of states it is passed,
    not from the history of the environment: a list whose length is not that
    of the augmented state, or a single state, raises [AssertionError]; in a
    sparse environment the reward is [reward_scale] or 0 by the membership
    of the window of the list in the rewardable sequences (plus noise and
    shift), and the query leaves the augmented state, the current state and
    the count of transitions alone. *)
Theorem reward_query (e : RLToyEnv) (l : list (option Z)) (a : Z) :
  (Py.len l <> augmented_state_length (settings e) ->
   reward_function e (StateList l) a true = Raise AssertionError)
  /\ (forall s, reward_function e (StateInt s) a true = Raise AssertionError)
  /\ (forall r e',
        cfg_make_denser (config e) = false ->
        reward_function e (StateList l) a true = Ok (r, e') ->
        r = ((if Py.contains window_eqb
                   (Py.slice l 1
                      (augmented_state_length (settings e) - delay (settings e)))
                   (rewardable_sequences e)
              then 0 + reward_scale (settings e) else 0 # 1)
             + noise_in_reward e + reward_shift (settings e))%Q
        /\ augmented_state (episode e') = augmented_state (episode e)
        /\ curr_state (episode e') = curr_state (episode e)
        /\ total_transitions_episode (episode e')
           = total_transitions_episode (episode e)).
Proof.
  split; [|split].
  - intros Hlen. unfold reward_function.
    destruct (Z.eqb_spec (Py.len l) (augmented_state_length (settings e)));
      [contradiction | reflexivity].
  - intros s. reflexivity.
  - intros r e' Hsparse H.
    pose proof (@reward_function_frame _ _ _ _ _ _ _ H) as (_ & _ & _ & Ha & _).
    pose proof (@reward_function_counters _ _ _ _ _ _ _ H) as (Hcs & Hn & _).
    split; [|auto].
    unfold reward_function in H. bind_inv H as sc eqn Esc.
    bind_inv Esc as u eqn Ea. injection Esc as <-.
    rewrite Hsparse in H. cbn [negb] in H.
    bind_inv H as [reward prs] eqn Er. bind_inv Er as r0 eqn Es.
    injection Er as <- <-.
    unfold sparse_reward in Es. bind_inv Es as ss eqn Ess.
    unfold noise_in_reward, rewardable_sequences. rewrite Ess.
    destruct (cfg_reward_noise (config e)) as [f|].
    + destruct (f (np_random (gens e))) as [noise g].
      injection H as <- _. cbn [fst].
      destruct (Py.contains _ _ _); injection Es as <-; reflexivity.
    + injection H as <- _.
      destruct (Py.contains _ _ _); injection Es as <-; reflexivity.
Qed.

(** X18. A transition query does not move the environment: it leaves the
    current state, the augmented state, the count of transitions and the
    tables alone, and without transition noise it returns the entry of the
    transition table and the environment as it was. *)
Theorem transition_query (e e' : RLToyEnv) (s a s' : Z)
  (Hquery : transition_function e s a true = Ok (s', e')) :
  curr_state (episode e') = curr_state (episode e)
  /\ augmented_state (episode e') = augmented_state (episode e)
  /\ total_transitions_episode (episode e') = total_transitions_episode (episode e)
  /\ tables e' = tables e
  /\ (cfg_transition_noise (config e) = None ->
      e' = e /\ np_get2 (transition_function_table (tables e)) s a = Ok s').
Proof.
  unfold transition_function in Hquery.
  bind_inv Hquery as next_state eqn Eget.
  bind_inv Hquery as [ns e1] eqn Enoise. injection Hquery as <- <-.
  destruct (cfg_transition_noise (config e)) as [noise|].
  - bind_inv Enoise as k1 eqn E1. bind_inv Enoise as [x sp] eqn E2.
    injection Enoise as _ <-. cbn. repeat split; try reflexivity; discriminate.
  - injection Enoise as <- <-. repeat split; reflexivity.
Qed.

End Queries.

Lemma transition_query_witness :
  curr_state (episode example_env) = curr_state (episode example_env)
  /\ augmented_state (episode example_env) = augmented_state (episode example_env)
  /\ total_transitions_episode (episode example_env)
     = total_transitions_episode (episode example_env)
  /\ tables example_env = tables example_env
  /\ (cfg_transition_noise (config example_env) = None ->
      example_env = example_env
      /\ np_get2 (transition_function_table (tables example_env)) 5 2 = Ok 5).
Proof.
  apply (@transition_query _ example_env example_env 5 2 5). reflexivity.
Defined.

(** ** Transition noise *)

Section TransitionNoise.

Context {RNG : Random}.

Lemma noisy_transition_draw (DL : DrawLaws RNG) (e e' : RLToyEnv)
  (s a s' next : Z) (noise : Q) (only_query : bool) :
  cfg_transition_noise (config e) = Some noise ->
  np_get2 (transition_function_table (tables e)) s a = Ok next ->
  0 <= next < relevant_state_space_size (settings e) ->
  transition_function e s a only_query = Ok (s', e') ->
  (exists q, (0 < q)%Q
             /\ ((s' = next /\ q = (1 - noise)%Q)
                 \/ (s' <> next
                     /\ q = (noise / inject_Z
                                       (relevant_state_space_size (settings e) - 1))%Q)))
  /\ total_noisy_transitions_episode (episode e')
     = total_noisy_transitions_episode (episode e)
       + (if s' =? next then 0 else 1).
Proof.
  intros Hnoise Hget Hnext H. unfold transition_function in H.
  rewrite Hget, Hnoise in H. cbn [bind] in H.
  rewrite index_nonneg in H
    by (unfold Py.len; rewrite length_map, range_length; lia).
  cbn [bind] in H.
  bind_inv H as [ns e1] eqn Enoise. bind_inv Enoise as [x sp] eqn E2.
  injection Enoise as <- <-.
  unfold sample_prob in E2. bind_inv E2 as [y g] eqn E3. injection E2 as <- <-.
  unfold np_choice_p in E3.
  match type of E3 with
  | (if (Py.len ?p =? _) && _ && _ then _ else _) = _ => set (probs := p) in *
  end.
  destruct (Py.len probs =? _); [|discriminate].
  destruct (forallb (Qle_bool (0 # 1)) probs) eqn:Hnn; [|discriminate].
  destruct (Qeq_bool (sum_Q probs) (1 # 1)) eqn:Hsum; [|discriminate].
  cbn [andb] in E3. injection E3 as E3.
  pose proof (@rs_choice_p_support _ DL probs
                (space_np_random (relevant_observation_space (gens e)))
                Hnn Hsum) as (Hpos & q & Hq & Hlt).
  rewrite E3 in *. cbn [fst] in *.
  unfold probs in Hq. rewrite nth_error_replace_at in Hq
    by (rewrite length_map, range_length; lia).
  assert (Hcase : (y = next /\ q = (1 - noise)%Q)
                  \/ (y <> next
                      /\ q = (noise / inject_Z
                                        (relevant_state_space_size (settings e) - 1))%Q)).
  { destruct (Nat.eqb_spec (Z.to_nat y) (Z.to_nat next)) as [Heq|Hne].
    - left. injection Hq as <-. split; [lia | reflexivity].
    - right. split; [intros ->; congruence|].
      rewrite nth_error_map in Hq.
      destruct (nth_error (Py.range 0 _) (Z.to_nat y)); [|discriminate].
      now injection Hq as <-. }
  assert (Hcount : (if negb (next =? y) then 1 else 0)
                   = (if y =? next then 0 else 1)).
  { destruct (Z.eqb_spec next y); destruct (Z.eqb_spec y next);
      cbn; congruence || lia. }
  assert (Hres : s' = y
                 /\ total_noisy_transitions_episode (episode e')
                    = total_noisy_transitions_episode (episode e)
                      + (if negb (next =? y) then 1 else 0)).
  { destruct only_query.
    - injection H as <- <-. cbn. split; [reflexivity|].
      destruct (negb (next =? y)); lia.
    - bind_inv H as k eqn Ek. injection H as <- <-. cbn. split; [reflexivity|].
      destruct (negb (next =? y)); lia. }
  destruct Hres as (-> & Hn).
  split; [exists q; split; [exact Hlt | exact Hcase]|].
  now rewrite Hn, Hcount.
Qed.

(** X19. The extremes of the transition noise, on a well-formed transition
    table: with a noise of 0 a transition returns the next state of the table
    and counts no noisy transition; with a noise of 1 it never returns the
    next state of the table and counts a noisy transition each time. *)
Theorem transition_noise_extremes (DL : DrawLaws RNG) (e e' : RLToyEnv)
  (s a s' next : Z) (noise : Q) (only_query : bool)
  (Htable : well_formed_table (relevant_state_space_size (settings e))
              (relevant_action_space_size (settings e))
              (transition_function_table (tables e)))
  (Hnoise : cfg_transition_noise (config e) = Some noise)
  (Hnext : np_get2 (transition_function_table (tables e)) s a = Ok next)
  (Htransition : transition_function e s a only_query = Ok (s', e')) :
  ((noise == 0)%Q ->
   s' = next
   /\ total_noisy_transitions_episode (episode e')
      = total_noisy_transitions_episode (episode e))
  /\ ((noise == 1)%Q ->
      s' <> next
      /\ total_noisy_transitions_episode (episode e')
         = total_noisy_transitions_episode (episode e) + 1).
Proof.
  pose proof (@np_get2_in_range _ _ _ _ _ _ Htable Hnext) as Hr.
  destruct (@noisy_transition_draw DL e e' s a s' next noise only_query
              Hnoise Hnext Hr Htransition) as ((q & Hq & Hcase) & Hcount).
  split; intros Hn.
  - destruct Hcase as [(-> & _)|(_ & ->)].
    + rewrite Z.eqb_refl in Hcount. split; [reflexivity | lia].
    + exfalso. rewrite Hn in Hq. unfold Qdiv in Hq. rewrite Qmult_0_l in Hq.
      now apply Qlt_irrefl in Hq.
  - destruct Hcase as [(_ & ->)|(Hne & _)].
    + exfalso. rewrite Hn in Hq. now apply Qlt_irrefl in Hq.
    + destruct (Z.eqb_spec s' next); [contradiction|]. split; [exact Hne | lia].
Qed.

Lemma step_noisy_count (e e' : RLToyEnv) (a : Z) (out : Z * Q * bool) :
  step e a false = Ok (out, e') ->
  total_noisy_transitions_episode (episode e)
  <= total_noisy_transitions_episode (episode e')
  <= total_noisy_transitions_episode (episode e) + 1.
Proof.
  intros H. unfold step in H.
  bind_inv H as [s1 e1] eqn Et. bind_inv H as [r1 e3] eqn Er.
  bind_inv H as lst eqn El. injection H as _ <-.
  assert (H3 : total_noisy_transitions_episode (episode e3)
               = total_noisy_transitions_episode (episode e1)).
  { unfold reward_function in Er. bind_inv Er as sc eqn Esc.
    bind_inv Er as [rw prs] eqn Erw.
    destruct (cfg_reward_noise _) as [f|].
    - destruct (f _). injection Er as _ <-. reflexivity.
    - injection Er as _ <-. reflexivity. }
  rewrite H3. unfold transition_function in Et.
  bind_inv Et as ns eqn E1. bind_inv Et as [ns' e1'] eqn E2.
  bind_inv Et as k eqn E3. injection Et as _ <-. cbn.
  destruct (cfg_transition_noise (config e)).
  - bind_inv E2 as k1 eqn E4. bind_inv E2 as [x sp] eqn E5.
    injection E2 as _ <-. cbn. destruct (negb (ns =? x)); lia.
  - injection E2 as _ <-. lia.
Qed.

Lemma session_noisy_count (calls : list call) (e e' : RLToyEnv)
  (outs : list returned) :
  0 <= total_noisy_transitions_episode (episode e)
  <= total_transitions_episode (episode e) ->
  session e calls = Ok (outs, e') ->
  0 <= total_noisy_transitions_episode (episode e')
  <= total_transitions_episode (episode e').
Proof.
  revert e outs. induction calls as [|[a|] calls IH]; intros e outs He H.
  - cbn in H. injection H as _ <-. exact He.
  - cbn [session] in H. bind_inv H as [[[s r] done] e1] eqn Estep.
    bind_inv H as [outs1 e2] eqn Erest. injection H as _ <-.
    pose proof (@step_noisy_count _ _ _ _ Estep) as Hn.
    pose proof (@step_outcome _ _ _ _ _ _ _ Estep) as (_ & _ & _ & Ht & _).
    apply (IH e1 outs1); [lia | exact Erest].
  - cbn [session] in H. bind_inv H as [s e1] eqn Ereset.
    bind_inv H as [outs1 e2] eqn Erest. injection H as _ <-.
    apply (IH e1 outs1); [|exact Erest].
    unfold reset in Ereset. bind_inv Ereset as [s0 g] eqn E.
    bind_inv Ereset as prs eqn Ep. injection Ereset as _ <-. cbn. lia.
Qed.

(** X20. At any point of a session, the noisy transitions counted in the
    episode are at most the transitions of the episode. *)
Theorem noisy_transitions_bounded (entropy : Z) (c : Config) (e0 e : RLToyEnv)
  (calls : list call) (outs : list returned)
  (Hinit : RLToyEnv_init entropy c = Ok e0)
  (Hsession : session e0 calls = Ok (outs, e)) :
  0 <= total_noisy_transitions_episode (episode e)
  <= total_transitions_episode (episode e).
Proof.
  apply (@session_noisy_count calls e0 e outs); [|exact Hsession].
  apply init_inv in Hinit.
  destruct Hinit as (sd & g & os & acs & e3 & e4 & s & _ & _ & _ & _ & _ & H5).
  unfold reset in H5. bind_inv H5 as [s0 g0] eqn E. bind_inv H5 as prs eqn Ep.
  injection H5 as _ <-. cbn. lia.
Qed.

End TransitionNoise.

Lemma transition_noise_extremes_witness :
  ((0 # 1 == 0)%Q ->
   fst zero_noise_step
   = fst zero_noise_step
   /\ total_noisy_transitions_episode (episode (snd zero_noise_step))
      = total_noisy_transitions_episode (episode zero_noise_env))
  /\ ((0 # 1 == 1)%Q ->
      fst zero_noise_step <> fst zero_noise_step
      /\ total_noisy_transitions_episode (episode (snd zero_noise_step))
         = total_noisy_transitions_episode (episode zero_noise_env) + 1).
Proof.
  apply (@transition_noise_extremes _ lcg_draw_laws zero_noise_env
           (snd zero_noise_step) (curr_state (episode zero_noise_env)) 3
           (fst zero_noise_step) (fst zero_noise_step) (0 # 1)%Q false).
  - exact (@constructed_table_well_formed _ lcg_laws lcg_draw_laws 0
             zero_noise_config zero_noise_env eq_refl).
  - reflexivity.
  - reflexivity.
  - reflexivity.
Defined.

Lemma noisy_transitions_bounded_witness :
  0 <= total_noisy_transitions_episode (episode (snd zero_noise_session))
  <= total_transitions_episode (episode (snd zero_noise_session)).
Proof.
  apply (@noisy_transitions_bounded _ 0 zero_noise_config zero_noise_env
           (snd zero_noise_session) [CallStep 1; CallStep 2; CallStep 4]
           (fst zero_noise_session));
    reflexivity.
Defined.

(** ** The prefixes kept by a dense environment *)

Lemma concat_last_only {A : Type} (K : nat) (l : list (list A)) (R : list A) :
  length l = S K ->
  (forall k, (k < K)%nat -> nth_error l k = Some []) ->
  nth_error l K = Some R ->
  concat l = R.
Proof.
  revert l. induction K as [|K IH]; intros l Hlen Hnil HR.
  - destruct l as [|x [|y l]]; try discriminate.
    cbn in HR. injection HR as ->. cbn. apply app_nil_r.
  - destruct l as [|x l]; [discriminate|].
    assert (Hx : x = []).
    { specialize (Hnil 0%nat ltac:(lia)). cbn in Hnil. congruence. }
    subst x. cbn [concat app]. apply IH.
    + cbn in Hlen. lia.
    + intros k Hk. apply (Hnil (S k)). lia.
    + exact HR.
Qed.

Section DensePrefixes.

Context {RNG : Random}.

Lemma init_reward_function_others (e e' : RLToyEnv) :
  init_reward_function e = Ok e' ->
  0 < sequence_length (settings e) ->
  forall k, 0 <= k < sequence_length (settings e) - 1 ->
    nth_error (specific_sequences (tables e')) (Z.to_nat k) = Some [].
Proof.
  intros H HK k Hk. unfold init_reward_function in H.
  destruct (cfg_repeats_in_sequences (config e)) eqn:Erep.
  { bind_inv H as [ss g] eqn E. discriminate. }
  set (len_ := sequence_length (settings e)) in *.
  set (num := Py.int _) in *.
  bind_inv H as [sel g] eqn Esel. bind_inv H as [ss clashes] eqn Eloop.
  bind_inv H as u eqn Eassert. injection H as <-.
  assert (Hss : specific_sequences (tables (with_np_random
                   (with_specific_sequences
                      (if 1000 <? num then warn e WarnTooManySequences else e) ss) g))
                = ss) by (destruct (1000 <? num); reflexivity).
  rewrite Hss.
  apply (for_each_preserves
           (fun st : list (list (list Z)) * Z =>
              nth_error (fst st) (Z.to_nat k) = Some [])) in Eloop;
    [exact Eloop | |].
  - cbn [fst]. rewrite nth_error_map, nth_error_range by lia. reflexivity.
  - intros i [ss1 c1] [ss2 c2] _ Hst Hb. cbn [fst] in *.
    bind_inv Hb as cp eqn E1. bind_inv Hb as seq_ eqn E2.
    bind_inv Hb as l eqn E3. bind_inv Hb as ss3 eqn E4.
    injection Hb as <- <-.
    apply append_at_spec in E4; [|lia].
    destruct E4 as (_ & li & _ & _ & Hother).
    rewrite Hother by lia. exact Hst.
Qed.

Lemma constructed_concat (entropy : Z) (c : Config) (e : RLToyEnv) :
  RLToyEnv_init entropy c = Ok e ->
  concat (specific_sequences (tables e)) = rewardable_sequences e.
Proof.
  intros Hinit.
  pose proof (@constructed_tables _ _ _ _ Hinit)
    as (_ & _ & _ & _ & _ & _ & _ & _ & _ & _ & HK).
  pose proof (@constructed_sequences_length _ _ _ _ Hinit) as Hlen.
  pose proof Hinit as Hi. apply init_inv in Hi.
  destruct Hi as (sd & g & os & acs & e3 & e4 & s4 & _ & _ & _ & H3 & H4 & H5).
  apply reset_frame in H5. destruct H5 as (_ & Hs5 & Ht5 & _).
  pose proof (@init_reward_function_frame _ _ _ H4) as (_ & _ & Hs4 & _).
  assert (HK3 : 0 < sequence_length (settings e3))
    by (rewrite <- Hs4, <- Hs5; exact HK).
  pose proof (@init_reward_function_others _ _ H4 HK3) as Hnil.
  rewrite <- Ht5, <- Hs4, <- Hs5 in Hnil.
  set (K := sequence_length (settings e)) in *.
  destruct (nth_error (specific_sequences (tables e)) (Z.to_nat (K - 1)))
    as [R|] eqn:ER.
  2:{ apply nth_error_None in ER. unfold Py.len in Hlen. lia. }
  unfold rewardable_sequences. fold K.
  rewrite (@get_nonneg _ _ (K - 1) R) by (try lia; exact ER).
  apply (@concat_last_only _ (Z.to_nat (K - 1))); [| |exact ER].
  - unfold Py.len in Hlen. lia.
  - intros k Hk. specialize (Hnil (Z.of_nat k) ltac:(lia)).
    now rewrite Nat2Z.id in Hnil.
Qed.

(** X21. What a dense environment keeps between steps: after a step, at
    any point of a session, the list number [j] of
    [possible_remaining_sequences] holds, in the order of the rewardable
    sequences, the prefix of length [j + 1] of every rewardable sequence
    whose first [j] states are the last [j] states of the augmented state
    that end [delay] steps before the present. *)
Theorem dense_prefixes_kept (entropy : Z) (c : Config) (e0 e e' : RLToyEnv)
  (calls : list call) (outs : list returned) (a : Z) (out : Z * Q * bool) (j : Z)
  (Hinit : RLToyEnv_init entropy c = Ok e0)
  (Hdense : cfg_make_denser c = true)
  (Hsession : session e0 calls = Ok (outs, e))
  (Hstep : step e a false = Ok (out, e'))
  (Hj : 0 <= j < sequence_length (settings e0)) :
  let L := augmented_state_length (settings e0) in
  let d := delay (settings e0) in
  Py.get (possible_remaining_sequences (episode e')) j
  = Ok (map (fun seq_ => Py.slice_to seq_ (j + 1))
          (filter (fun seq_ =>
                     window_eqb
                       (Py.slice (augmented_state (episode e')) (L - j - d) (L - d))
                       (Py.slice_to seq_ j))
             (rewardable_sequences e0))).
Proof.
  intros L d.
  pose proof (@constructed_tables _ _ _ _ Hinit) as (Hc0 & _).
  pose proof (@constructed_sequences_length _ _ _ _ Hinit) as Hlen.
  destruct (@session_frame _ _ _ _ _ Hsession) as (Hc & Hs & Ht).
  destruct out as [[s r] done].
  destruct (@step_dense_reward _ e e' a s r done) as (rw & _ & Hrem & _);
    [congruence | exact Hstep |].
  apply remaining_sequences_kept with (j := j) in Hrem;
    [| rewrite Ht, Hs; exact Hlen | rewrite Hs; exact Hj].
  apply get_nonneg; [lia|]. rewrite Hrem. unfold kept_prefixes.
  rewrite Hs, Ht, (@constructed_concat _ _ _ Hinit). reflexivity.
Qed.

End DensePrefixes.

Lemma dense_prefixes_kept_witness :
  let L := augmented_state_length (settings single_triple_env) in
  let d := delay (settings single_triple_env) in
  Py.get (possible_remaining_sequences (episode (snd single_triple_step1))) 1
  = Ok (map (fun seq_ => Py.slice_to seq_ (1 + 1))
          (filter (fun seq_ =>
                     window_eqb
                       (Py.slice (augmented_state (episode (snd single_triple_step1)))
                          (L - 1 - d) (L - d))
                       (Py.slice_to seq_ 1))
             (rewardable_sequences single_triple_env))).
Proof.
  apply (@dense_prefixes_kept _ 0 (dense_config (1 # 60)) single_triple_env
           (snd single_triple_reset) (snd single_triple_step1) [CallReset]
           [Started (fst single_triple_reset)] 4 (fst single_triple_step1) 1);
    [reflexivity | reflexivity | reflexivity | reflexivity | cbn; lia].
Defined.

(** ** Continuous environments: the bounds of the state *)

Lemma contains_bounded (b : Continuous.BoxExtended) (mx : Q) (x : list Q) :
  Continuous.box_max b = Some mx ->
  Continuous.contains b x = true ->
  Forall (fun xi => (- mx <= xi)%Q /\ (xi <= mx)%Q) x.
Proof.
  unfold Continuous.contains. intros -> H.
  apply andb_prop in H. destruct H as [_ H].
  rewrite forallb_forall in H. apply Forall_forall. intros xi Hxi.
  specialize (H xi Hxi). apply andb_prop in H. destruct H as [H1 H2].
  split; now apply Qle_bool_iff.
Qed.

Lemma clip_bounded (mx : Q) (x : list Q) :
  (0 <= mx)%Q ->
  Forall (fun xi => (- mx <= xi)%Q /\ (xi <= mx)%Q) (Continuous.clip x (Some mx)).
Proof.
  intros Hmx. unfold Continuous.clip. apply Forall_forall. intros y Hy.
  apply in_map_iff in Hy. destruct Hy as (xi & <- & _).
  assert (Hneg : (- mx <= mx)%Q).
  { apply Qle_trans with (0 # 1)%Q; [|exact Hmx].
    rewrite <- (Qopp_involutive mx) in Hmx. apply Qopp_le_compat in Hmx.
    rewrite Qopp_involutive in Hmx. exact Hmx. }
  destruct (Qle_bool xi (- mx)) eqn:E1.
  - split; [apply Qle_refl | exact Hneg].
  - destruct (Qle_bool mx xi) eqn:E2.
    + split; [exact Hneg | apply Qle_refl].
    + split; apply Qlt_le_weak, Qnot_le_lt; intros H;
        apply Qle_bool_iff in H; congruence.
Qed.

Section ContinuousBounds.

Context {RNG : Random}.

(** X22. A continuous transition never leaves the box of the states: when
    the observation box and [state_space_max] have the same bound [mx], not
    negative, every coordinate of a state that [transition_function] returns
    lies between [- mx] and [mx], whatever the action, the state passed and
    the noise drawn. *)
Theorem next_state_within_bounds (e e' : Continuous.Env)
  (state : Continuous.state_ref) (action ns : list Q) (only_query : bool) (mx : Q)
  (Hmax : Continuous.state_space_max e = Some mx)
  (Hbox : Continuous.box_max (Continuous.observation_space e) = Some mx)
  (Hmx : (0 <= mx)%Q)
  (Hstep : Continuous.transition_function e state action only_query = Ok (ns, e')) :
  Forall (fun x => (- mx <= x)%Q /\ (x <= mx)%Q) ns.
Proof.
  unfold Continuous.transition_function in Hstep.
  bind_inv Hstep as u eqn Ea.
  bind_inv Hstep as [[[sd nxt] aliased] ws] eqn Eb.
  destruct (match Continuous.transition_noise e with
            | Some f => f (Continuous.np_random e)
            | None => ((0 # 1)%Q, Continuous.np_random e)
            end) as [noise g].
  set (nxt' := map (fun x => (x + noise)%Q) nxt) in *.
  destruct (Continuous.contains (Continuous.observation_space e) nxt') eqn:Ec;
    cbn [negb] in Hstep.
  - cbn [bind] in Hstep.
    assert (ns = nxt').
    { destruct only_query; [congruence|].
      bind_inv Hstep as k eqn Ek. congruence. }
    subst ns. exact (contains_bounded _ _ Hbox Ec).
  - bind_inv Hstep as [sd2 nxt2] eqn Ek.
    bind_inv Ek as k eqn Ek0. injection Ek as _ <-.
    assert (ns = Continuous.clip nxt' (Continuous.state_space_max e)).
    { destruct only_query; [congruence|].
      bind_inv Hstep as k' eqn Ek'. congruence. }
    subst ns. rewrite Hmax. now apply clip_bounded.
Qed.

End ContinuousBounds.

Lemma next_state_within_bounds_witness :
  Forall (fun x => (- (10 # 1) <= x)%Q /\ (x <= 10 # 1)%Q) (fst second_order_step).
Proof.
  apply (@next_state_within_bounds _ second_order_env (snd second_order_step)
           Continuous.CurrState [(1 # 1)%Q; (-1 # 2)%Q] (fst second_order_step)
           false (10 # 1)%Q);
    [reflexivity | reflexivity | unfold Qle; cbn; lia | reflexivity].
Defined.

(** ** Continuous environments: the integration of the dynamics *)

Lemma for_each_app {A S : Type} (xs ys : list A) (body : S -> A -> result S) (s : S) :
  for_each (xs ++ ys) body s = (s' <- for_each xs body s ;; for_each ys body s').
Proof.
  revert s. induction xs as [|x xs IH]; intros s; cbn [app for_each bind];
    [reflexivity|].
  destruct (body s x) as [s1|]; cbn [bind]; [apply IH | reflexivity].
Qed.

Lemma nth_of_nth_error {A : Type} (l l' : list A) (k k' : nat) (d : A) :
  nth_error l k = nth_error l' k' -> nth k l d = nth k' l' d.
Proof.
  intros H. destruct (nth_error l k) as [x|] eqn:E.
  - rewrite (nth_error_nth _ _ d E). symmetry in H.
    now rewrite (nth_error_nth _ _ d H).
  - symmetry in H. apply nth_error_None in E, H.
    now rewrite !nth_overflow.
Qed.

Lemma nth_error_of_nth {A : Type} (l : list A) (k : nat) (d : A) :
  (k < length l)%nat -> nth_error l k = Some (nth k l d).
Proof. intros H. now apply nth_error_nth'. Qed.

Lemma firstn_succ {A : Type} (l : list A) (m : nat) (d : A) :
  (m < length l)%nat -> firstn (S m) l = firstn m l ++ [nth m l d].
Proof.
  revert m. induction l as [|x l IH]; intros m H; cbn [length] in H; [lia|].
  destruct m as [|m]; [reflexivity|].
  cbn [firstn nth app]. f_equal. apply IH. lia.
Qed.

Lemma replace_last {A : Type} (l : list A) (v : A) :
  l <> [] -> Py.replace_at l (length l - 1) v = removelast l ++ [v].
Proof.
  intros H. destruct (exists_last H) as (l' & x & ->).
  rewrite removelast_last. unfold Py.replace_at.
  rewrite length_app. cbn [length].
  replace (length l' + 1 - 1)%nat with (length l') by lia.
  rewrite firstn_app, firstn_all, Nat.sub_diag. cbn [firstn].
  rewrite app_nil_r. f_equal. f_equal.
  rewrite skipn_all2; [reflexivity|]. rewrite length_app. cbn [length]. lia.
Qed.

(** *** Vectors *)

Lemma length_vadd (x y : list Q) :
  length (Continuous.vadd x y) = Nat.min (length x) (length y).
Proof. unfold Continuous.vadd. now rewrite length_map, length_combine. Qed.

Lemma length_vscale (x : list Q) (q : Q) :
  length (Continuous.vscale x q) = length x.
Proof. unfold Continuous.vscale. apply length_map. Qed.

Lemma nth_vadd (c : nat) (x y : list Q) :
  length x = length y ->
  nth c (Continuous.vadd x y) (0 # 1)%Q
  = (nth c x (0 # 1) + nth c y (0 # 1))%Q.
Proof.
  intros H. unfold Continuous.vadd.
  change (0 # 1)%Q with ((fun p : Q * Q => (fst p + snd p)%Q) ((0 # 1)%Q, (0 # 1)%Q)) at 1.
  rewrite map_nth, combine_nth by exact H. reflexivity.
Qed.

Lemma nth_vscale (c : nat) (x : list Q) (q : Q) :
  (c < length x)%nat ->
  nth c (Continuous.vscale x q) (0 # 1)%Q = (nth c x (0 # 1) * q)%Q.
Proof.
  intros H. unfold Continuous.vscale.
  rewrite (nth_indep _ (0 # 1)%Q ((0 # 1) * q)%Q) by (now rewrite length_map).
  exact (map_nth (fun xi => (xi * q)%Q) x (0 # 1)%Q c).
Qed.

Lemma factorial_get (n j : Z) :
  0 <= j < n ->
  Py.get (Continuous.factorial_array n) j
  = Ok (inject_Z (Z.of_nat (fact (Z.to_nat (1 + j))))).
Proof.
  intros H. apply get_nonneg; [lia|]. unfold Continuous.factorial_array.
  rewrite nth_error_map, nth_error_range by lia. cbn [option_map].
  now rewrite Z2Nat.id by lia.
Qed.

Section Integration.

Variables (n : Z) (t : Q).

Lemma integrate_inner (sd : list (list Q)) (i : Z) (M : nat) :
  0 <= i -> i + Z.of_nat M <= n -> Py.len sd = n + 1 ->
  exists sd',
    for_each (Py.range 0 (Z.of_nat M))
      (fun sd j =>
         d_i <- Py.get sd i ;;
         d_hi <- Py.get sd (i + j + 1) ;;
         f_j <- Py.get (Continuous.factorial_array n) j ;;
         k_i <- Py.index sd i ;;
         Ok (Py.replace_at sd k_i
               (Continuous.vadd d_i
                  (Continuous.vscale d_hi (Qpower t (j + 1) / f_j)%Q))))
      sd = Ok sd'
    /\ length sd' = length sd
    /\ (forall k, k <> Z.to_nat i -> nth_error sd' k = nth_error sd k)
    /\ nth_error sd' (Z.to_nat i)
       = Some (integrated_row t sd i (Py.range 0 (Z.of_nat M))
                 (nth (Z.to_nat i) sd [])).
Proof.
  intros Hi HM Hlen. unfold Py.len in Hlen.
  induction M as [|M IH].
  - exists sd. cbn [Z.of_nat]. rewrite range_nil by lia.
    repeat split; try reflexivity.
    cbn [integrated_row fold_left]. apply nth_error_of_nth. lia.
  - destruct IH as (sd1 & Erun & Hl1 & Hother & Hrow); [lia|].
    replace (Z.of_nat (S M)) with (Z.of_nat M + 1) by lia.
    rewrite range_snoc, for_each_app, Erun by lia. cbn [bind for_each].
    rewrite (get_nonneg _ Hi Hrow). cbn [bind].
    assert (Hhi : nth_error sd1 (Z.to_nat (i + Z.of_nat M + 1))
                  = Some (nth (Z.to_nat (i + Z.of_nat M + 1)) sd [])).
    { rewrite Hother by lia. apply nth_error_of_nth. lia. }
    rewrite (@get_nonneg _ _ (i + Z.of_nat M + 1) _ ltac:(lia) Hhi). cbn [bind].
    rewrite factorial_get by lia. cbn [bind].
    rewrite index_nonneg by (unfold Py.len; lia). cbn [bind].
    eexists. split; [reflexivity|]. split; [|split].
    + rewrite length_replace_at; lia.
    + intros k Hk. rewrite nth_error_replace_at by lia.
      destruct (Nat.eqb_spec k (Z.to_nat i)); [contradiction|]. now apply Hother.
    + rewrite nth_error_replace_at, Nat.eqb_refl by lia.
      unfold integrated_row. rewrite fold_left_app. reflexivity.
Qed.

Lemma integrated_row_ext (sd sd' : list (list Q)) (i : Z) (js : list Z)
  (acc : list Q) :
  (forall j, In j js ->
     nth_error sd (Z.to_nat (i + j + 1)) = nth_error sd' (Z.to_nat (i + j + 1))) ->
  integrated_row t sd i js acc = integrated_row t sd' i js acc.
Proof.
  unfold integrated_row. revert acc.
  induction js as [|j js IH]; intros acc H; cbn [fold_left]; [reflexivity|].
  rewrite (nth_of_nth_error _ _ _ _ [] (H j (or_introl eq_refl))).
  apply IH. intros j' Hj'. apply H. now right.
Qed.

Lemma integrate_outer (sd0 : list (list Q)) (I : nat) :
  Z.of_nat I <= n -> Py.len sd0 = n + 1 ->
  exists sd',
    for_each (Py.range 0 (Z.of_nat I))
      (fun sd i =>
         for_each (Py.range 0 (n - i))
           (fun sd j =>
              d_i <- Py.get sd i ;;
              d_hi <- Py.get sd (i + j + 1) ;;
              f_j <- Py.get (Continuous.factorial_array n) j ;;
              k_i <- Py.index sd i ;;
              Ok (Py.replace_at sd k_i
                    (Continuous.vadd d_i
                       (Continuous.vscale d_hi (Qpower t (j + 1) / f_j)%Q))))
           sd)
      sd0 = Ok sd'
    /\ length sd' = length sd0
    /\ (forall k, (I <= k)%nat -> nth_error sd' k = nth_error sd0 k)
    /\ (forall k, (k < I)%nat ->
          nth_error sd' k
          = Some (integrated_row t sd0 (Z.of_nat k)
                    (Py.range 0 (n - Z.of_nat k)) (nth k sd0 []))).
Proof.
  intros HI Hlen.
  induction I as [|I IH].
  - exists sd0. cbn [Z.of_nat]. rewrite range_nil by lia.
    repeat split; try reflexivity. intros k Hk. lia.
  - destruct IH as (sd1 & Erun & Hl1 & Hhigh & Hlow); [lia|].
    replace (Z.of_nat (S I)) with (Z.of_nat I + 1) by lia.
    rewrite range_snoc, for_each_app, Erun by lia. cbn [bind for_each].
    destruct (@integrate_inner sd1 (Z.of_nat I) (Z.to_nat (n - Z.of_nat I)))
      as (sd2 & Einner & Hl2 & Hother & Hrow);
      [lia | lia | unfold Py.len in *; lia |].
    rewrite Z2Nat.id in Einner, Hrow by lia. rewrite Nat2Z.id in Hother, Hrow.
    rewrite Einner. cbn [bind].
    exists sd2. split; [reflexivity|]. split; [lia|]. split.
    + intros k Hk. rewrite Hother by lia. apply Hhigh. lia.
    + intros k Hk. destruct (Nat.eq_dec k I) as [->|Hne].
      * rewrite Hrow. f_equal.
        rewrite (nth_of_nth_error sd1 sd0 I I [] (Hhigh I (Nat.le_refl I))).
        apply integrated_row_ext. intros j Hj. apply In_range in Hj.
        apply Hhigh. lia.
      * rewrite Hother by exact Hne. apply Hlow. lia.
Qed.

End Integration.

Lemma taylor_from_snoc (k : nat) (t : Q) (l : list Q) (d : Q) :
  (taylor_from k t (l ++ [d])
   == taylor_from k t l
      + d * Qpower t (Z.of_nat (k + length l))
        / inject_Z (Z.of_nat (fact (k + length l))))%Q.
Proof.
  revert k. induction l as [|x l IH]; intros k; cbn [app taylor_from length].
  - rewrite Nat.add_0_r. ring.
  - rewrite IH. replace (k + S (length l))%nat with (S k + length l)%nat by lia.
    ring.
Qed.

Lemma integrated_row_length (t : Q) (sd0 : list (list Q)) (dim k M : nat) :
  Forall (fun row => length row = dim) sd0 ->
  (k + M < length sd0)%nat ->
  length (integrated_row t sd0 (Z.of_nat k) (Py.range 0 (Z.of_nat M)) (nth k sd0 []))
  = dim.
Proof.
  intros Hdim HM.
  assert (Hrow : forall i, (i < length sd0)%nat -> length (nth i sd0 []) = dim).
  { intros i Hi. rewrite Forall_forall in Hdim. apply Hdim. now apply nth_In. }
  induction M as [|M IH].
  - cbn [Z.of_nat]. rewrite range_nil by lia.
    cbn [integrated_row fold_left]. apply Hrow. lia.
  - replace (Z.of_nat (S M)) with (Z.of_nat M + 1) by lia.
    rewrite range_snoc by lia.
    unfold integrated_row in *. rewrite fold_left_app. cbn [fold_left].
    rewrite length_vadd, length_vscale, IH, Hrow by lia. lia.
Qed.

Lemma integrated_row_taylor (t : Q) (sd0 : list (list Q)) (dim k M c : nat) :
  Forall (fun row => length row = dim) sd0 ->
  (k + M < length sd0)%nat -> (c < dim)%nat ->
  (nth c (integrated_row t sd0 (Z.of_nat k) (Py.range 0 (Z.of_nat M))
            (nth k sd0 [])) (0 # 1)
   == taylor t (coordinate c (firstn (S M) (skipn k sd0))))%Q.
Proof.
  intros Hdim HM Hc.
  assert (Hrow : forall i, (i < length sd0)%nat -> length (nth i sd0 []) = dim).
  { intros i Hi. rewrite Forall_forall in Hdim. apply Hdim. now apply nth_In. }
  assert (Hskip : forall m, nth m (skipn k sd0) [] = nth (k + m) sd0 []).
  { intros m. apply nth_of_nth_error. apply nth_error_skipn. }
  unfold taylor.
  induction M as [|M IH].
  - cbn [Z.of_nat]. rewrite range_nil by lia.
    cbn [integrated_row fold_left].
    rewrite (@firstn_succ _ (skipn k sd0) 0 []) by (rewrite length_skipn; lia).
    rewrite Hskip, Nat.add_0_r. cbn. field.
  - pose proof (@integrated_row_length t sd0 dim k M Hdim ltac:(lia)) as Hl.
    specialize (IH ltac:(lia)).
    replace (Z.of_nat (S M)) with (Z.of_nat M + 1) by lia.
    rewrite range_snoc by lia.
    unfold integrated_row in *. rewrite fold_left_app. cbn [fold_left].
    replace (Z.to_nat (Z.of_nat k + Z.of_nat M + 1)) with (k + S M)%nat by lia.
    replace (Z.to_nat (1 + Z.of_nat M)) with (S M) by lia.
    rewrite nth_vadd by (rewrite length_vscale, Hl, Hrow by lia; reflexivity).
    rewrite nth_vscale by (rewrite Hrow by lia; exact Hc).
    rewrite IH.
    rewrite (@firstn_succ _ (skipn k sd0) (S M) [])
      by (rewrite length_skipn; lia).
    unfold coordinate. rewrite map_app. cbn [map].
    rewrite taylor_from_snoc, length_map, length_firstn, length_skipn, Hskip.
    replace (0 + Nat.min (S M) (length sd0 - k))%nat with (S M) by lia.
    replace (Z.of_nat (S M)) with (Z.of_nat M + 1) by lia.
    unfold Qdiv. ring.
Qed.

Section Dynamics.

Context {RNG : Random}.

Lemma driven_shape (e : Continuous.Env) (action : list Q) (dim : nat) :
  Continuous.state_derivatives e <> [] ->
  Forall (fun row => length row = dim) (Continuous.state_derivatives e) ->
  length action = dim ->
  length (driven e action) = length (Continuous.state_derivatives e)
  /\ Forall (fun row => length row = dim) (driven e action).
Proof.
  intros Hne Hdim Ha. unfold driven.
  destruct (exists_last Hne) as (l & x & Hl). rewrite Hl in *.
  rewrite removelast_last, !length_app. split; [reflexivity|].
  apply Forall_app in Hdim. destruct Hdim as [Hdim _].
  apply Forall_app. split; [exact Hdim|].
  constructor; [now rewrite length_map | constructor].
Qed.

Lemma integrate_rows (e : Continuous.Env) (action : list Q) (dim : nat) :
  0 <= Continuous.dynamics_order e ->
  Py.len (Continuous.state_derivatives e) = Continuous.dynamics_order e + 1 ->
  Forall (fun row => length row = dim) (Continuous.state_derivatives e) ->
  length action = dim ->
  exists sd',
    Continuous.integrate e action = Ok sd'
    /\ length sd' = length (Continuous.state_derivatives e)
    /\ forall i, (i < length sd')%nat ->
         length (nth i sd' []) = dim
         /\ forall c, (c < dim)%nat ->
              (nth c (nth i sd' []) (0 # 1)
               == taylor (Continuous.time_unit e)
                    (coordinate c (skipn i (driven e action))))%Q.
Proof.
  intros Hn Hlen Hdim Ha.
  set (n := Continuous.dynamics_order e) in *.
  assert (Hne : Continuous.state_derivatives e <> []).
  { intros E. rewrite E in Hlen. cbn in Hlen. lia. }
  destruct (@driven_shape e action dim Hne Hdim Ha) as (Hdl & Hdd).
  unfold Py.len in Hlen.
  unfold Continuous.integrate.
  assert (Hidx : Py.index (Continuous.state_derivatives e) (-1)
                 = Ok (length (Continuous.state_derivatives e) - 1)%nat).
  { unfold Py.index, Py.len.
    change (0 <=? -1) with false. cbn [andb].
    replace (- Z.of_nat (length (Continuous.state_derivatives e)) <=? -1)
      with true by (symmetry; apply Z.leb_le; lia).
    change (-1 <? 0) with true. cbn [andb]. f_equal. lia. }
  rewrite Hidx. cbn [bind]. rewrite (replace_last _ Hne). fold (driven e action).
  fold n.
  destruct (@integrate_outer n (Continuous.time_unit e) (driven e action)
              (Z.to_nat n))
    as (sd' & Erun & Hl & Hhigh & Hlow); [lia | unfold Py.len; lia |].
  rewrite Z2Nat.id in Erun by lia.
  exists sd'. split; [exact Erun|]. split; [lia|].
  intros i Hi.
  assert (Hrow : nth i sd' []
                 = integrated_row (Continuous.time_unit e) (driven e action)
                     (Z.of_nat i)
                     (Py.range 0 (Z.of_nat (Z.to_nat (n - Z.of_nat i))))
                     (nth i (driven e action) [])).
  { rewrite Z2Nat.id by lia.
    destruct (Nat.ltb_spec i (Z.to_nat n)) as [Hlt|Hge].
    - apply nth_error_nth. now apply Hlow.
    - rewrite range_nil by lia. cbn [integrated_row fold_left].
      apply nth_of_nth_error. now apply Hhigh. }
  rewrite Hrow.
  split.
  - apply integrated_row_length; [exact Hdd | lia].
  - intros c Hc.
    rewrite (@integrated_row_taylor (Continuous.time_unit e) (driven e action)
               dim i (Z.to_nat (n - Z.of_nat i)) c Hdd) by lia.
    rewrite firstn_all2 by (rewrite length_skipn; lia).
    reflexivity.
Qed.

End Dynamics.

Section ContinuousTransitions.

Context {RNG : Random}.

Lemma nth_add_noise (c : nat) (x : list Q) (q : Q) :
  (c < length x)%nat ->
  nth c (map (fun xi => (xi + q)%Q) x) (0 # 1)%Q = (nth c x (0 # 1) + q)%Q.
Proof.
  intros H.
  rewrite (nth_indep _ (0 # 1)%Q ((0 # 1) + q)%Q) by (now rewrite length_map).
  exact (map_nth (fun xi => (xi + q)%Q) x (0 # 1)%Q c).
Qed.

(** X23. The integration of the dynamics is a Taylor expansion: with the
    derivative of the highest order set to [action / inertia], the loops of
    the transition function leave in every derivative of order [i], coordinate
    by coordinate, the Taylor polynomial at [time_unit] of the derivatives
    from the order [i] on, those of a higher order taken as they were before
    the call. *)
Theorem integration_is_taylor (e : Continuous.Env) (action : list Q)
  (Hinertia : ~ (Continuous.inertia e == 0 # 1)%Q)
  (Horder : 0 <= Continuous.dynamics_order e)
  (Hrows : Py.len (Continuous.state_derivatives e) = Continuous.dynamics_order e + 1)
  (Hdims : Forall (fun row => length row = length action)
             (Continuous.state_derivatives e)) :
  exists sd',
    Continuous.integrate e action = Ok sd'
    /\ length sd' = length (Continuous.state_derivatives e)
    /\ forall i c, (i < length sd')%nat -> (c < length action)%nat ->
         (nth c (nth i sd' []) (0 # 1)
          == taylor (Continuous.time_unit e)
               (coordinate c (skipn i (driven e action))))%Q.
Proof.
  destruct (@integrate_rows _ e action (length action) Horder Hrows Hdims eq_refl)
    as (sd' & Erun & Hl & Hrow).
  exists sd'. split; [exact Erun|]. split; [exact Hl|].
  intros i c Hi Hc. now apply Hrow.
Qed.

(** X24. A continuous transition under an action inside the action box: the
    transition function returns, whatever state it is passed, the state the
    environment holds moved along the Taylor polynomial of its derivatives
    (the highest being [action / inertia]) with the noise drawn added to
    every coordinate; that state is clipped to [state_space_max] when it is
    outside the observation box.  The environment holds the returned state
    afterwards, also when the call is a query. *)
Theorem in_box_action_integrates (e : Continuous.Env) (state : Continuous.state_ref)
  (action : list Q) (only_query : bool)
  (Hinertia : ~ (Continuous.inertia e == 0 # 1)%Q)
  (Horder : 0 <= Continuous.dynamics_order e)
  (Hrows : Py.len (Continuous.state_derivatives e) = Continuous.dynamics_order e + 1)
  (Hdims : Forall (fun row => length row = length action)
             (Continuous.state_derivatives e))
  (Hshape : Py.len action = Continuous.action_space_dim e)
  (Hin : Continuous.contains (Continuous.action_space e) action = true)
  (Haug : only_query = true \/ Continuous.augmented_state e <> []) :
  exists raw e',
    Continuous.transition_function e state action only_query
    = Ok (if Continuous.contains (Continuous.observation_space e) raw then raw
          else Continuous.clip raw (Continuous.state_space_max e), e')
    /\ length raw = length action
    /\ (forall c, (c < length action)%nat ->
          (nth c raw (0 # 1)
           == taylor (Continuous.time_unit e) (coordinate c (driven e action))
              + noise_drawn e)%Q)
    /\ Continuous.state_value e' Continuous.CurrState
       = (if Continuous.contains (Continuous.observation_space e) raw then raw
          else Continuous.clip raw (Continuous.state_space_max e)).
Proof.
  destruct (@integrate_rows _ e action (length action) Horder Hrows Hdims eq_refl)
    as (sd' & Erun & Hl & Hrow).
  assert (Hpos : (0 < length sd')%nat) by (unfold Py.len in Hrows; lia).
  destruct (Hrow 0%nat Hpos) as (Hl0 & Hval).
  destruct sd' as [|d0 rest]; [cbn in Hpos; lia|]. cbn [nth] in Hl0, Hval.
  unfold Continuous.transition_function.
  rewrite Hshape, Z.eqb_refl, Hin, Erun. cbn [assert bind].
  rewrite (@get_nonneg _ (d0 :: rest) 0 d0 (Z.le_refl 0) eq_refl). cbn [bind].
  unfold noise_drawn.
  destruct (match Continuous.transition_noise e with
            | Some f => f (Continuous.np_random e)
            | None => ((0 # 1)%Q, Continuous.np_random e)
            end) as [noise g] eqn:En.
  assert (Hnoise : match Continuous.transition_noise e with
                   | Some f => fst (f (Continuous.np_random e))
                   | None => (0 # 1)%Q
                   end = noise).
  { destruct (Continuous.transition_noise e); now rewrite En || injection En as <- _. }
  rewrite Hnoise.
  set (raw := map (fun x => (x + noise)%Q) d0).
  assert (Hzeros :
            Py.index
              (map (fun _ : Z =>
                      map (fun _ : Z => (0 # 1)%Q)
                        (Py.range 0 (Continuous.state_space_dim e)))
                 (Py.range 0 (Continuous.dynamics_order e + 1))) 0 = Ok 0%nat).
  { apply (@index_nonneg _ _ 0). unfold Py.len.
    rewrite length_map, range_length. lia. }
  assert (Haug' : only_query = false ->
            exists k, Py.index (Continuous.augmented_state e) 0 = Ok k).
  { intros ->. destruct Haug as [|Hne]; [discriminate|].
    exists 0%nat. apply index_nonneg. unfold Py.len.
    destruct (Continuous.augmented_state e); [congruence | cbn [length]; lia]. }
  exists raw.
  destruct (Continuous.contains (Continuous.observation_space e) raw) eqn:Ec;
    cbn [negb bind].
  - destruct only_query.
    + eexists. split; [reflexivity|].
      split; [unfold raw; now rewrite length_map|].
      split; [|reflexivity].
      intros c Hc. unfold raw. rewrite nth_add_noise by lia.
      now rewrite Hval.
    + destruct (Haug' eq_refl) as (k & ->). cbn [bind].
      eexists. split; [reflexivity|].
      split; [unfold raw; now rewrite length_map|].
      split; [|reflexivity].
      intros c Hc. unfold raw. rewrite nth_add_noise by lia.
      now rewrite Hval.
  - rewrite Hzeros. cbn [bind].
    assert (Hhd : forall (l : list (list Q)) v, hd [] (Py.replace_at l 0 v) = v)
      by reflexivity.
    destruct only_query.
    + eexists. split; [reflexivity|].
      split; [unfold raw; now rewrite length_map|].
      split; [|apply Hhd].
      intros c Hc. unfold raw. rewrite nth_add_noise by lia.
      now rewrite Hval.
    + destruct (Haug' eq_refl) as (k & ->). cbn [bind].
      eexists. split; [reflexivity|].
      split; [unfold raw; now rewrite length_map|].
      split; [|apply Hhd].
      intros c Hc. unfold raw. rewrite nth_add_noise by lia.
      now rewrite Hval.
Qed.

End ContinuousTransitions.

Lemma integration_is_taylor_witness :
  exists sd',
    Continuous.integrate second_order_env [(1 # 1)%Q; (-1 # 2)%Q] = Ok sd'
    /\ length sd' = length (Continuous.state_derivatives second_order_env)
    /\ forall i c, (i < length sd')%nat ->
         (c < length [(1 # 1)%Q; (-1 # 2)%Q])%nat ->
         (nth c (nth i sd' []) (0 # 1)
          == taylor (Continuous.time_unit second_order_env)
               (coordinate c
                  (skipn i (driven second_order_env [(1 # 1)%Q; (-1 # 2)%Q]))))%Q.
Proof.
  apply (@integration_is_taylor _ second_order_env [(1 # 1)%Q; (-1 # 2)%Q]);
    [intros H; discriminate H | cbn; lia | reflexivity | repeat constructor].
Defined.

Lemma in_box_action_integrates_witness :
  exists raw e',
    Continuous.transition_function second_order_env Continuous.CurrState
      [(1 # 1)%Q; (-1 # 2)%Q] false
    = Ok (if Continuous.contains (Continuous.observation_space second_order_env) raw
          then raw
          else Continuous.clip raw (Continuous.state_space_max second_order_env),
          e')
    /\ length raw = length [(1 # 1)%Q; (-1 # 2)%Q]
    /\ (forall c, (c < length [(1 # 1)%Q; (-1 # 2)%Q])%nat ->
          (nth c raw (0 # 1)
           == taylor (Continuous.time_unit second_order_env)
                (coordinate c (driven second_order_env [(1 # 1)%Q; (-1 # 2)%Q]))
              + noise_drawn second_order_env)%Q)
    /\ Continuous.state_value e' Continuous.CurrState
       = (if Continuous.contains (Continuous.observation_space second_order_env) raw
          then raw
          else Continuous.clip raw (Continuous.state_space_max second_order_env)).
Proof.
  apply (@in_box_action_integrates _ second_order_env Continuous.CurrState
           [(1 # 1)%Q; (-1 # 2)%Q] false);
    [intros H; discriminate H | cbn; lia | reflexivity | repeat constructor
    | reflexivity | reflexivity | right; discriminate].
Defined.
